(** * Rainwater harvesting simulation: the [RainwaterHarvester] class

    A shallow embedding of [src/RainwaterSimulation.js] and the properties
    its specification states about it.

    JavaScript numbers are IEEE 754 binary64 values; they are modelled by
    Rocq's primitive [float], whose operations are the same binary64
    operations (one NaN, signed zeros, infinities).  The functions of the
    class that only add, subtract, multiply and compare are written once
    over a record of number operations, so that they can also be read in
    exact rational arithmetic where a property of sums is about the
    mathematics rather than about rounding. *)

From Stdlib Require Import Floats ZArith NArith PArith QArith Qpower Lqa.
From Stdlib Require Import List String Ascii Bool Lia DecimalString DecimalN.
Import ListNotations.

Close Scope Q_scope.
Open Scope string_scope.
Open Scope list_scope.

(** ** Number operations *)

(** What [Number.prototype.toFixed] needs to know of a number: whether it
    is NaN, an infinity, or a finite value, given by its sign and the exact
    magnitude [num / den]. *)
Inductive NumberShape : Type :=
| ShapeNaN
| ShapeInfinity (negative : bool)
| ShapeFinite (negative : bool) (num : N) (den : positive).

(** The operations of JavaScript numbers the class uses.  [lt a b] is
    [a < b]; the source's [a > b] is [lt b a].  [Number_toString num den]
    is the host's [Number::toString] of the non-negative number
    [num / den]; [toFixed] falls back to it for magnitudes of at least
    [10^21], where it writes the number with an exponent. *)
Record NumberOps (T : Type) : Type := {
  zero : T;
  add : T -> T -> T;
  sub : T -> T -> T;
  mul : T -> T -> T;
  lt : T -> T -> bool;
  shape : T -> NumberShape;
  Number_toString : N -> positive -> string
}.

Arguments zero {T} _.
Arguments add {T} _ _ _.
Arguments sub {T} _ _ _.
Arguments mul {T} _ _ _.
Arguments lt {T} _ _ _.
Arguments shape {T} _ _.
Arguments Number_toString {T} _ _ _.

(** *** binary64 numbers *)

(** The shape of a binary64 value, read off its sign, mantissa and
    exponent: a finite non-zero value is [m * 2^e].  Both zeros have the
    shape of a non-negative zero, as [-0 < 0] is false. *)
Definition float_shape (x : float) : NumberShape :=
  match Prim2SF x with
  | S754_nan => ShapeNaN
  | S754_infinity s => ShapeInfinity s
  | S754_zero _ => ShapeFinite false 0%N 1%positive
  | S754_finite s m (Zpos p) => ShapeFinite s (Npos (m * 2 ^ p)) 1%positive
  | S754_finite s m Z0 => ShapeFinite s (Npos m) 1%positive
  | S754_finite s m (Zneg p) => ShapeFinite s (Npos m) (2 ^ p)%positive
  end.

Definition float_ops (toString : N -> positive -> string) : NumberOps float := {|
  zero := 0%float;
  add := PrimFloat.add;
  sub := PrimFloat.sub;
  mul := PrimFloat.mul;
  lt := PrimFloat.ltb;
  shape := float_shape;
  Number_toString := toString
|}.

(** *** Exact rational numbers *)

Definition Q_shape (x : Q) : NumberShape :=
  match Qnum x with
  | Z0 => ShapeFinite false 0%N (Qden x)
  | Zpos p => ShapeFinite false (Npos p) (Qden x)
  | Zneg p => ShapeFinite true (Npos p) (Qden x)
  end.

Definition Q_ops (toString : N -> positive -> string) : NumberOps Q := {|
  zero := 0%Q;
  add := Qplus;
  sub := Qminus;
  mul := Qmult;
  lt := fun a b => negb (Qle_bool b a);
  shape := Q_shape;
  Number_toString := toString
|}.

(** ** Host functions of binary64 numbers *)

(** [Math.log] and [Math.cos] are approximations the host chooses; they
    are parameters of the embedding. *)
Record Host : Type := {
  Math_log : float -> float;
  Math_cos : float -> float
}.

(** [Math.PI], the binary64 value nearest to pi. *)
Definition Math_PI : float := 0x1.921fb54442d18p+1%float.

(** [Math.max(a, b)]: NaN if either argument is NaN, else the larger one,
    where [+0] counts as larger than [-0]. *)
Definition Math_max (a b : float) : float :=
  if is_nan a || is_nan b then nan
  else if (a <? b)%float then b
  else if (b <? a)%float then a
  else if is_zero a && get_sign a then b
  else a.

(** [Math.random()]: the host's source of uniform draws is a sequence
    [draws] that each call reads at the next position. *)
Definition Rand (A : Type) : Type := nat -> A * nat.

Definition ret {A : Type} (a : A) : Rand A := fun pos => (a, pos).

Definition bind {A B : Type} (m : Rand A) (k : A -> Rand B) : Rand B :=
  fun pos => let (a, pos') := m pos in k a pos'.

Definition Math_random (draws : nat -> float) : Rand float :=
  fun pos => (draws pos, S pos).

Notation "x <- m ;; k" := (bind m (fun x => k))
  (at level 61, m at next level, right associativity).

(** ** Values and errors *)

(** A value stored in a property of a result object: a number, or a
    string such as [toFixed] returns. *)
Inductive JSValue (T : Type) : Type :=
| JSNumber (x : T)
| JSString (s : string).

Arguments JSNumber {T} x.
Arguments JSString {T} s.

(** Reading a property of [undefined] throws a [TypeError]. *)
Inductive JSError : Type := TypeError.

(** [{ day, rainfall, harvestedWater }] *)
Module Weekly.
Record entry (T : Type) : Type := {
  day : nat;
  rainfall : JSValue T;
  harvestedWater : JSValue T
}.
Arguments day {T} _.
Arguments rainfall {T} _.
Arguments harvestedWater {T} _.
End Weekly.

(** [{ month, rainfall, harvestedWater }] *)
Module Monthly.
Record entry (T : Type) : Type := {
  month : nat;
  rainfall : JSValue T;
  harvestedWater : JSValue T
}.
Arguments month {T} _.
Arguments rainfall {T} _.
Arguments harvestedWater {T} _.
End Monthly.

(** ** Arrays *)

(** [a.slice(start, end)] for [0 <= start <= end]: the elements from
    [start] up to, not including, [end] or the end of the array. *)
Definition Array_slice {A : Type} (a : list A) (start end_ : nat) : list A :=
  firstn (end_ - start) (skipn start a).

(** The decimal digits of a natural number, ["0"] for 0. *)
Definition digits (n : N) : string := NilEmpty.string_of_uint (N.to_uint n).

(** The integer [n] for which [n / 10] is closest to [num / den], the
    larger one if two are equally close. *)
Definition nearest_tenths (num : N) (den : positive) : N :=
  ((2 * 10 * num + Npos den) / (2 * Npos den))%N.

(** ** The class *)

Section Harvester.

Context {T : Type} (ops : NumberOps T).

(** The fields [this.roofArea] and [this.runoffCoefficient]. *)
Record RainwaterHarvester : Type := {
  roofArea : T;
  runoffCoefficient : T
}.

(** [calculateHarvestedWater(rainfallData)]: [Array.prototype.map] over the
    series; [a * b * c] is [(a * b) * c]. *)
Definition calculateHarvestedWater (this : RainwaterHarvester)
    (rainfallData : list T) : list T :=
  map (fun dailyRainfall =>
         mul ops (mul ops dailyRainfall (roofArea this)) (runoffCoefficient this))
      rainfallData.

(** *** [optimizeStorageCapacity] *)

(** The three variables of the loop. *)
Record TankState : Type := {
  currentStorage : T;
  maxStorageNeeded_ : T;
  overflow_ : T
}.

(** The value the method returns, [{ maxStorageNeeded, overflow }]. *)
Record StorageResult : Type := {
  maxStorageNeeded : T;
  overflow : T
}.

(** [currentStorage += dailyHarvest; currentStorage -= dailyConsumption;] *)
Definition take_in_out (dailyConsumption : T) (st : TankState)
    (dailyHarvest : T) : TankState :=
  let cs := add ops (currentStorage st) dailyHarvest in
  let cs := sub ops cs dailyConsumption in
  {| currentStorage := cs;
     maxStorageNeeded_ := maxStorageNeeded_ st;
     overflow_ := overflow_ st |}.

(** [if (currentStorage < 0) ... else if (currentStorage > maxStorageNeeded) ...] *)
Definition raise_capacity (st : TankState) : TankState :=
  if lt ops (currentStorage st) (zero ops) then
    {| currentStorage := zero ops;
       maxStorageNeeded_ := maxStorageNeeded_ st;
       overflow_ := overflow_ st |}
  else if lt ops (maxStorageNeeded_ st) (currentStorage st) then
    {| currentStorage := currentStorage st;
       maxStorageNeeded_ := currentStorage st;
       overflow_ := overflow_ st |}
  else st.

(** The condition of the second [if], [currentStorage > maxStorageNeeded]. *)
Definition exceeds_capacity (st : TankState) : bool :=
  lt ops (maxStorageNeeded_ st) (currentStorage st).

(** [if (currentStorage > maxStorageNeeded) { overflow += ...; ... }] *)
Definition spill (st : TankState) : TankState :=
  if exceeds_capacity st then
    {| currentStorage := maxStorageNeeded_ st;
       maxStorageNeeded_ := maxStorageNeeded_ st;
       overflow_ :=
         add ops (overflow_ st)
           (sub ops (currentStorage st) (maxStorageNeeded_ st)) |}
  else st.

(** One iteration of [for (const dailyHarvest of harvestedWater)]. *)
Definition optimize_day (dailyConsumption : T) (st : TankState)
    (dailyHarvest : T) : TankState :=
  spill (raise_capacity (take_in_out dailyConsumption st dailyHarvest)).

Definition tank_init : TankState :=
  {| currentStorage := zero ops;
     maxStorageNeeded_ := zero ops;
     overflow_ := zero ops |}.

Definition optimize_loop (harvestedWater : list T) (dailyConsumption : T)
    : TankState :=
  fold_left (optimize_day dailyConsumption) harvestedWater tank_init.

Definition optimizeStorageCapacity (harvestedWater : list T)
    (dailyConsumption : T) : StorageResult :=
  let st := optimize_loop harvestedWater dailyConsumption in
  {| maxStorageNeeded := maxStorageNeeded_ st; overflow := overflow_ st |}.

(** *** [Number.prototype.toFixed(1)]

    A value that is not finite is written by name.  Otherwise the sign is
    taken off, a magnitude of [10^21] or more is written by
    [Number::toString], and a smaller one as the digits of the nearest
    number of tenths with a point before the last digit. *)
Definition toFixed1 (x : T) : string :=
  match shape ops x with
  | ShapeNaN => "NaN"
  | ShapeInfinity false => "Infinity"
  | ShapeInfinity true => "-Infinity"
  | ShapeFinite negative num den =>
      let s := if negative then "-" else "" in
      if (10 ^ 21 * Npos den <=? num)%N then
        s ++ Number_toString ops num den
      else
        let n := nearest_tenths num den in
        s ++ digits (n / 10) ++ "." ++ digits (n mod 10)
  end.

(** [a[i].toFixed(1)]: a [TypeError] where [a[i]] is [undefined]. *)
Definition index_toFixed1 (a : list T) (i : nat) : JSError + JSValue T :=
  match nth_error a i with
  | None => inl TypeError
  | Some x => inr (JSString (toFixed1 x))
  end.

(** *** [getWeeklyData] *)

(** [for (let i = 0; i < 7; i++)], with [remaining] iterations to go. *)
Fixpoint weekly_loop (remaining i : nat) (rainfallData harvestedWater : list T)
    (weeklyData : list (Weekly.entry T)) : JSError + list (Weekly.entry T) :=
  match remaining with
  | O => inr weeklyData
  | S k =>
      match index_toFixed1 rainfallData i with
      | inl e => inl e
      | inr r =>
          match index_toFixed1 harvestedWater i with
          | inl e => inl e
          | inr h =>
              weekly_loop k (S i) rainfallData harvestedWater
                (weeklyData ++
                   [ {| Weekly.day := i + 1;
                        Weekly.rainfall := r;
                        Weekly.harvestedWater := h |} ])
          end
      end
  end.

Definition getWeeklyData (rainfallData harvestedWater : list T)
    : JSError + list (Weekly.entry T) :=
  weekly_loop 7 0 rainfallData harvestedWater [].

(** *** [getMonthlyData] *)

(** [a.reduce((sum, val) => sum + val, 0)] *)
Definition reduce_sum (a : list T) : T :=
  fold_left (fun sum val => add ops sum val) a (zero ops).

(** [for (let i = 0; i < numMonths; i++)], with [remaining] iterations to
    go. *)
Fixpoint monthly_loop (period remaining i : nat)
    (rainfallData harvestedWater : list T)
    (monthlyData : list (Monthly.entry T)) : list (Monthly.entry T) :=
  match remaining with
  | O => monthlyData
  | S k =>
      let startIdx := i * period in
      let endIdx := startIdx + period in
      let periodRainfall := reduce_sum (Array_slice rainfallData startIdx endIdx) in
      let periodHarvested := reduce_sum (Array_slice harvestedWater startIdx endIdx) in
      monthly_loop period k (S i) rainfallData harvestedWater
        (monthlyData ++
           [ {| Monthly.month := i + 1;
                Monthly.rainfall := JSString (toFixed1 periodRainfall);
                Monthly.harvestedWater := JSString (toFixed1 periodHarvested) |} ])
  end.

(** [Math.floor(length / period)] of an array length is the quotient of
    the integer division. *)
Definition getMonthlyData (rainfallData harvestedWater : list T)
    : list (Monthly.entry T) :=
  let period := 30 in
  let numMonths := List.length rainfallData / period in
  monthly_loop period numMonths 0 rainfallData harvestedWater [].

End Harvester.


Arguments roofArea {T} _.
Arguments runoffCoefficient {T} _.
Arguments currentStorage {T} _.
Arguments maxStorageNeeded_ {T} _.
Arguments overflow_ {T} _.
Arguments maxStorageNeeded {T} _.
Arguments overflow {T} _.


(** [constructor(roofArea, runoffCoefficient = 0.8)]: the default is used
    where the argument is left out; [0.8] is the binary64 number nearest
    to it. *)
Definition constructor (roofArea : float) (runoffCoefficient : option float)
    : RainwaterHarvester (T:=float) :=
  {| roofArea := roofArea;
     runoffCoefficient :=
       match runoffCoefficient with
       | Some c => c
       | None => 0x1.999999999999ap-1%float
       end |}.

(** *** [simulateRainfall]

    The method only makes sense for binary64 numbers.  [days] is a count
    of days; the defaults of the source are [days = 365],
    [meanRainfall = 5] and [stdDev = 2]. *)

Section Rainfall.

Variable host : Host.
Variable draws : nat -> float.

(** The Box-Muller variate of two uniform draws; [Math.sqrt] is the
    binary64 square root. *)
Definition box_muller (u1 u2 : float) : float :=
  (sqrt (- 2 * Math_log host u1) * Math_cos host (2 * Math_PI * u2))%float.

(** The body of the loop up to [rain]. *)
Definition daily_rain (meanRainfall stdDev u1 u2 : float) : float :=
  let z := box_muller u1 u2 in
  Math_max 0 (meanRainfall + stdDev * z)%float.

(** [for (let i = 0; i < days; i++)], with [remaining] iterations to go. *)
Fixpoint rainfall_loop (remaining : nat) (meanRainfall stdDev : float)
    (rainfallData : list float) : Rand (list float) :=
  match remaining with
  | O => ret rainfallData
  | S k =>
      u1 <- Math_random draws ;;
      u2 <- Math_random draws ;;
      let rain := daily_rain meanRainfall stdDev u1 u2 in
      rainfall_loop k meanRainfall stdDev (rainfallData ++ [rain])
  end.

Definition simulateRainfall (days : nat) (meanRainfall stdDev : float)
    : Rand (list float) :=
  rainfall_loop days meanRainfall stdDev [].

(** The sample of day [i] before it is clipped, for a run that starts
    reading the draws at [pos]. *)
Definition day_sample (meanRainfall stdDev : float) (pos i : nat) : float :=
  (meanRainfall
   + stdDev * box_muller (draws (pos + 2 * i)) (draws (pos + 2 * i + 1)))%float.

End Rainfall.

(** ** The reference definitions of the specification *)

Section Reference.

Context {T : Type} (ops : NumberOps T).

(** *** The reference the specification gives for the capacity

    "the running maximum of net cumulative inflow-minus-consumption
    (floored at 0 each day)". *)

(** The cumulative net inflow after each day: the day's net inflow,
    harvest less consumption, is added to the running total, and a
    negative total is set to 0. *)
Fixpoint net_inflow_totals (total : T) (harvested : list T)
    (dailyConsumption : T) : list T :=
  match harvested with
  | [] => []
  | h :: rest =>
      let t := add ops total (sub ops h dailyConsumption) in
      let t := if lt ops t (zero ops) then zero ops else t in
      t :: net_inflow_totals t rest dailyConsumption
  end.

(** The larger of a maximum so far and a new value. *)
Definition larger (m t : T) : T := if lt ops m t then t else m.

Definition running_max_net_inflow (harvested : list T) (dailyConsumption : T)
    : T :=
  fold_left larger (net_inflow_totals (zero ops) harvested dailyConsumption)
    (zero ops).

(** The same reference with the two operations of a day done one after
    the other: the harvest is added to the running total, then the
    consumption is subtracted from it. *)
Fixpoint stepwise_totals (total : T) (harvested : list T)
    (dailyConsumption : T) : list T :=
  match harvested with
  | [] => []
  | h :: rest =>
      let t := sub ops (add ops total h) dailyConsumption in
      let t := if lt ops t (zero ops) then zero ops else t in
      t :: stepwise_totals t rest dailyConsumption
  end.

Definition running_max_stepwise (harvested : list T) (dailyConsumption : T)
    : T :=
  fold_left larger (stepwise_totals (zero ops) harvested dailyConsumption)
    (zero ops).

(** The entry [getWeeklyData] pushes for day index [i]. *)
Definition weekly_entry (rainfallData harvestedWater : list T) (i : nat)
    : Weekly.entry T :=
  {| Weekly.day := i + 1;
     Weekly.rainfall := JSString (toFixed1 ops (nth i rainfallData (zero ops)));
     Weekly.harvestedWater :=
       JSString (toFixed1 ops (nth i harvestedWater (zero ops))) |}.

(** *** The monthly sums the specification describes *)

(** The sum of a block of days as the specification words it: the values
    of the [count] days from [offset] on, added one after the other to 0
    in the order of the series. *)
Fixpoint sum_of_days (series : list T) (offset count : nat) : T :=
  match count with
  | O => zero ops
  | S j => add ops (sum_of_days series offset j)
             (nth (offset + j) series (zero ops))
  end.

(** The days a series has in the 30-day block that starts at [offset]:
    30, or fewer where the series ends within the block. *)
Definition days_in_block (series : list T) (offset : nat) : nat :=
  Nat.min 30 (List.length series - offset).

(** The entry [getMonthlyData] pushes for month index [i]. *)
Definition monthly_entry (rainfallData harvestedWater : list T) (i : nat)
    : Monthly.entry T :=
  {| Monthly.month := i + 1;
     Monthly.rainfall :=
       JSString (toFixed1 ops (reduce_sum ops (firstn 30 (skipn (i * 30) rainfallData))));
     Monthly.harvestedWater :=
       JSString (toFixed1 ops (reduce_sum ops (firstn 30 (skipn (i * 30) harvestedWater)))) |}.

End Reference.

(** ** The numbers that results denote

    To compare the entries of a summary with sums of the series, the
    strings [toFixed(1)] returns are read back as the decimal numbers they
    write, and numbers as their exact values. *)

(** The exact value of a finite number. *)
Definition shape_value (s : NumberShape) : option Q :=
  match s with
  | ShapeFinite negative num den =>
      let q := Qmake (Z.of_N num) den in
      Some (if negative then Qopp q else q)
  | _ => None
  end.

(** Splits a string at its first point. *)
Fixpoint split_point (s : string) : option (string * string) :=
  match s with
  | EmptyString => None
  | String c rest =>
      if Ascii.eqb c "." then Some (EmptyString, rest)
      else match split_point rest with
           | Some (a, b) => Some (String c a, b)
           | None => None
           end
  end.

(** The value of [digits "." digit]. *)
Definition unsigned_fixed_value (s : string) : option Q :=
  match split_point s with
  | Some (a, b) =>
      match NilEmpty.uint_of_string a, NilEmpty.uint_of_string b with
      | Some ua, Some ub =>
          if Nat.eqb (String.length b) 1 then
            Some (Qmake (Z.of_N (N.of_uint ua * 10 + N.of_uint ub)) 10)
          else None
      | _, _ => None
      end
  | None => None
  end.

(** The value of a rendering with one digit after the point, with or
    without a minus sign. *)
Definition fixed_value (s : string) : option Q :=
  match s with
  | String "-" rest => option_map Qopp (unsigned_fixed_value rest)
  | _ => unsigned_fixed_value s
  end.

(** The number a property value denotes, as [Number(v)] would read it. *)
Definition value_of {T : Type} (ops : NumberOps T) (v : JSValue T) : option Q :=
  match v with
  | JSNumber x => shape_value (shape ops x)
  | JSString s => fixed_value s
  end.

(** The sum of the numbers, when every one is defined. *)
Fixpoint sum_values (vs : list (option Q)) : option Q :=
  match vs with
  | [] => Some 0%Q
  | v :: rest =>
      match v, sum_values rest with
      | Some a, Some b => Some (a + b)%Q
      | _, _ => None
      end
  end.

(** ** Auxiliary definitions *)

(** What [0 <= x] says of the representation of [x]. *)
Definition SF_nonneg (x : spec_float) : bool :=
  match x with
  | S754_zero _ => true
  | S754_infinity s => negb s
  | S754_finite s _ _ => negb s
  | S754_nan => false
  end.

(** A host that has the two values ECMAScript fixes exactly,
    [Math.log(+0) = -Infinity] and [Math.cos(+0) = 1]. *)
Definition edge_host : Host := {|
  Math_log := fun x => if (x =? 0)%float then neg_infinity else nan;
  Math_cos := fun x => if (x =? 0)%float then 1%float else nan
|}.

(** What [x < 0] says of the representation of [x]. *)
Definition SF_negative (x : spec_float) : bool :=
  match x with
  | S754_infinity s => s
  | S754_finite s _ _ => s
  | _ => false
  end.

(** The place of a binary64 number in the order of [<]: an integer that
    grows with the number, both zeros at 0 and the infinities beyond every
    finite number. *)
Definition SF_rank (x : spec_float) : Z :=
  match x with
  | S754_zero _ => 0
  | S754_finite s m e => cond_Zopp s (Z.pos m * 2 ^ (e + 1074))
  | S754_infinity s => cond_Zopp s (2 ^ 2100)
  | S754_nan => 0
  end%Z.

(** Whether the representation is of a number, not of NaN. *)
Definition SF_number (x : spec_float) : bool :=
  match x with S754_nan => false | _ => true end.

(** What [0 < x] says of the representation of [x]. *)
Definition SF_positive (x : spec_float) : bool :=
  match x with
  | S754_infinity s => negb s
  | S754_finite s _ _ => negb s
  | _ => false
  end.

(** Whether a binary64 number is finite and below [10^21] in magnitude,
    so that [toFixed(1)] writes it with a point and one digit. *)
Definition below_1e21 (x : float) : bool :=
  match float_shape x with
  | ShapeFinite _ num den => negb (10 ^ 21 * Npos den <=? num)%N
  | _ => false
  end.

(** The value [s] stored for the number [x] reads back as a number within
    a twentieth of [x]. *)
Definition reads_back_close {T : Type} (ops : NumberOps T) (x : T)
    (s : JSValue T) : Prop :=
  exists v xv : Q,
    value_of ops s = Some v
    /\ value_of ops (JSNumber x) = Some xv
    /\ (xv - (1 # 20) <= v /\ v <= xv + (1 # 20))%Q.

(** Whether the representation is of a zero or of a number with a
    mantissa: neither NaN nor an infinity. *)
Definition SF_finite (x : spec_float) : bool :=
  match x with
  | S754_zero _ | S754_finite _ _ _ => true
  | _ => false
  end.

(** The exact value of a finite binary64 number in units of [2^-1074],
    the spacing of the smallest numbers: an integer. *)
Definition float_units (x : float) : Z := SF_rank (Prim2SF x).

(** The exact total of a series, in the same units. *)
Fixpoint total_units (l : list float) : Z :=
  match l with
  | [] => 0
  | x :: rest => float_units x + total_units rest
  end.

(** The exact value of a number of units. *)
Definition units_value (n : Z) : Q := Qmake n (2 ^ 1074).

(** ** The calculator: [App]

    The component keeps five pieces of state, [step], [inputs], [results],
    [viewMode] and [error]; each handler is modelled by the state it
    leaves.  [parseFloat] is the host's; the markup is not modelled. *)

(** The keys of [inputs], which are also the names of the input fields. *)
Inductive Field : Type :=
| F_roofArea
| F_dailyConsumption
| F_meanRainfall
| F_stdDev
| F_runoffCoeff.

Definition Field_eqb (a b : Field) : bool :=
  match a, b with
  | F_roofArea, F_roofArea
  | F_dailyConsumption, F_dailyConsumption
  | F_meanRainfall, F_meanRainfall
  | F_stdDev, F_stdDev
  | F_runoffCoeff, F_runoffCoeff => true
  | _, _ => false
  end.

(** The object [calculateResults] passes to [setResults]. *)
Module Results.
Record t : Type := {
  weeklyData : list (Weekly.entry float);
  monthlyData : list (Monthly.entry float);
  totalRainfall : string;
  totalHarvested : string;
  maxStorageNeeded : string;
  overflow : string;
  efficiency : string
}.
End Results.

(** One of the two [datasets] of the chart. *)
Module Dataset.
Record t : Type := {
  label : string;
  data : list (JSValue float);
  backgroundColor : string
}.
End Dataset.

(** What [getChartData] returns when there are results. *)
Module Chart.
Record t : Type := {
  labels : list string;
  datasets : list Dataset.t
}.
End Chart.

Record AppState : Type := {
  step : Z;
  inputs : Field -> string;
  results : option Results.t;
  viewMode : string;
  error : string
}.

(** The state of [useState(1)], [useState({ roofArea: '', ... })],
    [useState(null)], [useState('weekly')] and [useState('')]. *)
Definition initial_state : AppState :=
  {| step := 1;
     inputs := fun _ => "";
     results := None;
     viewMode := "weekly";
     error := "" |}.

Definition setStep (st : AppState) (s : Z) : AppState :=
  {| step := s; inputs := inputs st; results := results st;
     viewMode := viewMode st; error := error st |}.

Definition setError (st : AppState) (e : string) : AppState :=
  {| step := step st; inputs := inputs st; results := results st;
     viewMode := viewMode st; error := e |}.

Definition setResults (st : AppState) (r : option Results.t) : AppState :=
  {| step := step st; inputs := inputs st; results := r;
     viewMode := viewMode st; error := error st |}.

Definition setViewMode (st : AppState) (v : string) : AppState :=
  {| step := step st; inputs := inputs st; results := results st;
     viewMode := v; error := error st |}.

Definition setInputs (st : AppState) (i : Field -> string) : AppState :=
  {| step := step st; inputs := i; results := results st;
     viewMode := viewMode st; error := error st |}.

(** [{ 1: { name: 'roofArea', label: 'Roof Area' }, ... }[step]]:
    [undefined] for any other step. *)
Definition step_input (s : Z) : option (Field * string) :=
  match s with
  | 1%Z => Some (F_roofArea, "Roof Area")
  | 2%Z => Some (F_dailyConsumption, "Daily Consumption")
  | 3%Z => Some (F_meanRainfall, "Average Daily Rainfall")
  | 4%Z => Some (F_stdDev, "Rainfall Variation")
  | 5%Z => Some (F_runoffCoeff, "Runoff Coefficient")
  | _ => None
  end.

(** [!value] of a number: true of [0], [-0] and NaN. *)
Definition falsy (value : float) : bool := is_zero value || is_nan value.

(** The text of a count in a template literal. *)
Definition count_text (n : nat) : string := digits (N.of_nat n).

Section App.

Variable host : Host.
Variable toStr : N -> positive -> string.
Variable parseFloat : string -> float.
Variable draws : nat -> float.

#[local] Abbreviation fops := (float_ops toStr).

(** [handleInputChange]: [{ ...prev, [name]: value }] and no error. *)
Definition handleInputChange (st : AppState) (name : Field) (value : string)
    : AppState :=
  setError
    (setInputs st (fun k => if Field_eqb k name then value else inputs st k))
    "".

(** [validateStep]: what it returns and the state it leaves; a
    [TypeError] where [currentInput] is [undefined]. *)
Definition validateStep (st : AppState) : JSError + (bool * AppState) :=
  match step_input (step st) with
  | None => inl TypeError
  | Some (name, label) =>
      let value := parseFloat (inputs st name) in
      if falsy value || is_nan value then
        inr (false, setError st ("Please enter a valid number for " ++ label))
      else if (value <=? 0)%float then
        inr (false, setError st (label ++ " must be greater than 0"))
      else if Field_eqb name F_runoffCoeff
              && ((value <? 0)%float || (1 <? value)%float) then
        inr (false, setError st "Runoff Coefficient must be between 0 and 1")
      else inr (true, st)
  end.

(** [handleBack] *)
Definition handleBack (st : AppState) : AppState :=
  setError (setStep st (step st - 1)) "".

(** [calculateResults] *)
Definition calculateResults (st : AppState) : Rand (JSError + AppState) :=
  let harvester :=
    constructor (parseFloat (inputs st F_roofArea))
      (Some (parseFloat (inputs st F_runoffCoeff))) in
  rainfallData <-
    simulateRainfall host draws 365
      (parseFloat (inputs st F_meanRainfall)) (parseFloat (inputs st F_stdDev)) ;;
  let harvestedWater := calculateHarvestedWater fops harvester rainfallData in
  let storage :=
    optimizeStorageCapacity fops harvestedWater
      (parseFloat (inputs st F_dailyConsumption)) in
  match getWeeklyData fops rainfallData harvestedWater with
  | inl e => ret (inl e)
  | inr weeklyData =>
      let monthlyData := getMonthlyData fops rainfallData harvestedWater in
      let totalRainfall := reduce_sum fops rainfallData in
      let totalHarvested := reduce_sum fops harvestedWater in
      let efficiency :=
        toFixed1 fops
          ((totalHarvested - overflow storage) / totalHarvested * 100)%float in
      ret (inr
        (setStep
           (setResults st
              (Some {| Results.weeklyData := weeklyData;
                       Results.monthlyData := monthlyData;
                       Results.totalRainfall := toFixed1 fops totalRainfall;
                       Results.totalHarvested := toFixed1 fops totalHarvested;
                       Results.maxStorageNeeded :=
                         toFixed1 fops (maxStorageNeeded storage);
                       Results.overflow := toFixed1 fops (overflow storage);
                       Results.efficiency := efficiency |}))
           6))
  end.

(** [handleNext] *)
Definition handleNext (st : AppState) : Rand (JSError + AppState) :=
  match validateStep st with
  | inl e => ret (inl e)
  | inr (true, st') =>
      if (step st <? 5)%Z then ret (inr (setStep st' (step st + 1)))
      else calculateResults st'
  | inr (false, st') => ret (inr st')
  end.

(** The handler of the "Calculate Again" button. *)
Definition calculateAgain (st : AppState) : AppState :=
  setResults (setInputs (setStep st 1) (fun _ => "")) None.

(** [getChartData]: [null] without results. *)
Definition getChartData (st : AppState) : option Chart.t :=
  match results st with
  | None => None
  | Some res =>
      let weekly := String.eqb (viewMode st) "weekly" in
      let labels :=
        if weekly then
          map (fun d => ("Day " ++ count_text (Weekly.day d))%string)
            (Results.weeklyData res)
        else
          map (fun d => ("Month " ++ count_text (Monthly.month d))%string)
            (Results.monthlyData res) in
      let rainfall :=
        if weekly then map Weekly.rainfall (Results.weeklyData res)
        else map Monthly.rainfall (Results.monthlyData res) in
      let harvested :=
        if weekly then map Weekly.harvestedWater (Results.weeklyData res)
        else map Monthly.harvestedWater (Results.monthlyData res) in
      Some {| Chart.labels := labels;
              Chart.datasets :=
                [ {| Dataset.label := "Rainfall (mm)";
                     Dataset.data := rainfall;
                     Dataset.backgroundColor := "rgba(53, 162, 235, 0.5)" |};
                  {| Dataset.label := "Harvested Water (L)";
                     Dataset.data := harvested;
                     Dataset.backgroundColor := "rgba(75, 192, 192, 0.5)" |} ] |}
  end.

(** The year of rainfall and of harvested water a calculation uses. *)
Definition year_rainfall (st : AppState) (pos : nat) : list float :=
  fst (simulateRainfall host draws 365
         (parseFloat (inputs st F_meanRainfall))
         (parseFloat (inputs st F_stdDev)) pos).

Definition year_harvest (st : AppState) (pos : nat) : list float :=
  calculateHarvestedWater fops
    (constructor (parseFloat (inputs st F_roofArea))
       (Some (parseFloat (inputs st F_runoffCoeff))))
    (year_rainfall st pos).

End App.

(** *** What the user can do

    The markup shows the input form while [step < 6] and the results
    otherwise; "Back" is there only for [step > 1].  An event takes a state
    and a position in the random source to the next ones. *)
Inductive ui_event (host : Host) (toStr : N -> positive -> string)
    (parseFloat : string -> float) (draws : nat -> float)
    : AppState * nat -> AppState * nat -> Prop :=
| ev_input (st : AppState) (pos : nat) (name : Field) (value : string) :
    (step st < 6)%Z ->
    ui_event host toStr parseFloat draws
      (st, pos) (handleInputChange st name value, pos)
| ev_next (st st' : AppState) (pos pos' : nat) :
    (step st < 6)%Z ->
    handleNext host toStr parseFloat draws st pos = (inr st', pos') ->
    ui_event host toStr parseFloat draws (st, pos) (st', pos')
| ev_back (st : AppState) (pos : nat) :
    (1 < step st < 6)%Z ->
    ui_event host toStr parseFloat draws (st, pos) (handleBack st, pos)
| ev_view (st : AppState) (pos : nat) (mode : string) :
    (6 <= step st)%Z ->
    mode = "weekly" \/ mode = "monthly" ->
    ui_event host toStr parseFloat draws (st, pos) (setViewMode st mode, pos)
| ev_again (st : AppState) (pos : nat) :
    (6 <= step st)%Z ->
    ui_event host toStr parseFloat draws (st, pos) (calculateAgain st, pos).

(** The states a session can be in. *)
Inductive reachable (host : Host) (toStr : N -> positive -> string)
    (parseFloat : string -> float) (draws : nat -> float)
    : AppState * nat -> Prop :=
| reach_start (pos : nat) :
    reachable host toStr parseFloat draws (initial_state, pos)
| reach_step (s s' : AppState * nat) :
    reachable host toStr parseFloat draws s ->
    ui_event host toStr parseFloat draws s s' ->
    reachable host toStr parseFloat draws s'.

(** ** Properties *)

(** *** Comparisons of binary64 numbers *)

Lemma float_ltb_irrefl (x : float) : (x <? x)%float = false.
Proof.
  rewrite ltb_spec. unfold SFltb.
  destruct (Prim2SF x) as [s|s| |s m e]; simpl; try reflexivity.
  - destruct s; reflexivity.
  - destruct s; rewrite Z.compare_refl, Pos.compare_cont_refl; reflexivity.
Qed.

Lemma float_zero_leb (x : float) :
  (0 <=? x)%float = SF_nonneg (Prim2SF x).
Proof.
  rewrite leb_spec. unfold SFleb.
  change (Prim2SF 0) with (S754_zero false).
  destruct (Prim2SF x) as [s|s| |s m e]; simpl; try reflexivity;
    destruct s; reflexivity.
Qed.

Lemma float_nonneg_lt (a b : float) :
  (0 <=? a)%float = true -> (a <? b)%float = true -> (0 <=? b)%float = true.
Proof.
  rewrite !float_zero_leb, ltb_spec. unfold SFltb.
  destruct (Prim2SF a) as [sa|sa| |sa ma ea];
    destruct (Prim2SF b) as [sb|sb| |sb mb eb]; simpl;
    try destruct sa; try destruct sb; simpl; congruence.
Qed.

(** *** The storage loop over any numbers with an irreflexive [<] *)

Section Optimizer.

Context {T : Type} (ops : NumberOps T).
Hypothesis lt_irrefl : forall x : T, lt ops x x = false.

(** While the capacity is not below zero, the day's total never exceeds
    the capacity once the capacity has been raised. *)
Lemma never_exceeds_capacity (c : T) (st : TankState) (h : T) :
  lt ops (maxStorageNeeded_ st) (zero ops) = false ->
  exceeds_capacity ops (raise_capacity ops (take_in_out ops c st h)) = false.
Proof.
  intro Hmax. unfold exceeds_capacity, raise_capacity, take_in_out.
  cbn [currentStorage maxStorageNeeded_ overflow_].
  set (t := sub ops (add ops (currentStorage st) h) c).
  destruct (lt ops t (zero ops)) eqn:Hneg;
    cbn [currentStorage maxStorageNeeded_ overflow_].
  - exact Hmax.
  - destruct (lt ops (maxStorageNeeded_ st) t) eqn:Hgt;
      cbn [currentStorage maxStorageNeeded_ overflow_].
    + apply lt_irrefl.
    + exact Hgt.
Qed.

Lemma optimize_day_unfold (c : T) (st : TankState) (h : T) :
  lt ops (maxStorageNeeded_ st) (zero ops) = false ->
  let t := sub ops (add ops (currentStorage st) h) c in
  optimize_day ops c st h =
    {| currentStorage := if lt ops t (zero ops) then zero ops else t;
       maxStorageNeeded_ :=
         larger ops (maxStorageNeeded_ st)
           (if lt ops t (zero ops) then zero ops else t);
       overflow_ := overflow_ st |}
  /\ lt ops (larger ops (maxStorageNeeded_ st)
               (if lt ops t (zero ops) then zero ops else t)) (zero ops) = false.
Proof.
  intros Hmax t. unfold optimize_day, spill.
  rewrite (never_exceeds_capacity c st h Hmax).
  unfold raise_capacity, take_in_out, larger.
  cbn [currentStorage maxStorageNeeded_ overflow_]. fold t.
  destruct (lt ops t (zero ops)) eqn:Hneg.
  - rewrite Hmax. split; [reflexivity | exact Hmax].
  - destruct (lt ops (maxStorageNeeded_ st) t) eqn:Hgt.
    + split; [reflexivity | exact Hneg].
    + split; [reflexivity | exact Hmax].
Qed.

Lemma optimize_fold_spec (c : T) (hs : list T) (st : TankState) :
  lt ops (maxStorageNeeded_ st) (zero ops) = false ->
  let st' := fold_left (optimize_day ops c) hs st in
  overflow_ st' = overflow_ st
  /\ maxStorageNeeded_ st' =
       fold_left (larger ops) (stepwise_totals ops (currentStorage st) hs c)
         (maxStorageNeeded_ st)
  /\ lt ops (maxStorageNeeded_ st') (zero ops) = false.
Proof.
  revert st. induction hs as [|h hs IH]; intros st Hmax;
    cbn [fold_left stepwise_totals]; cbv zeta.
  - auto.
  - destruct (optimize_day_unfold c st h Hmax) as [Hstep Hmax'].
    cbv zeta in Hstep, Hmax'. rewrite Hstep.
    set (st1 := Build_TankState _ _ _) in *.
    assert (Hok : lt ops (maxStorageNeeded_ st1) (zero ops) = false)
      by exact Hmax'.
    exact (IH st1 Hok).
Qed.

End Optimizer.

(** *** The storage loop on binary64 numbers *)

Lemma float_optimize_spec (toStr : N -> positive -> string)
    (hs : list float) (c : float) :
  let st := optimize_loop (float_ops toStr) hs c in
  overflow_ st = 0%float
  /\ maxStorageNeeded_ st = running_max_stepwise (float_ops toStr) hs c
  /\ (maxStorageNeeded_ st <? 0)%float = false.
Proof.
  exact (optimize_fold_spec (float_ops toStr) float_ltb_irrefl c hs
           (tank_init (float_ops toStr)) (float_ltb_irrefl 0%float)).
Qed.

Lemma float_larger_nonneg (toStr : N -> positive -> string)
    (l : list float) (m : float) :
  (0 <=? m)%float = true ->
  (0 <=? fold_left (larger (float_ops toStr)) l m)%float = true.
Proof.
  revert m. induction l as [|t l IH]; intros m Hm; cbn [fold_left].
  - exact Hm.
  - apply IH. unfold larger. cbn [lt float_ops].
    destruct (m <? t)%float eqn:Hlt.
    + exact (float_nonneg_lt m t Hm Hlt).
    + exact Hm.
Qed.

(** The two scenarios the specification works out. *)
Example optimize_scenario_rising :
  optimizeStorageCapacity (float_ops (fun _ _ => "")) [10; 10; 10]%float 5%float
  = {| maxStorageNeeded := 15%float; overflow := 0%float |}.
Proof. reflexivity. Qed.

Example optimize_scenario_draining :
  optimizeStorageCapacity (float_ops (fun _ _ => "")) [100; 0; 0]%float 10%float
  = {| maxStorageNeeded := 90%float; overflow := 0%float |}.
Proof. reflexivity. Qed.

(** C2: for every harvested series and every daily consumption, negative,
    zero, infinite and NaN values included, the optimizer returns an
    overflow of exactly 0: the branch that adds to it is never taken,
    after any number of days and whatever the next day's harvest. *)
Theorem overflow_is_zero (toStr : N -> positive -> string)
    (harvested : list float) (dailyConsumption : float) :
  let ops := float_ops toStr in
  overflow (optimizeStorageCapacity ops harvested dailyConsumption) = 0%float
  /\ forall (n : nat) (dailyHarvest : float),
       exceeds_capacity ops
         (raise_capacity ops
            (take_in_out ops dailyConsumption
               (optimize_loop ops (firstn n harvested) dailyConsumption)
               dailyHarvest)) = false.
Proof.
  cbv zeta. split.
  - unfold optimizeStorageCapacity. cbn [overflow].
    apply (float_optimize_spec toStr harvested dailyConsumption).
  - intros n dailyHarvest.
    apply (never_exceeds_capacity (float_ops toStr) float_ltb_irrefl).
    apply (float_optimize_spec toStr (firstn n harvested) dailyConsumption).
Qed.

(** C10: the optimizer is deterministic: its result is a function of the
    series and the consumption alone, whatever the host; and both
    [maxStorageNeeded >= 0] and [overflow >= 0] hold of every result. *)
Theorem optimize_deterministic_nonneg (toStr toStr' : N -> positive -> string)
    (harvested : list float) (dailyConsumption : float) :
  let r := optimizeStorageCapacity (float_ops toStr) harvested dailyConsumption in
  optimizeStorageCapacity (float_ops toStr') harvested dailyConsumption = r
  /\ (0 <=? maxStorageNeeded r)%float = true
  /\ (0 <=? overflow r)%float = true.
Proof.
  destruct (float_optimize_spec toStr harvested dailyConsumption)
    as (Hov & Hmax & _).
  cbv zeta. unfold optimizeStorageCapacity. cbn [maxStorageNeeded overflow].
  split; [reflexivity | split].
  - rewrite Hmax. unfold running_max_stepwise.
    apply float_larger_nonneg. reflexivity.
  - rewrite Hov. reflexivity.
Qed.

(** *** The capacity in exact arithmetic

    On rational numbers the order in which a day's harvest and consumption
    enter the total does not matter: the capacity is the running maximum
    of the totals of the net inflows. *)

Section ExactCapacity.

Variable toStr : N -> positive -> string.

#[local] Abbreviation qops := (Q_ops toStr).

Lemma Q_lt_true (x y : Q) : lt qops x y = true <-> (x < y)%Q.
Proof.
  cbn [lt Q_ops]. rewrite negb_true_iff. split.
  - intro H. apply Qnot_le_lt. intro Hle.
    apply Qle_bool_iff in Hle. congruence.
  - intro H. destruct (Qle_bool y x) eqn:E; [|reflexivity].
    apply Qle_bool_iff in E. lra.
Qed.

Lemma Q_lt_false (x y : Q) : lt qops x y = false <-> (y <= x)%Q.
Proof.
  cbn [lt Q_ops]. rewrite negb_false_iff. apply Qle_bool_iff.
Qed.

Lemma Q_lt_irrefl (x : Q) : lt qops x x = false.
Proof. apply Q_lt_false. lra. Qed.

(** Turns the outcomes of comparisons into inequalities. *)
Ltac Q_compare :=
  repeat match goal with
         | H : lt _ _ _ = true |- _ => apply Q_lt_true in H
         | H : lt _ _ _ = false |- _ => apply Q_lt_false in H
         end.

Lemma Q_clamp_eq (t t' : Q) :
  (t == t')%Q ->
  ((if lt qops t (zero qops) then zero qops else t)
   == (if lt qops t' (zero qops) then zero qops else t'))%Q.
Proof.
  intro H. cbn [zero Q_ops].
  destruct (lt qops t 0%Q) eqn:E; destruct (lt qops t' 0%Q) eqn:E';
    Q_compare; lra.
Qed.

Lemma Q_larger_eq (m m' t t' : Q) :
  (m == m')%Q -> (t == t')%Q -> (larger qops m t == larger qops m' t')%Q.
Proof.
  intros Hm Ht. unfold larger.
  destruct (lt qops m t) eqn:E; destruct (lt qops m' t') eqn:E';
    Q_compare; lra.
Qed.

Lemma Q_running_max_regroup (hs : list Q) (c : Q) :
  forall t t' m m' : Q,
  (t == t')%Q -> (m == m')%Q ->
  (fold_left (larger qops) (stepwise_totals qops t hs c) m
   == fold_left (larger qops) (net_inflow_totals qops t' hs c) m')%Q.
Proof.
  induction hs as [|h hs IH]; intros t t' m m' Ht Hm;
    cbn [stepwise_totals net_inflow_totals fold_left].
  - exact Hm.
  - cbv zeta. apply IH.
    + apply Q_clamp_eq. cbn [add sub Q_ops]. lra.
    + apply Q_larger_eq; [exact Hm|].
      apply Q_clamp_eq. cbn [add sub Q_ops]. lra.
Qed.

Lemma exact_capacity_spec (harvested : list Q) (dailyConsumption : Q) :
  (maxStorageNeeded (optimizeStorageCapacity qops harvested dailyConsumption)
   == running_max_net_inflow qops harvested dailyConsumption)%Q
  /\ overflow (optimizeStorageCapacity qops harvested dailyConsumption) = 0%Q.
Proof.
  destruct (optimize_fold_spec qops Q_lt_irrefl dailyConsumption harvested
              (tank_init qops) (Q_lt_irrefl 0%Q)) as (Hov & Hmax & _).
  unfold optimizeStorageCapacity, optimize_loop, running_max_net_inflow.
  cbn [maxStorageNeeded overflow]. split; [|exact Hov].
  rewrite Hmax. apply Q_running_max_regroup; reflexivity.
Qed.

End ExactCapacity.

(** C1 (as amended): for every harvested series and every daily
    consumption, the [maxStorageNeeded] the optimizer returns equals the
    running maximum, over all days, of the running total that takes each
    day's harvest in and then its consumption out, in that order, and is
    set to 0 whenever it goes negative.  In exact arithmetic that is the
    running maximum of the cumulative net inflow, harvest less
    consumption, floored at 0 each day. *)
Theorem capacity_is_running_max (toStr : N -> positive -> string)
    (harvested : list float) (dailyConsumption : float)
    (exactHarvested : list Q) (exactConsumption : Q) :
  maxStorageNeeded
    (optimizeStorageCapacity (float_ops toStr) harvested dailyConsumption)
  = running_max_stepwise (float_ops toStr) harvested dailyConsumption
  /\ (maxStorageNeeded
        (optimizeStorageCapacity (Q_ops toStr) exactHarvested exactConsumption)
      == running_max_net_inflow (Q_ops toStr) exactHarvested exactConsumption)%Q.
Proof.
  split.
  - unfold optimizeStorageCapacity. cbn [maxStorageNeeded].
    apply (float_optimize_spec toStr harvested dailyConsumption).
  - apply exact_capacity_spec.
Qed.

(** C1, as stated, fails on binary64 numbers, where the order of the two
    operations matters.  For a harvest of 1 on each of two days and a
    consumption of 0.1, the first day leaves 0.9 either way; the loop then
    computes [(0.9 + 1) - 0.1 = 1.7999999999999998], and the cumulative
    net inflow is [0.9 + (1 - 0.1) = 1.8].  (The numbers are written in
    hexadecimal: [0x1.999999999999ap-4] is 0.1.) *)
Lemma capacity_order_counterexample :
  (forall toStr : N -> positive -> string,
     let ops := float_ops toStr in
     maxStorageNeeded
       (optimizeStorageCapacity ops [1; 1]%float 0x1.999999999999ap-4%float)
     = 0x1.cccccccccccccp+0%float
     /\ running_max_net_inflow ops [1; 1]%float 0x1.999999999999ap-4%float
        = 0x1.ccccccccccccdp+0%float)
  /\ (0x1.cccccccccccccp+0 =? 0x1.ccccccccccccdp+0)%float = false.
Proof.
  split; [|reflexivity]. intro toStr. vm_compute. split; reflexivity.
Qed.

(** *** The harvested-water conversion *)

(** C5: for every rainfall series, roof area and runoff coefficient, the
    conversion returns a series of the same length whose element at every
    index [i] is [r[i] * A * c]; it is a total function, so no error is
    possible, whatever the area and the coefficient. *)
Theorem harvested_elementwise (toStr : N -> positive -> string)
    (this : RainwaterHarvester (T:=float)) (rainfallData : list float) :
  let harvested := calculateHarvestedWater (float_ops toStr) this rainfallData in
  List.length harvested = List.length rainfallData
  /\ forall i : nat,
       nth_error harvested i =
       option_map
         (fun r => (r * roofArea this * runoffCoefficient this)%float)
         (nth_error rainfallData i).
Proof.
  cbv zeta. unfold calculateHarvestedWater. split.
  - apply length_map.
  - intro i. rewrite nth_error_map. reflexivity.
Qed.

(** *** Finite binary64 numbers

    A product of two finite numbers, and the sum of a finite number and
    anything but NaN, is never NaN: rounding yields a finite number, a
    zero or an infinity. *)

Lemma shr_1_nonneg (mrs : shr_record) :
  (0 <= shr_m mrs)%Z -> (0 <= shr_m (shr_1 mrs))%Z.
Proof.
  destruct mrs as [m r s]. cbn [shr_m].
  destruct m as [|p|p]; [|destruct p|]; cbn; lia.
Qed.

Lemma iter_shr_1_nonneg (p : positive) :
  forall mrs : shr_record,
  (0 <= shr_m mrs)%Z -> (0 <= shr_m (SpecFloat.iter_pos shr_1 p mrs))%Z.
Proof.
  induction p as [p IH|p IH|]; intros mrs H; cbn [SpecFloat.iter_pos].
  - apply IH, IH, shr_1_nonneg, H.
  - apply IH, IH, H.
  - apply shr_1_nonneg, H.
Qed.

Lemma shr_fexp_nonneg (m e : Z) (l : location) :
  (0 <= m)%Z -> (0 <= shr_m (fst (shr_fexp prec emax m e l)))%Z.
Proof.
  intro Hm. unfold shr_fexp, shr.
  assert (H0 : (0 <= shr_m (shr_record_of_loc m l))%Z)
    by (destruct l as [|[ | | ]]; exact Hm).
  destruct (fexp prec emax (Zdigits2 m + e) - e)%Z; cbn [fst];
    try exact H0.
  apply iter_shr_1_nonneg, H0.
Qed.

Lemma round_nearest_even_nonneg (m : Z) (l : location) :
  (0 <= m)%Z -> (0 <= round_nearest_even m l)%Z.
Proof.
  intro Hm. destruct l as [|[ | | ]]; cbn [round_nearest_even];
    try destruct (Z.even m); lia.
Qed.

Lemma binary_round_aux_not_nan (s : bool) (m e : Z) (l : location) :
  (0 <= m)%Z -> binary_round_aux prec emax s m e l <> S754_nan.
Proof.
  intro Hm. unfold binary_round_aux.
  pose proof (shr_fexp_nonneg m e l Hm) as H1.
  destruct (shr_fexp prec emax m e l) as [mrs' e']. cbn [fst] in H1.
  pose proof (shr_fexp_nonneg _ e' loc_Exact
                (round_nearest_even_nonneg _ (loc_of_shr_record mrs') H1)) as H2.
  destruct (shr_fexp prec emax
              (round_nearest_even (shr_m mrs') (loc_of_shr_record mrs'))
              e' loc_Exact) as [mrs'' e''].
  cbn [fst] in H2.
  destruct (shr_m mrs'') as [|p|p]; [discriminate| |lia].
  destruct (e'' <=? emax - prec)%Z; discriminate.
Qed.

Lemma binary_normalize_not_nan (m e : Z) (szero : bool) :
  binary_normalize prec emax m e szero <> S754_nan.
Proof.
  unfold binary_normalize, binary_round.
  destruct m as [|p|p]; [discriminate| |];
    match goal with
    | |- context [shl_align ?a ?b ?c] => destruct (shl_align a b c) as [mz ez]
    end; apply binary_round_aux_not_nan; lia.
Qed.

(** A number is finite when it is a zero or has a mantissa. *)
Lemma float_is_finite (x : float) :
  is_finite x = true ->
  match Prim2SF x with
  | S754_zero _ | S754_finite _ _ _ => True
  | _ => False
  end.
Proof.
  unfold is_finite, is_nan, is_infinity.
  rewrite !FloatAxioms.eqb_spec, abs_spec.
  change (Prim2SF infinity) with (S754_infinity false).
  destruct (Prim2SF x) as [s|s| |s m e]; cbn; try discriminate; auto.
  destruct s; cbn; discriminate.
Qed.

Lemma float_is_nan (x : float) :
  is_nan x = false <-> Prim2SF x <> S754_nan.
Proof.
  unfold is_nan. rewrite FloatAxioms.eqb_spec, negb_false_iff. unfold SFeqb.
  destruct (Prim2SF x) as [s|s| |s m e]; cbn.
  - split; [discriminate|reflexivity].
  - destruct s; (split; [discriminate|reflexivity]).
  - split; [discriminate|congruence].
  - destruct s; rewrite Z.compare_refl, Pos.compare_cont_refl; cbn;
      (split; [discriminate|reflexivity]).
Qed.

Lemma float_finite_sample (mean stdDev z : float) :
  is_finite mean = true -> is_finite stdDev = true -> is_finite z = true ->
  is_nan (mean + stdDev * z)%float = false.
Proof.
  intros Hm Hs Hz. apply float_is_nan. rewrite add_spec, mul_spec.
  apply float_is_finite in Hm, Hs, Hz.
  destruct (Prim2SF mean) as [sm| | |sm mm em]; try contradiction;
  destruct (Prim2SF stdDev) as [ss| | |ss ms es]; try contradiction;
  destruct (Prim2SF z) as [sz| | |sz mz ez]; try contradiction;
    unfold SF64mul, SFmul.
  all: try (unfold SF64add, SFadd; destruct sm; destruct (xorb _ _); discriminate).
  all: try (unfold SF64add, SFadd; discriminate).
  all: try (unfold SF64add, SFadd; apply binary_normalize_not_nan).
  - pose proof (binary_round_aux_not_nan (xorb ss sz) (Z.pos (ms * mz))
                  (es + ez) loc_Exact ltac:(lia)) as H.
    destruct (binary_round_aux prec emax (xorb ss sz) (Z.pos (ms * mz))
                (es + ez) loc_Exact) as [s'|s'| |s' m' e']; try congruence;
      unfold SF64add, SFadd; try discriminate.
    destruct sm, s'; discriminate.
  - pose proof (binary_round_aux_not_nan (xorb ss sz) (Z.pos (ms * mz))
                  (es + ez) loc_Exact ltac:(lia)) as H.
    destruct (binary_round_aux prec emax (xorb ss sz) (Z.pos (ms * mz))
                (es + ez) loc_Exact) as [s'|s'| |s' m' e']; try congruence;
      unfold SF64add, SFadd; try discriminate.
    apply binary_normalize_not_nan.
Qed.

(** *** The rainfall generator *)

Lemma float_ltb_leb (a b : float) :
  (a <? b)%float = true -> (a <=? b)%float = true.
Proof.
  rewrite ltb_spec, leb_spec. unfold SFltb, SFleb.
  destruct (SFcompare (Prim2SF a) (Prim2SF b)) as [[ | | ]|]; congruence.
Qed.

Lemma float_nan_add (x : float) : (nan + x)%float = nan.
Proof.
  apply Prim2SF_inj. rewrite add_spec.
  change (Prim2SF nan) with S754_nan. reflexivity.
Qed.

Lemma float_add_nan (x : float) : (x + nan)%float = nan.
Proof.
  apply Prim2SF_inj. rewrite add_spec.
  change (Prim2SF nan) with S754_nan.
  destruct (Prim2SF x); reflexivity.
Qed.

(** Zero times an infinite or undefined product is NaN. *)
Lemma float_zero_mul_infinity_mul (c : float) :
  (0 * (infinity * c))%float = nan.
Proof.
  apply Prim2SF_inj. rewrite !mul_spec.
  change (Prim2SF 0) with (S754_zero false).
  change (Prim2SF infinity) with (S754_infinity false).
  change (Prim2SF nan) with S754_nan.
  destruct (Prim2SF c) as [s|s| |s m e]; reflexivity.
Qed.

(** [Math.max(0, s)] is NaN when [s] is, and at least 0 otherwise. *)
Lemma Math_max_zero (s : float) :
  if is_nan s then Math_max 0 s = nan
  else (0 <=? Math_max 0 s)%float = true.
Proof.
  unfold Math_max. change (is_nan 0) with false. cbn [orb].
  destruct (is_nan s); [reflexivity|].
  destruct (0 <? s)%float eqn:Hpos.
  - apply float_ltb_leb. exact Hpos.
  - destruct (s <? 0)%float; reflexivity.
Qed.

Section RainfallFacts.

Variable host : Host.
Variable draws : nat -> float.

Lemma rainfall_loop_spec (k : nat) (mean sd : float) (acc : list float)
    (pos : nat) :
  rainfall_loop host draws k mean sd acc pos =
    (acc ++ map (fun i => Math_max 0 (day_sample host draws mean sd pos i)) (seq 0 k),
     pos + 2 * k).
Proof.
  revert acc pos. induction k as [|k IH]; intros acc pos.
  - cbn [rainfall_loop seq map]. unfold ret. rewrite app_nil_r. f_equal. lia.
  - cbn [rainfall_loop]. unfold bind, Math_random. rewrite IH.
    f_equal; [|lia].
    rewrite <- app_assoc. f_equal. cbn [seq map app].
    f_equal.
    + unfold daily_rain, day_sample.
      replace (pos + 2 * 0) with pos by lia.
      replace (pos + 1) with (S pos) by lia. reflexivity.
    + rewrite <- seq_shift, map_map. apply map_ext. intro i.
      unfold day_sample.
      replace (S (S pos) + 2 * i) with (pos + 2 * S i) by lia.
      reflexivity.
Qed.

End RainfallFacts.

(** C3 (as amended): for every number of days, mean and deviation, and for
    all uniform draws, the generator returns a series of exactly [days]
    elements, each the day's sample [mean + stdDev * z] clipped by
    [Math.max(0, _)].  No element is negative.  An element is [>= 0]
    whenever its sample is a number, as it is whenever the mean, the
    deviation and the day's Box-Muller variate [z] are finite; it is NaN
    when the sample is NaN. *)
Theorem rainfall_length_and_clipping (host : Host) (draws : nat -> float)
    (days : nat) (meanRainfall stdDev : float) (pos : nat) :
  let series := fst (simulateRainfall host draws days meanRainfall stdDev pos) in
  List.length series = days
  /\ Forall2
       (fun i rain =>
          let z := box_muller host (draws (pos + 2 * i)) (draws (pos + 2 * i + 1)) in
          let s := (meanRainfall + stdDev * z)%float in
          rain = Math_max 0 s
          /\ (rain <? 0)%float = false
          /\ (if is_nan s then rain = nan else (0 <=? rain)%float = true)
          /\ (is_finite meanRainfall = true -> is_finite stdDev = true ->
              is_finite z = true -> (0 <=? rain)%float = true))
       (seq 0 days) series.
Proof.
  cbv zeta. unfold simulateRainfall. rewrite rainfall_loop_spec.
  cbn [fst app]. split.
  - rewrite length_map, length_seq. reflexivity.
  - induction (seq 0 days) as [|i l IH]; cbn [map]; constructor; [|exact IH].
    unfold day_sample.
    set (z := box_muller host (draws (pos + 2 * i)) (draws (pos + 2 * i + 1))).
    set (s := (meanRainfall + stdDev * z)%float).
    pose proof (Math_max_zero s) as H.
    pose proof (float_finite_sample meanRainfall stdDev z) as Hfin. fold s in Hfin.
    split; [reflexivity|].
    destruct (is_nan s).
    + split; [rewrite H; reflexivity|]. split; [exact H|].
      intros Hm Hs Hz. specialize (Hfin Hm Hs Hz). discriminate Hfin.
    + split; [|split; [exact H|intros _ _ _; exact H]].
      revert H. generalize (Math_max 0 s).
      intros x H. rewrite float_zero_leb in H. rewrite ltb_spec. unfold SFltb.
      change (Prim2SF 0) with (S754_zero false).
      destruct (Prim2SF x) as [sx|sx| |sx m e]; cbn in H |- *;
        try destruct sx; cbn in H |- *; congruence.
Qed.

(** C3, as stated, fails: with a NaN mean the one element of a one-day
    series is NaN, whatever the host and the draws, and so is not [>= 0]:
    the arguments are not validated. *)
Lemma rainfall_nonneg_counterexample :
  (forall (host : Host) (draws : nat -> float) (pos : nat),
     fst (simulateRainfall host draws 1 nan 2 pos) = [nan])
  /\ (0 <=? nan)%float = false.
Proof.
  split; [|reflexivity].
  intros host draws pos. unfold simulateRainfall.
  rewrite rainfall_loop_spec. cbn [fst app seq map]. unfold day_sample.
  rewrite float_nan_add. reflexivity.
Qed.

(** C4: nothing guards the Box-Muller transform against a uniform draw of
    exactly 0.  With both draws 0, on a host where [Math.log(0)] is
    [-Infinity] and [Math.cos(0)] is 1, as ECMAScript fixes them, the day's
    rainfall for [mean = 5] is [Infinity] with [stdDev = 2] and NaN with
    [stdDev = 0]. *)
Theorem zero_draw_not_guarded (host : Host) (draws : nat -> float)
    (pos : nat) :
  draws pos = 0%float ->
  draws (S pos) = 0%float ->
  Math_log host 0 = neg_infinity ->
  Math_cos host 0 = 1%float ->
  fst (simulateRainfall host draws 1 5 2 pos) = [infinity]
  /\ fst (simulateRainfall host draws 1 5 0 pos) = [nan].
Proof.
  intros Hu1 Hu2 Hlog Hcos. unfold simulateRainfall.
  rewrite !rainfall_loop_spec. cbn [fst app seq map].
  unfold day_sample, box_muller.
  replace (pos + 2 * 0) with pos by lia.
  replace (pos + 1) with (S pos) by lia.
  rewrite Hu1, Hu2, Hlog.
  change (sqrt (- 2 * neg_infinity)) with infinity.
  split.
  - change (2 * Math_PI * 0)%float with 0%float. rewrite Hcos. reflexivity.
  - rewrite float_zero_mul_infinity_mul, float_add_nan. reflexivity.
Qed.

(** The same on [edge_host], with every draw 0. *)
Lemma zero_draw_not_guarded_witness :
  fst (simulateRainfall edge_host (fun _ => 0%float) 1 5 2 0) = [infinity]
  /\ fst (simulateRainfall edge_host (fun _ => 0%float) 1 5 0 0) = [nan].
Proof.
  apply (zero_draw_not_guarded edge_host (fun _ => 0%float) 0);
    reflexivity.
Defined.

(** *** The weekly and monthly summaries *)

Section Periods.

Context {T : Type} (ops : NumberOps T).

Lemma index_toFixed1_some (a : list T) (i : nat) :
  i < List.length a ->
  index_toFixed1 ops a i = inr (JSString (toFixed1 ops (nth i a (zero ops)))).
Proof.
  intro Hi. unfold index_toFixed1.
  rewrite (nth_error_nth' a (zero ops) Hi). reflexivity.
Qed.

Lemma index_toFixed1_none (a : list T) (i : nat) :
  List.length a <= i -> index_toFixed1 ops a i = inl TypeError.
Proof.
  intro Hi. unfold index_toFixed1.
  apply nth_error_None in Hi. rewrite Hi. reflexivity.
Qed.

Lemma weekly_loop_ok (r h : list T) (k : nat) :
  forall (i : nat) (acc : list (Weekly.entry T)),
  i + k <= List.length r -> i + k <= List.length h ->
  weekly_loop ops k i r h acc = inr (acc ++ map (weekly_entry ops r h) (seq i k)).
Proof.
  induction k as [|k IH]; intros i acc Hr Hh; cbn [weekly_loop seq map].
  - rewrite app_nil_r. reflexivity.
  - rewrite !index_toFixed1_some by lia.
    rewrite IH by lia. rewrite <- app_assoc. reflexivity.
Qed.

Lemma weekly_loop_throws (r h : list T) (k : nat) :
  forall (i : nat) (acc : list (Weekly.entry T)),
  i <= List.length r -> i <= List.length h ->
  List.length r < i + k \/ List.length h < i + k ->
  weekly_loop ops k i r h acc = inl TypeError.
Proof.
  induction k as [|k IH]; intros i acc Hir Hih Hshort; cbn [weekly_loop].
  - lia.
  - destruct (Nat.lt_ge_cases i (List.length r)) as [Hr|Hr].
    + rewrite index_toFixed1_some by exact Hr.
      destruct (Nat.lt_ge_cases i (List.length h)) as [Hh|Hh].
      * rewrite index_toFixed1_some by exact Hh. apply IH; lia.
      * rewrite index_toFixed1_none by exact Hh. reflexivity.
    + rewrite index_toFixed1_none by exact Hr. reflexivity.
Qed.

Lemma monthly_loop_spec (r h : list T) (k : nat) :
  forall (i : nat) (acc : list (Monthly.entry T)),
  monthly_loop ops 30 k i r h acc = acc ++ map (monthly_entry ops r h) (seq i k).
Proof.
  induction k as [|k IH]; intros i acc; cbn [monthly_loop seq map].
  - rewrite app_nil_r. reflexivity.
  - cbv zeta. rewrite IH, <- app_assoc. cbn [app]. unfold Array_slice.
    replace (i * 30 + 30 - i * 30) with 30 by lia. reflexivity.
Qed.

Lemma getMonthlyData_spec (r h : list T) :
  getMonthlyData ops r h =
  map (monthly_entry ops r h) (seq 0 (List.length r / 30)).
Proof.
  unfold getMonthlyData. cbv zeta. apply monthly_loop_spec.
Qed.

(** A 30-day block that lies within the first [30 * k] days does not see
    the days after them. *)
Lemma block_of_firstn (l : list T) (k i : nat) :
  i < k ->
  firstn 30 (skipn (i * 30) (firstn (30 * k) l)) = firstn 30 (skipn (i * 30) l).
Proof.
  intro Hi. rewrite skipn_firstn_comm, firstn_firstn.
  replace (Nat.min 30 (30 * k - i * 30)) with 30 by lia. reflexivity.
Qed.

Lemma monthly_entry_of_firstn (r h : list T) (k i : nat) :
  i < k ->
  monthly_entry ops (firstn (30 * k) r) (firstn (30 * k) h) i = monthly_entry ops r h i.
Proof.
  intro Hi. unfold monthly_entry. rewrite !block_of_firstn by exact Hi.
  reflexivity.
Qed.

Lemma getMonthlyData_drops_tail (r h : list T) :
  let k := List.length r / 30 in
  getMonthlyData ops (firstn (30 * k) r) (firstn (30 * k) h)
  = getMonthlyData ops r h.
Proof.
  cbv zeta. rewrite !getMonthlyData_spec.
  set (k := List.length r / 30).
  assert (Hk : 30 * k <= List.length r)
    by (unfold k; apply Nat.Div0.mul_div_le).
  rewrite length_firstn, Nat.min_l by exact Hk.
  replace (30 * k / 30) with k by (rewrite Nat.mul_comm, Nat.div_mul; lia).
  apply map_ext_in. intros i Hi. apply in_seq in Hi.
  apply monthly_entry_of_firstn. lia.
Qed.

End Periods.

(** *** Sums of blocks of days *)

Section BlockSumFacts.

Context {T : Type} (ops : NumberOps T).

Lemma reduce_sum_snoc (a : list T) (x : T) :
  reduce_sum ops (a ++ [x]) = add ops (reduce_sum ops a) x.
Proof. unfold reduce_sum. rewrite fold_left_app. reflexivity. Qed.

Lemma sum_of_days_ext (a b : list T) (p q count : nat) :
  (forall j, j < count -> nth (p + j) a (zero ops) = nth (q + j) b (zero ops)) ->
  sum_of_days ops a p count = sum_of_days ops b q count.
Proof.
  induction count as [|c IH]; intro H; cbn [sum_of_days].
  - reflexivity.
  - rewrite IH by (intros j Hj; apply H; lia).
    rewrite (H c) by lia. reflexivity.
Qed.

(** [reduce] adds the values of an array in order, starting from 0. *)
Lemma reduce_sum_in_order (a : list T) :
  reduce_sum ops a = sum_of_days ops a 0 (List.length a).
Proof.
  induction a as [|x a IH] using rev_ind.
  - reflexivity.
  - rewrite reduce_sum_snoc, length_app. cbn [List.length].
    rewrite Nat.add_1_r. cbn [sum_of_days Nat.add].
    rewrite nth_middle, IH. f_equal.
    apply sum_of_days_ext. intros j Hj. cbn [Nat.add].
    symmetry. apply app_nth1. exact Hj.
Qed.

(** The sum [getMonthlyData] takes of a slice is the sum of the days of
    the block. *)
Lemma reduce_sum_block (a : list T) (offset : nat) :
  reduce_sum ops (firstn 30 (skipn offset a))
  = sum_of_days ops a offset (days_in_block a offset).
Proof.
  rewrite reduce_sum_in_order, length_firstn, length_skipn.
  fold (days_in_block a offset).
  apply sum_of_days_ext. intros j Hj. cbn [Nat.add].
  unfold days_in_block in Hj.
  rewrite nth_firstn.
  destruct (Nat.ltb_spec j 30) as [_|Hge]; [|lia].
  apply nth_skipn.
Qed.

Lemma days_in_full_block (a : list T) (i : nat) :
  i < List.length a / 30 -> days_in_block a (i * 30) = 30.
Proof.
  intro Hi. unfold days_in_block.
  pose proof (Nat.Div0.mul_div_le (List.length a) 30). nia.
Qed.

End BlockSumFacts.


(** Some renderings: a tie goes to the larger number of tenths, and a
    whole number keeps its fractional digit. *)
Example toFixed1_examples :
  forall toStr : N -> positive -> string,
  map (toFixed1 (float_ops toStr))
    [1.25; 5; 0.0625; 123.5; -0.5; -0; 0.03125; nan; neg_infinity]%float
  = ["1.3"; "5.0"; "0.1"; "123.5"; "-0.5"; "0.0"; "0.0"; "NaN"; "-Infinity"].
Proof. intro toStr. vm_compute. reflexivity. Qed.

(** C6 (as amended): for every pair of series of at least 7 elements, the
    weekly summary returns exactly 7 entries whose [day] fields are 1
    through 7 in order and whose [rainfall] and [harvestedWater] fields are
    strings: the [toFixed(1)] renderings, with one digit after the point,
    of the first 7 values of the respective series. *)
Theorem weekly_entries (toStr : N -> positive -> string)
    (rainfallData harvestedWater : list float) :
  7 <= List.length rainfallData ->
  7 <= List.length harvestedWater ->
  exists weeklyData : list (Weekly.entry float),
    getWeeklyData (float_ops toStr) rainfallData harvestedWater = inr weeklyData
    /\ List.length weeklyData = 7
    /\ map Weekly.day weeklyData = [1; 2; 3; 4; 5; 6; 7]
    /\ map Weekly.rainfall weeklyData =
         map (fun x => JSString (toFixed1 (float_ops toStr) x))
           (firstn 7 rainfallData)
    /\ map Weekly.harvestedWater weeklyData =
         map (fun x => JSString (toFixed1 (float_ops toStr) x))
           (firstn 7 harvestedWater).
Proof.
  intros Hr Hh.
  exists (map (weekly_entry (float_ops toStr) rainfallData harvestedWater) (seq 0 7)).
  split.
  - unfold getWeeklyData.
    rewrite (weekly_loop_ok (float_ops toStr) rainfallData harvestedWater 7 0 [])
      by (cbn; lia).
    reflexivity.
  - destruct rainfallData as [|r0 [|r1 [|r2 [|r3 [|r4 [|r5 [|r6 r]]]]]]];
      cbn [List.length] in Hr; try lia.
    destruct harvestedWater as [|h0 [|h1 [|h2 [|h3 [|h4 [|h5 [|h6 h]]]]]]];
      cbn [List.length] in Hh; try lia.
    repeat split.
Qed.

(** The summary of two series of eight days. *)
Lemma weekly_entries_witness :
  exists weeklyData : list (Weekly.entry float),
    getWeeklyData (float_ops (fun _ _ => ""))
      [1.25; 0; 2; 3.5; 0; 0; 10; 4]%float [100; 0; 160; 280; 0; 0; 800; 320]%float
    = inr weeklyData
    /\ List.length weeklyData = 7
    /\ map Weekly.day weeklyData = [1; 2; 3; 4; 5; 6; 7]
    /\ map Weekly.rainfall weeklyData =
         map (fun x => JSString (toFixed1 (float_ops (fun _ _ => "")) x))
           (firstn 7 [1.25; 0; 2; 3.5; 0; 0; 10; 4]%float)
    /\ map Weekly.harvestedWater weeklyData =
         map (fun x => JSString (toFixed1 (float_ops (fun _ _ => "")) x))
           (firstn 7 [100; 0; 160; 280; 0; 0; 800; 320]%float).
Proof.
  apply (weekly_entries (fun _ _ => "")); cbn; lia.
Defined.

(** C6, as stated, fails: the fields are not numbers.  For a first
    rainfall value of 1.25 the first entry's [rainfall] is the string
    ["1.3"], and its [harvestedWater], for 100, the string ["100.0"]. *)
Lemma weekly_fields_counterexample :
  (forall toStr : N -> positive -> string,
     getWeeklyData (float_ops toStr)
       [1.25; 0; 0; 0; 0; 0; 0]%float [100; 0; 0; 0; 0; 0; 0]%float
     = inr (map (fun i : nat =>
                   {| Weekly.day := i + 1;
                      Weekly.rainfall :=
                        JSString (if Nat.eqb i 0 then "1.3" else "0.0");
                      Weekly.harvestedWater :=
                        JSString (if Nat.eqb i 0 then "100.0" else "0.0") |})
              (seq 0 7)))
  /\ (forall (s : string) (x : float), JSString s <> JSNumber x).
Proof.
  split.
  - intro toStr. vm_compute. reflexivity.
  - intros s x H. discriminate H.
Qed.

(** C9: the weekly summary throws, and returns no result, exactly when
    one of the two series has fewer than 7 elements. *)
Theorem weekly_throws_iff_short (toStr : N -> positive -> string)
    (rainfallData harvestedWater : list float) :
  getWeeklyData (float_ops toStr) rainfallData harvestedWater = inl TypeError
  <-> (List.length rainfallData < 7 \/ List.length harvestedWater < 7).
Proof.
  unfold getWeeklyData. split.
  - intro Hthrow.
    destruct (Nat.lt_ge_cases (List.length rainfallData) 7) as [Hr|Hr];
      [left; exact Hr|].
    destruct (Nat.lt_ge_cases (List.length harvestedWater) 7) as [Hh|Hh];
      [right; exact Hh|].
    rewrite (weekly_loop_ok (float_ops toStr) rainfallData harvestedWater 7 0 [])
      in Hthrow by (cbn; lia).
    discriminate Hthrow.
  - intro Hshort. apply weekly_loop_throws; cbn; lia.
Qed.


(** *** Reading renderings back *)

Lemma split_point_digits (d : Decimal.uint) (rest : string) :
  split_point (NilEmpty.string_of_uint d ++ String "." rest)
  = Some (NilEmpty.string_of_uint d, rest).
Proof.
  induction d; cbn [NilEmpty.string_of_uint append split_point];
    try (rewrite IHd; reflexivity); reflexivity.
Qed.

Lemma digits_one_char (m : N) :
  (m < 10)%N -> String.length (digits m) = 1.
Proof.
  intro Hm. unfold digits.
  assert (H : (m = 0 \/ m = 1 \/ m = 2 \/ m = 3 \/ m = 4 \/ m = 5 \/ m = 6
               \/ m = 7 \/ m = 8 \/ m = 9)%N) by lia.
  repeat (destruct H as [-> | H]; [reflexivity|]). subst m. reflexivity.
Qed.

Lemma digits_read (n : N) :
  option_map N.of_uint (NilEmpty.uint_of_string (digits n)) = Some n.
Proof.
  unfold digits. rewrite NilEmpty.usu. cbn [option_map].
  rewrite DecimalN.Unsigned.of_to. reflexivity.
Qed.

Lemma unsigned_fixed_value_digits (n : N) :
  unsigned_fixed_value (digits (n / 10) ++ "." ++ digits (n mod 10))
  = Some (Qmake (Z.of_N n) 10).
Proof.
  unfold unsigned_fixed_value.
  change ("." ++ digits (n mod 10))%string with (String "." (digits (n mod 10))).
  unfold digits at 1. rewrite split_point_digits. fold (digits (n / 10)).
  pose proof (digits_read (n / 10)) as Ha.
  pose proof (digits_read (n mod 10)) as Hb.
  destruct (NilEmpty.uint_of_string (digits (n / 10))) as [ua|]; [|discriminate].
  destruct (NilEmpty.uint_of_string (digits (n mod 10))) as [ub|]; [|discriminate].
  cbn [option_map] in Ha, Hb. injection Ha as Ha. injection Hb as Hb.
  rewrite digits_one_char by (apply N.mod_lt; lia). cbn [Nat.eqb].
  rewrite Ha, Hb. do 2 f_equal.
  rewrite (N.div_mod n 10) at 3 by lia. lia.
Qed.

Lemma fixed_value_digits (n : N) :
  fixed_value (digits (n / 10) ++ "." ++ digits (n mod 10))
  = Some (Qmake (Z.of_N n) 10).
Proof.
  rewrite <- unsigned_fixed_value_digits. unfold fixed_value, digits.
  destruct (N.to_uint (n / 10)); reflexivity.
Qed.

(** *** Rounding to tenths *)

Lemma nearest_tenths_bounds (num : N) (den : positive) :
  let n := nearest_tenths num den in
  (2 * Npos den * n <= 20 * num + Npos den
   /\ 20 * num + Npos den < 2 * Npos den * (n + 1))%N.
Proof.
  cbv zeta. unfold nearest_tenths.
  set (a := (2 * 10 * num + N.pos den)%N). set (b := (2 * N.pos den)%N).
  assert (Hb : (b <> 0)%N) by (unfold b; lia).
  pose proof (N.Div0.mul_div_le a b) as Hlo.
  pose proof (N.mul_succ_div_gt a b Hb) as Hhi.
  unfold a, b in *. lia.
Qed.

(** The tenths lie within a twentieth of the number. *)
Lemma nearest_tenths_close (num : N) (den : positive) :
  let x := Qmake (Z.of_N num) den in
  let v := Qmake (Z.of_N (nearest_tenths num den)) 10 in
  (x - (1 # 20) < v /\ v <= x + (1 # 20))%Q.
Proof.
  cbv zeta. destruct (nearest_tenths_bounds num den) as [Hlo Hhi].
  cbv zeta in Hlo, Hhi.
  set (n := nearest_tenths num den) in *.
  unfold Qlt, Qle, Qminus, Qplus, Qopp. cbn [Qnum Qden].
  split; nia.
Qed.

(** What [toFixed(1)] writes for a finite number below [10^21] in
    magnitude reads back as the nearest number of tenths, and so as a
    number within a twentieth of the one written. *)
Lemma toFixed1_value {T : Type} (ops : NumberOps T) (x : T)
    (negative : bool) (num : N) (den : positive) :
  shape ops x = ShapeFinite negative num den ->
  (10 ^ 21 * Npos den <=? num)%N = false ->
  fixed_value (toFixed1 ops x) =
    Some (let v := Qmake (Z.of_N (nearest_tenths num den)) 10 in
          if negative then Qopp v else v).
Proof.
  intros Hshape Hsmall. unfold toFixed1. rewrite Hshape, Hsmall. cbv zeta.
  destruct negative.
  - change ("-" ++ ?s)%string with (String "-" s). cbn [fixed_value].
    rewrite unsigned_fixed_value_digits. reflexivity.
  - apply fixed_value_digits.
Qed.

Lemma toFixed1_rounds {T : Type} (ops : NumberOps T) (x : T)
    (negative : bool) (num : N) (den : positive) :
  shape ops x = ShapeFinite negative num den ->
  (10 ^ 21 * Npos den <=? num)%N = false ->
  exists v xv : Q,
    fixed_value (toFixed1 ops x) = Some v
    /\ shape_value (shape ops x) = Some xv
    /\ (xv - (1 # 20) <= v /\ v <= xv + (1 # 20))%Q.
Proof.
  intros Hshape Hsmall.
  rewrite (toFixed1_value ops x negative num den Hshape Hsmall), Hshape.
  cbn [shape_value]. cbv zeta.
  pose proof (nearest_tenths_close num den) as [Hlo Hhi].
  destruct negative; eexists; eexists; (split; [reflexivity|]);
    (split; [reflexivity|]); split; lra.
Qed.


(** ** Further properties of the simulation class *)

(** *** The generator and the random source *)

Lemma seq_from (a b : nat) : seq a b = map (fun i => a + i) (seq 0 b).
Proof.
  revert a. induction b as [|b IH]; intro a; cbn [seq map].
  - reflexivity.
  - f_equal; [lia|]. rewrite (IH (S a)), <- (seq_shift b 0), map_map.
    apply map_ext. intro i. lia.
Qed.

(** A run of [a + b] days is a run of [a] days followed by a run of [b]
    days that goes on reading the random source where the first stopped;
    a run of [a] days makes exactly [2 * a] calls of [Math.random]. *)
Theorem rainfall_runs_compose (host : Host) (draws : nat -> float)
    (a b : nat) (meanRainfall stdDev : float) (pos : nat) :
  let first := simulateRainfall host draws a meanRainfall stdDev pos in
  let second := simulateRainfall host draws b meanRainfall stdDev (snd first) in
  snd first = pos + 2 * a
  /\ simulateRainfall host draws (a + b) meanRainfall stdDev pos
     = (fst first ++ fst second, snd second).
Proof.
  cbv zeta. unfold simulateRainfall. rewrite !rainfall_loop_spec.
  cbn [fst snd app]. split; [reflexivity|].
  f_equal; [|lia].
  rewrite seq_app, map_app. f_equal.
  change (0 + a) with a. rewrite (seq_from a b), map_map.
  apply map_ext. intro i. unfold day_sample.
  replace (pos + 2 * a + 2 * i) with (pos + 2 * (a + i)) by lia.
  reflexivity.
Qed.

(** The series depends on the random source only through the [2 * days]
    draws the run reads. *)
Theorem rainfall_reads_its_window (host : Host) (draws draws' : nat -> float)
    (days : nat) (meanRainfall stdDev : float) (pos : nat) :
  (forall i : nat, pos <= i < pos + 2 * days -> draws i = draws' i) ->
  simulateRainfall host draws days meanRainfall stdDev pos
  = simulateRainfall host draws' days meanRainfall stdDev pos.
Proof.
  intro Hsame. unfold simulateRainfall. rewrite !rainfall_loop_spec.
  f_equal. cbn [app]. apply map_ext_in. intros i Hi. apply in_seq in Hi.
  unfold day_sample. rewrite !Hsame by lia. reflexivity.
Qed.

(** Two sources that agree on the first four draws, for two days. *)
Lemma rainfall_reads_its_window_witness :
  simulateRainfall edge_host (fun i => if Nat.ltb i 4 then 0.5%float else 0%float)
    2 5 2 0
  = simulateRainfall edge_host (fun _ => 0.5%float) 2 5 2 0.
Proof.
  apply (rainfall_reads_its_window edge_host
           (fun i => if Nat.ltb i 4 then 0.5%float else 0%float)
           (fun _ => 0.5%float) 2 5 2 0).
  intros i Hi. destruct (Nat.ltb_spec i 4) as [_|Hge]; [reflexivity|lia].
Defined.

(** *** Harvested volumes are not negative *)

Lemma float_ltb_zero (x : float) :
  (x <? 0)%float = SF_negative (Prim2SF x).
Proof.
  rewrite ltb_spec. unfold SFltb.
  change (Prim2SF 0) with (S754_zero false).
  destruct (Prim2SF x) as [s|s| |s m e]; cbn; try reflexivity;
    destruct s; reflexivity.
Qed.

(** Rounding keeps the sign it is given. *)
Lemma binary_round_aux_sign (s : bool) (m e : Z) (l : location) :
  (0 <= m)%Z ->
  SF_negative (binary_round_aux prec emax s m e l) = true -> s = true.
Proof.
  intro Hm. unfold binary_round_aux.
  destruct (shr_fexp prec emax m e l) as [mrs' e'].
  destruct (shr_fexp prec emax
              (round_nearest_even (shr_m mrs') (loc_of_shr_record mrs'))
              e' loc_Exact) as [mrs'' e''].
  destruct (shr_m mrs'') as [|p|p]; cbn [SF_negative]; try discriminate.
  destruct (e'' <=? emax - prec)%Z; cbn [SF_negative]; auto.
Qed.

Lemma float_mul_not_negative (a b : float) :
  (a <? 0)%float = false -> (0 <=? b)%float = true ->
  (a * b <? 0)%float = false.
Proof.
  rewrite !float_ltb_zero, float_zero_leb, mul_spec.
  destruct (Prim2SF a) as [sa|sa| |sa ma ea];
    destruct (Prim2SF b) as [sb|sb| |sb mb eb]; cbn;
    try discriminate; try reflexivity; intros Ha Hb;
    try (rewrite Ha; cbn);
    try (apply negb_true_iff in Hb; rewrite Hb; cbn);
    try reflexivity.
  destruct (SF_negative
              (binary_round_aux prec emax false (Z.pos (ma * mb)) (ea + eb)
                 loc_Exact)) eqn:E; [|reflexivity].
  apply binary_round_aux_sign in E; [discriminate|lia].
Qed.

(** For a roof area and a runoff coefficient that are not below zero, a
    rainfall series without a negative element gives a harvested series
    without a negative element (NaN and infinite elements included: they
    give NaN or infinite volumes, never negative ones). *)
Theorem harvested_not_negative (toStr : N -> positive -> string)
    (this : RainwaterHarvester (T:=float)) (rainfallData : list float) :
  (0 <=? roofArea this)%float = true ->
  (0 <=? runoffCoefficient this)%float = true ->
  Forall (fun r => (r <? 0)%float = false) rainfallData ->
  Forall (fun h => (h <? 0)%float = false)
    (calculateHarvestedWater (float_ops toStr) this rainfallData).
Proof.
  intros HA Hc Hr. unfold calculateHarvestedWater.
  induction Hr as [|r l Hr0 Hl IH]; cbn [map]; constructor; [|exact IH].
  cbn [mul float_ops].
  apply float_mul_not_negative; [|exact Hc].
  apply float_mul_not_negative; [exact Hr0|exact HA].
Qed.

Lemma harvested_not_negative_witness :
  Forall (fun h => (h <? 0)%float = false)
    (calculateHarvestedWater (float_ops (fun _ _ => ""))
       (constructor 120 None) [0; 2.5; nan; infinity]%float).
Proof.
  apply (harvested_not_negative (fun _ _ => "") (constructor 120 None)
           [0; 2.5; nan; infinity]%float);
    [reflexivity | reflexivity | repeat constructor].
Defined.

Lemma Math_max_zero_not_negative (s : float) :
  (Math_max 0 s <? 0)%float = false.
Proof.
  pose proof (Math_max_zero s) as H. destruct (is_nan s).
  - rewrite H. reflexivity.
  - rewrite float_zero_leb in H. rewrite float_ltb_zero.
    destruct (Prim2SF (Math_max 0 s)) as [sx|sx| |sx m e]; cbn in H |- *;
      try reflexivity; apply negb_true_iff in H; exact H.
Qed.

Lemma rainfall_not_negative (host : Host) (draws : nat -> float)
    (days : nat) (meanRainfall stdDev : float) (pos : nat) :
  Forall (fun r => (r <? 0)%float = false)
    (fst (simulateRainfall host draws days meanRainfall stdDev pos)).
Proof.
  unfold simulateRainfall. rewrite rainfall_loop_spec. cbn [fst app].
  apply Forall_forall. intros r Hr. apply in_map_iff in Hr.
  destruct Hr as (i & <- & _). apply Math_max_zero_not_negative.
Qed.

(** Generating a year and converting it: with a roof area and a runoff
    coefficient that are not below zero, no harvested volume is negative,
    whatever the mean, the deviation, the host and the draws. *)
Theorem generated_harvest_not_negative (toStr : N -> positive -> string)
    (host : Host) (draws : nat -> float) (days : nat)
    (meanRainfall stdDev : float) (pos : nat)
    (this : RainwaterHarvester (T:=float)) :
  (0 <=? roofArea this)%float = true ->
  (0 <=? runoffCoefficient this)%float = true ->
  Forall (fun h => (h <? 0)%float = false)
    (calculateHarvestedWater (float_ops toStr) this
       (fst (simulateRainfall host draws days meanRainfall stdDev pos))).
Proof.
  intros HA Hc. unfold calculateHarvestedWater.
  pose proof (rainfall_not_negative host draws days meanRainfall stdDev pos) as Hr.
  induction Hr as [|r l Hr0 Hl IH]; cbn [map]; constructor; [|exact IH].
  cbn [mul float_ops].
  apply float_mul_not_negative; [|exact Hc].
  apply float_mul_not_negative; [exact Hr0|exact HA].
Qed.

Lemma generated_harvest_not_negative_witness :
  Forall (fun h => (h <? 0)%float = false)
    (calculateHarvestedWater (float_ops (fun _ _ => "")) (constructor 120 None)
       (fst (simulateRainfall edge_host (fun _ => 0%float) 3 5 2 0))).
Proof.
  apply (generated_harvest_not_negative (fun _ _ => "") edge_host
           (fun _ => 0%float) 3 5 2 0 (constructor 120 None));
    reflexivity.
Defined.

(** *** NaN in the storage loop *)

Lemma float_nan_sub (x : float) : (nan - x)%float = nan.
Proof.
  apply Prim2SF_inj. rewrite sub_spec.
  change (Prim2SF nan) with S754_nan. reflexivity.
Qed.

Lemma float_sub_nan (x : float) : (x - nan)%float = nan.
Proof.
  apply Prim2SF_inj. rewrite sub_spec.
  change (Prim2SF nan) with S754_nan.
  destruct (Prim2SF x); reflexivity.
Qed.

Lemma float_ltb_nan (x : float) : (x <? nan)%float = false.
Proof.
  rewrite ltb_spec. change (Prim2SF nan) with S754_nan.
  unfold SFltb. destruct (Prim2SF x); reflexivity.
Qed.

Section NaNTotals.

Variable toStr : N -> positive -> string.

#[local] Abbreviation fops := (float_ops toStr).

(** Once the running total is NaN, a day changes nothing else. *)
Lemma optimize_day_nan (c h : float) (st : TankState) :
  currentStorage st = nan ->
  optimize_day fops c st h = st.
Proof.
  intro Hnan. destruct st as [cs mx ov]. cbn [currentStorage] in Hnan. subst cs.
  unfold optimize_day, spill, exceeds_capacity, raise_capacity, take_in_out.
  cbn [currentStorage maxStorageNeeded_ overflow_ add sub lt zero float_ops].
  rewrite float_nan_add, float_nan_sub.
  change (nan <? 0)%float with false. rewrite float_ltb_nan.
  cbn [currentStorage maxStorageNeeded_ overflow_].
  rewrite float_ltb_nan. reflexivity.
Qed.

Lemma optimize_fold_nan (c : float) (hs : list float) (st : TankState) :
  currentStorage st = nan ->
  fold_left (optimize_day fops c) hs st = st.
Proof.
  intro Hnan. induction hs as [|h hs IH]; cbn [fold_left].
  - reflexivity.
  - rewrite optimize_day_nan by exact Hnan. exact IH.
Qed.

(** The day on which the total becomes NaN leaves the capacity and the
    overflow as they were. *)
Lemma optimize_day_to_nan (c h : float) (st : TankState) :
  (currentStorage st + h - c)%float = nan ->
  optimize_day fops c st h =
    {| currentStorage := nan;
       maxStorageNeeded_ := maxStorageNeeded_ st;
       overflow_ := overflow_ st |}.
Proof.
  intro Hnan.
  unfold optimize_day, spill, exceeds_capacity, raise_capacity, take_in_out.
  cbn [currentStorage maxStorageNeeded_ overflow_ add sub lt zero float_ops].
  rewrite Hnan. change (nan <? 0)%float with false. rewrite float_ltb_nan.
  cbn [currentStorage maxStorageNeeded_ overflow_].
  rewrite float_ltb_nan. reflexivity.
Qed.

End NaNTotals.

(** A NaN in the harvested series stops the capacity from growing: the
    result is the result for the days before it, whatever comes after.
    With a NaN consumption the capacity is 0 for every series. *)
Theorem nan_freezes_capacity (toStr : N -> positive -> string)
    (before after harvested : list float) (dailyConsumption : float) :
  optimizeStorageCapacity (float_ops toStr) (before ++ nan :: after)
    dailyConsumption
  = optimizeStorageCapacity (float_ops toStr) before dailyConsumption
  /\ optimizeStorageCapacity (float_ops toStr) harvested nan
     = {| maxStorageNeeded := 0%float; overflow := 0%float |}.
Proof.
  split.
  - unfold optimizeStorageCapacity, optimize_loop.
    rewrite fold_left_app. cbn [fold_left].
    rewrite optimize_day_to_nan
      by (rewrite float_add_nan; apply float_nan_sub).
    rewrite optimize_fold_nan by reflexivity. reflexivity.
  - unfold optimizeStorageCapacity, optimize_loop.
    destruct harvested as [|h hs]; [reflexivity|].
    cbn [fold_left].
    rewrite optimize_day_to_nan by apply float_sub_nan.
    rewrite optimize_fold_nan by reflexivity. reflexivity.
Qed.

(** *** The summaries *)

Section MorePeriods.

Context {T : Type} (ops : NumberOps T).

Lemma index_toFixed1_firstn (a : list T) (n i : nat) :
  i < n -> index_toFixed1 ops (firstn n a) i = index_toFixed1 ops a i.
Proof.
  intro Hi. unfold index_toFixed1. rewrite nth_error_firstn.
  destruct (Nat.ltb_spec i n) as [_|Hge]; [reflexivity|lia].
Qed.

Lemma weekly_loop_firstn (r h : list T) (n k : nat) :
  forall (i : nat) (acc : list (Weekly.entry T)),
  i + k <= n ->
  weekly_loop ops k i (firstn n r) (firstn n h) acc
  = weekly_loop ops k i r h acc.
Proof.
  induction k as [|k IH]; intros i acc Hik; cbn [weekly_loop].
  - reflexivity.
  - rewrite !index_toFixed1_firstn by lia.
    destruct (index_toFixed1 ops r i) as [e|vr]; [reflexivity|].
    destruct (index_toFixed1 ops h i) as [e|vh]; [reflexivity|].
    apply IH. lia.
Qed.

End MorePeriods.

(** The weekly summary looks at the first 7 elements of each series and
    at nothing else: cutting both series after the 7th element changes
    neither the entries nor whether it throws. *)
Theorem weekly_ignores_later_days (toStr : N -> positive -> string)
    (rainfallData harvestedWater : list float) :
  getWeeklyData (float_ops toStr) (firstn 7 rainfallData) (firstn 7 harvestedWater)
  = getWeeklyData (float_ops toStr) rainfallData harvestedWater.
Proof.
  unfold getWeeklyData. apply weekly_loop_firstn. lia.
Qed.

Lemma float_rendering_close (toStr : N -> positive -> string) (x : float) :
  below_1e21 x = true ->
  reads_back_close (float_ops toStr) x
    (JSString (toFixed1 (float_ops toStr) x)).
Proof.
  unfold below_1e21, reads_back_close. cbn [value_of shape float_ops].
  intro Hsmall.
  destruct (float_shape x) as [ |s|neg num den] eqn:Hshape; try discriminate.
  apply negb_true_iff in Hsmall.
  destruct (toFixed1_rounds (float_ops toStr) x neg num den Hshape Hsmall)
    as (v & xv & Hv & Hxv & Hclose).
  exists v, xv. cbn [shape float_ops] in Hxv. rewrite Hshape in Hxv.
  split; [exact Hv|]. split; [exact Hxv|exact Hclose].
Qed.

(** Reading a weekly entry back gives the day's value to within 0.05:
    for series of at least 7 elements whose first 7 values are finite and
    below [10^21] in magnitude, each [rainfall] and [harvestedWater] string
    denotes a number at most 0.05 away from the value it renders. *)
Theorem weekly_values_close (toStr : N -> positive -> string)
    (rainfallData harvestedWater : list float) :
  7 <= List.length rainfallData ->
  7 <= List.length harvestedWater ->
  Forall (fun x => below_1e21 x = true) (firstn 7 rainfallData) ->
  Forall (fun x => below_1e21 x = true) (firstn 7 harvestedWater) ->
  exists weeklyData : list (Weekly.entry float),
    getWeeklyData (float_ops toStr) rainfallData harvestedWater = inr weeklyData
    /\ Forall2 (fun x e => reads_back_close (float_ops toStr) x (Weekly.rainfall e))
         (firstn 7 rainfallData) weeklyData
    /\ Forall2 (fun x e => reads_back_close (float_ops toStr) x (Weekly.harvestedWater e))
         (firstn 7 harvestedWater) weeklyData.
Proof.
  intros Hr Hh Hsr Hsh.
  exists (map (weekly_entry (float_ops toStr) rainfallData harvestedWater) (seq 0 7)).
  split.
  - unfold getWeeklyData.
    rewrite (weekly_loop_ok (float_ops toStr) rainfallData harvestedWater 7 0 [])
      by (cbn; lia).
    reflexivity.
  - destruct rainfallData as [|r0 [|r1 [|r2 [|r3 [|r4 [|r5 [|r6 r]]]]]]];
      cbn [List.length] in Hr; try lia.
    destruct harvestedWater as [|h0 [|h1 [|h2 [|h3 [|h4 [|h5 [|h6 h]]]]]]];
      cbn [List.length] in Hh; try lia.
    cbn [firstn] in Hsr, Hsh |- *.
    cbn [seq map weekly_entry nth Nat.add].
    split.
    + repeat match goal with
             | H : Forall _ (_ :: _) |- _ => inversion_clear H
             end.
      repeat constructor; cbn [Weekly.rainfall];
        apply float_rendering_close; assumption.
    + repeat match goal with
             | H : Forall _ (_ :: _) |- _ => inversion_clear H
             end.
      repeat constructor; cbn [Weekly.harvestedWater];
        apply float_rendering_close; assumption.
Qed.

Lemma weekly_values_close_witness :
  exists weeklyData : list (Weekly.entry float),
    getWeeklyData (float_ops (fun _ _ => ""))
      [1.25; 0; 2; 3.5; 0; 0; 10; 4]%float
      [100; 0; 160; 280; 0; 0; 800; 320]%float = inr weeklyData
    /\ Forall2 (fun x e => reads_back_close (float_ops (fun _ _ => "")) x (Weekly.rainfall e))
         (firstn 7 [1.25; 0; 2; 3.5; 0; 0; 10; 4]%float) weeklyData
    /\ Forall2 (fun x e => reads_back_close (float_ops (fun _ _ => "")) x (Weekly.harvestedWater e))
         (firstn 7 [100; 0; 160; 280; 0; 0; 800; 320]%float) weeklyData.
Proof.
  apply (weekly_values_close (fun _ _ => "")
           [1.25; 0; 2; 3.5; 0; 0; 10; 4]%float
           [100; 0; 160; 280; 0; 0; 800; 320]%float);
    [cbn; lia | cbn; lia | | ];
    cbn [firstn]; repeat constructor.
Defined.

(** Where the weekly summary throws, the monthly one does not: a block
    that starts at or after the end of the harvested series sums to 0, and
    the entry's [harvestedWater] is ["0.0"]. *)
Theorem monthly_missing_harvest_is_zero (toStr : N -> positive -> string)
    (rainfallData harvestedWater : list float) (i : nat) :
  i < List.length rainfallData / 30 ->
  List.length harvestedWater <= i * 30 ->
  option_map Monthly.harvestedWater
    (nth_error (getMonthlyData (float_ops toStr) rainfallData harvestedWater) i)
  = Some (JSString "0.0").
Proof.
  intros Hi Hshort. rewrite getMonthlyData_spec.
  rewrite nth_error_map, (nth_error_nth' _ 0) by (rewrite length_seq; exact Hi).
  rewrite seq_nth by exact Hi. cbn [option_map Nat.add monthly_entry Monthly.harvestedWater].
  rewrite skipn_all2 by exact Hshort. reflexivity.
Qed.

Lemma monthly_missing_harvest_is_zero_witness :
  option_map Monthly.harvestedWater
    (nth_error (getMonthlyData (float_ops (fun _ _ => ""))
                  (repeat 1%float 60) (repeat 96%float 30)) 1)
  = Some (JSString "0.0").
Proof.
  apply (monthly_missing_harvest_is_zero (fun _ _ => "")
           (repeat 1%float 60) (repeat 96%float 30) 1).
  - vm_compute. lia.
  - vm_compute. lia.
Defined.

(** *** The monthly entries *)

(** C7 (as amended): for every pair of series, with [n] the length of the
    rainfall series, the monthly summary returns exactly [n / 30] entries
    whose [month] fields are 1 to [n / 30] in order.  The [rainfall] and
    [harvestedWater] fields of entry [i] are strings, not numbers: the
    [toFixed(1)] renderings of the binary64 sums, added from 0 in the
    order of the days, of the 30-day blocks of the two series that start
    at offset [(i - 1) * 30] (of the days the harvested series has in the
    block, where it is the shorter one).  Each string reads back as a
    number within 0.05 of the sum it renders, for sums that are finite and
    below [10^21].  The [n mod 30] days after the last block are in no
    entry: the summary of the first [30 * (n / 30)] days alone is the
    same.  A series of 365 days has 12 entries. *)
Theorem monthly_entries (toStr : N -> positive -> string)
    (rainfallData harvestedWater : list float) :
  let ops := float_ops toStr in
  let k := List.length rainfallData / 30 in
  let monthlyData := getMonthlyData ops rainfallData harvestedWater in
  let rain := fun i => sum_of_days ops rainfallData (i * 30) 30 in
  let harvest := fun i => sum_of_days ops harvestedWater (i * 30)
                            (days_in_block harvestedWater (i * 30)) in
  List.length monthlyData = k
  /\ map Monthly.month monthlyData = seq 1 k
  /\ map Monthly.rainfall monthlyData =
       map (fun i => JSString (toFixed1 ops (rain i))) (seq 0 k)
  /\ map Monthly.harvestedWater monthlyData =
       map (fun i => JSString (toFixed1 ops (harvest i))) (seq 0 k)
  /\ (List.length harvestedWater = List.length rainfallData ->
      map Monthly.harvestedWater monthlyData =
        map (fun i => JSString (toFixed1 ops
                        (sum_of_days ops harvestedWater (i * 30) 30)))
          (seq 0 k))
  /\ (forall (i : nat) (e : Monthly.entry float),
        nth_error monthlyData i = Some e ->
        (below_1e21 (rain i) = true ->
         reads_back_close ops (rain i) (Monthly.rainfall e))
        /\ (below_1e21 (harvest i) = true ->
            reads_back_close ops (harvest i) (Monthly.harvestedWater e)))
  /\ getMonthlyData ops (firstn (30 * k) rainfallData) (firstn (30 * k) harvestedWater)
     = monthlyData
  /\ (List.length rainfallData = 365 -> List.length monthlyData = 12).
Proof.
  cbv zeta. pose proof (getMonthlyData_drops_tail (float_ops toStr)
                          rainfallData harvestedWater) as Htail.
  cbv zeta in Htail. rewrite Htail.
  rewrite getMonthlyData_spec.
  set (k := List.length rainfallData / 30).
  assert (Hrain : forall i, i < k ->
            reduce_sum (float_ops toStr) (firstn 30 (skipn (i * 30) rainfallData))
            = sum_of_days (float_ops toStr) rainfallData (i * 30) 30).
  { intros i Hi. rewrite reduce_sum_block, days_in_full_block by exact Hi.
    reflexivity. }
  split; [rewrite length_map, length_seq; reflexivity|].
  split.
  { rewrite map_map. cbn [Monthly.month monthly_entry].
    rewrite <- seq_shift. apply map_ext. intro i. lia. }
  split.
  { rewrite map_map. apply map_ext_in. intros i Hi. apply in_seq in Hi.
    cbn [Monthly.rainfall monthly_entry]. rewrite Hrain by lia.
    reflexivity. }
  split.
  { rewrite map_map. apply map_ext. intro i.
    cbn [Monthly.harvestedWater monthly_entry].
    rewrite reduce_sum_block. reflexivity. }
  split.
  { intro Hsame. rewrite map_map. apply map_ext_in. intros i Hi.
    apply in_seq in Hi. cbn [Monthly.harvestedWater monthly_entry].
    rewrite reduce_sum_block, days_in_full_block
      by (rewrite Hsame; fold k; lia).
    reflexivity. }
  split.
  { intros i e He.
    assert (Hi : i < k).
    { assert (Hsome : nth_error
                        (map (monthly_entry (float_ops toStr) rainfallData
                                harvestedWater) (seq 0 k)) i <> None)
        by (rewrite He; discriminate).
      apply nth_error_Some in Hsome.
      rewrite length_map, length_seq in Hsome. exact Hsome. }
    rewrite nth_error_map, (nth_error_nth' _ 0) in He
      by (rewrite length_seq; exact Hi).
    rewrite seq_nth in He by exact Hi. cbn [option_map Nat.add] in He.
    injection He as He. subst e.
    cbn [Monthly.rainfall Monthly.harvestedWater monthly_entry].
    rewrite Hrain by exact Hi. rewrite reduce_sum_block.
    split; apply float_rendering_close. }
  split; [reflexivity|].
  intro H365. rewrite length_map, length_seq. unfold k. rewrite H365.
  reflexivity.
Qed.

(** The summary of two series of 31 days. *)
Lemma monthly_entries_witness :
  let ops := float_ops (fun _ _ => "") in
  let r := (1.25 :: 1 :: repeat 0 29)%float in
  let h := (100 :: 80 :: repeat 0 29)%float in
  List.length (getMonthlyData ops r h) = 1
  /\ map Monthly.month (getMonthlyData ops r h) = [1]
  /\ map Monthly.rainfall (getMonthlyData ops r h) = [JSString "2.3"]
  /\ map Monthly.harvestedWater (getMonthlyData ops r h) = [JSString "180.0"]
  /\ reads_back_close ops 2.25%float (JSString "2.3")
  /\ getMonthlyData ops (firstn 30 r) (firstn 30 h) = getMonthlyData ops r h.
Proof.
  intros ops r h.
  destruct (monthly_entries (fun _ _ => "") r h)
    as (Hlen & Hmonth & Hrain & _ & Hharvest & Hclose & Htail & _).
  split; [exact Hlen|]. split; [exact Hmonth|]. split; [exact Hrain|].
  split; [exact (Hharvest eq_refl)|]. split; [|exact Htail].
  exact (proj1 (Hclose 0 _ eq_refl) eq_refl).
Defined.

(** C7, as stated, fails: the fields are not numbers.  For a 30-day series
    that starts with 1.25 and 1 the one entry's [rainfall] is the string
    ["2.3"], and its [harvestedWater], for 100 and 80, the string
    ["180.0"]. *)
Lemma monthly_fields_counterexample :
  (forall toStr : N -> positive -> string,
     getMonthlyData (float_ops toStr)
       (1.25 :: 1 :: repeat 0 28)%float (100 :: 80 :: repeat 0 28)%float
     = [ {| Monthly.month := 1;
            Monthly.rainfall := JSString "2.3";
            Monthly.harvestedWater := JSString "180.0" |} ])
  /\ (forall (s : string) (x : float), JSString s <> JSNumber x).
Proof.
  split.
  - intro toStr. vm_compute. reflexivity.
  - intros s x H. discriminate H.
Qed.


(** ** Properties of the calculator *)

(** *** Comparisons with a constant *)

Lemma SFcompare_antisym (a b : spec_float) :
  SFcompare b a = option_map CompOpp (SFcompare a b).
Proof.
  destruct a as [sa|sa| |sa ma ea]; destruct b as [sb|sb| |sb mb eb];
    cbn; try reflexivity;
    try (destruct sa; reflexivity); try (destruct sb; reflexivity);
    try (destruct sa, sb; reflexivity).
  assert (Hm : Pos.compare_cont Eq mb ma = CompOpp (Pos.compare_cont Eq ma mb))
    by (rewrite Pos.compare_cont_antisym; reflexivity).
  rewrite (Z.compare_antisym ea eb), Hm.
  destruct sa, sb; cbn; try reflexivity;
    destruct (ea ?= eb)%Z; cbn; try reflexivity;
    destruct (Pos.compare_cont Eq ma mb); reflexivity.
Qed.

(** For a number, not being above a bound is being at most the bound. *)
Lemma float_not_above (v b : float) :
  is_nan v = false -> is_nan b = false ->
  (b <? v)%float = negb (v <=? b)%float.
Proof.
  intros Hv Hb. apply float_is_nan in Hv, Hb.
  rewrite ltb_spec, leb_spec. unfold SFltb, SFleb.
  rewrite (SFcompare_antisym (Prim2SF v) (Prim2SF b)).
  destruct (SFcompare (Prim2SF v) (Prim2SF b)) as [[ | | ]|] eqn:E;
    try reflexivity.
  destruct (Prim2SF v) as [sv|sv| |sv mv ev];
    destruct (Prim2SF b) as [sb|sb| |sb mb eb]; cbn in E;
    try discriminate; congruence.
Qed.

(** How a number that is neither zero nor NaN compares with zero. *)
Lemma float_sign_cases (v : float) :
  falsy v || is_nan v = false ->
  (v <=? 0)%float = (v <? 0)%float
  /\ (0 <? v)%float = negb (v <? 0)%float.
Proof.
  unfold falsy, is_zero, is_nan.
  rewrite !FloatAxioms.eqb_spec, leb_spec, !ltb_spec.
  change (Prim2SF PrimFloat.zero) with (S754_zero false).
  change (Prim2SF 0) with (S754_zero false).
  unfold SFeqb, SFleb, SFltb.
  destruct (Prim2SF v) as [s|s| |s m e]; cbn; try discriminate;
    destruct s; cbn; intros _; split; reflexivity.
Qed.

Lemma float_zero_or_nan (v : float) :
  falsy v || is_nan v = is_nan v || is_zero v.
Proof.
  unfold falsy. destruct (is_zero v), (is_nan v); reflexivity.
Qed.

(** *** Validation *)

(** [validateStep] on one of the five input steps never throws.  It
    rejects NaN and zero as not a valid number, a negative value as not
    greater than 0, and, for the runoff coefficient only, a value above 1
    as out of range: the [value < 0] half of the range test is never true
    there.  It accepts exactly the values above 0, up to 1 for the
    coefficient, and then leaves the state as it is. *)
Theorem validateStep_outcome (parseFloat : string -> float) (st : AppState)
    (name : Field) (label : string) :
  step_input (step st) = Some (name, label) ->
  let v := parseFloat (inputs st name) in
  validateStep parseFloat st
  = inr (if is_nan v || is_zero v then
           (false, setError st ("Please enter a valid number for " ++ label))
         else if (v <? 0)%float then
           (false, setError st (label ++ " must be greater than 0"))
         else if Field_eqb name F_runoffCoeff && (1 <? v)%float then
           (false, setError st "Runoff Coefficient must be between 0 and 1")
         else (true, st))
  /\ (validateStep parseFloat st = inr (true, st)
      <-> (0 <? v)%float = true
          /\ (name = F_runoffCoeff -> (v <=? 1)%float = true)).
Proof.
  intros Hstep v.
  assert (Hval :
    validateStep parseFloat st
    = inr (if is_nan v || is_zero v then
             (false, setError st ("Please enter a valid number for " ++ label))
           else if (v <? 0)%float then
             (false, setError st (label ++ " must be greater than 0"))
           else if Field_eqb name F_runoffCoeff && (1 <? v)%float then
             (false, setError st "Runoff Coefficient must be between 0 and 1")
           else (true, st))).
  { unfold validateStep. rewrite Hstep. cbv zeta. fold v.
    rewrite float_zero_or_nan.
    destruct (is_nan v || is_zero v) eqn:Hbad; [reflexivity|].
    rewrite <- float_zero_or_nan in Hbad.
    destruct (float_sign_cases v Hbad) as [Hle _]. rewrite Hle.
    destruct (v <? 0)%float; [reflexivity|]. cbn [orb].
    destruct (Field_eqb name F_runoffCoeff && (1 <? v)%float); reflexivity. }
  split; [exact Hval|].
  rewrite Hval.
  destruct (is_nan v || is_zero v) eqn:Hbad.
  - split; [discriminate|]. intros [Hpos _]. exfalso.
    apply orb_true_iff in Hbad. destruct Hbad as [Hnan|Hzero].
    + unfold is_nan in Hnan. apply negb_true_iff in Hnan.
      rewrite ltb_spec in Hpos. rewrite FloatAxioms.eqb_spec in Hnan.
      unfold SFltb in Hpos. unfold SFeqb in Hnan.
      change (Prim2SF 0) with (S754_zero false) in Hpos.
      destruct (Prim2SF v) as [s|s| |s m e]; cbn in Hpos, Hnan;
        try discriminate; destruct s; cbn in Hnan;
        rewrite ?Z.compare_refl, ?Pos.compare_cont_refl in Hnan; discriminate.
    + unfold is_zero in Hzero.
      rewrite ltb_spec in Hpos. rewrite FloatAxioms.eqb_spec in Hzero.
      unfold SFltb in Hpos. unfold SFeqb in Hzero.
      change (Prim2SF 0) with (S754_zero false) in Hpos.
      change (Prim2SF PrimFloat.zero) with (S754_zero false) in Hzero.
      destruct (Prim2SF v) as [s|s| |s m e]; cbn in Hpos, Hzero;
        try discriminate; destruct s; discriminate.
  - pose proof Hbad as Hbad'. rewrite <- float_zero_or_nan in Hbad'.
    destruct (float_sign_cases v Hbad') as [_ Hpos]. rewrite Hpos.
    apply orb_false_iff in Hbad. destruct Hbad as [Hnan _].
    rewrite (float_not_above v 1 Hnan eq_refl).
    destruct (v <? 0)%float; cbn [negb].
    + split; [discriminate|]. intros [H _]. discriminate H.
    + destruct name; cbn [Field_eqb andb];
        try (split; [intros _; split; [reflexivity|discriminate] | reflexivity]).
      destruct (v <=? 1)%float; cbn [negb].
      * split; [intros _; split; [reflexivity|reflexivity] | reflexivity].
      * split; [discriminate|]. intros [_ H]. specialize (H eq_refl).
        discriminate H.
Qed.

Lemma validateStep_outcome_witness :
  validateStep (fun s => if String.eqb s "0.8" then 0.5%float else nan)
    (setStep (handleInputChange initial_state F_runoffCoeff "0.8") 5)
  = inr (true, setStep (handleInputChange initial_state F_runoffCoeff "0.8") 5).
Proof.
  pose proof (validateStep_outcome
                (fun s => if String.eqb s "0.8" then 0.5%float else nan)
                (setStep (handleInputChange initial_state F_runoffCoeff "0.8") 5)
                F_runoffCoeff "Runoff Coefficient" eq_refl) as [_ H].
  apply H. split; [reflexivity|]. intros _. reflexivity.
Defined.

(** *** A number divided by itself *)

Lemma float_is_finite_spec (x : float) :
  is_finite x = match Prim2SF x with
                | S754_zero _ | S754_finite _ _ _ => true
                | _ => false
                end.
Proof.
  unfold is_finite, is_nan, is_infinity.
  rewrite !FloatAxioms.eqb_spec, abs_spec.
  change (Prim2SF infinity) with (S754_infinity false).
  unfold SFeqb.
  destruct (Prim2SF x) as [s|s| |s m e]; cbn; try reflexivity.
  - destruct s; reflexivity.
  - destruct s; rewrite Z.compare_refl, Pos.compare_cont_refl; reflexivity.
Qed.

Lemma float_is_zero_spec (x : float) :
  is_zero x = match Prim2SF x with
              | S754_zero _ => true
              | _ => false
              end.
Proof.
  unfold is_zero. rewrite FloatAxioms.eqb_spec.
  change (Prim2SF PrimFloat.zero) with (S754_zero false). unfold SFeqb.
  destruct (Prim2SF x) as [s|s| |s m e]; cbn; try reflexivity;
    destruct s; reflexivity.
Qed.

Lemma float_sub_zero (x : float) : (x - 0)%float = x.
Proof.
  apply Prim2SF_inj. rewrite sub_spec.
  change (Prim2SF 0) with (S754_zero false).
  destruct (Prim2SF x) as [s|s| |s m e]; try reflexivity.
  destruct s; reflexivity.
Qed.

Lemma SFdiv_self (s : bool) (m : positive) (e : Z) :
  SFdiv prec emax (S754_finite s m e) (S754_finite s m e)
  = S754_finite false 4503599627370496 (-52).
Proof.
  unfold SFdiv, SFdiv_core_binary.
  replace (Zdigits2 (Z.pos m) + e - (Zdigits2 (Z.pos m) + e))%Z with 0%Z by lia.
  replace (e - e)%Z with 0%Z by lia.
  change (Z.min (fexp prec emax 0) 0) with (-53)%Z.
  change (0 - -53)%Z with 53%Z.
  cbv zeta. cbv iota.
  assert (H : Z.div_eucl (Z.shiftl (Z.pos m) 53) (Z.pos m) = (2 ^ 53, 0)%Z).
  { rewrite Z.shiftl_mul_pow2, Z.mul_comm by lia.
    pose proof (Z.div_mul (2 ^ 53) (Z.pos m) ltac:(lia)) as Hq.
    pose proof (Z.mod_mul (2 ^ 53) (Z.pos m) ltac:(lia)) as Hr.
    unfold Z.div, Z.modulo in Hq, Hr.
    destruct (Z.div_eucl (2 ^ 53 * Z.pos m) (Z.pos m)) as [q r].
    subst q r. reflexivity. }
  rewrite H. cbv beta iota.
  assert (Hloc : new_location (Z.pos m) 0 = loc_Exact)
    by (unfold new_location, new_location_even, new_location_odd;
        destruct (Z.even (Z.pos m)); reflexivity).
  rewrite Hloc.
  replace (xorb s s) with false by (destruct s; reflexivity).
  vm_compute. reflexivity.
Qed.

(** A finite number other than zero divided by itself is 1; anything
    else divided by itself is NaN. *)
Lemma float_div_self (x : float) :
  (x / x)%float = if is_finite x && negb (is_zero x) then 1%float else nan.
Proof.
  apply Prim2SF_inj.
  rewrite float_is_finite_spec, float_is_zero_spec, div_spec.
  destruct (Prim2SF x) as [s|s| |s m e]; cbn [andb negb]; try reflexivity.
  apply SFdiv_self.
Qed.

(** The efficiency the results show for a total [t] and no overflow. *)
Lemma efficiency_text (toStr : N -> positive -> string) (t : float) :
  toFixed1 (float_ops toStr) ((t - 0) / t * 100)%float
  = if is_finite t && negb (is_zero t) then "100.0" else "NaN".
Proof.
  rewrite float_sub_zero, float_div_self.
  destruct (is_finite t && negb (is_zero t)); vm_compute; reflexivity.
Qed.

(** *** Calculating the results *)

Section Calculator.

Variable host : Host.
Variable toStr : N -> positive -> string.
Variable parseFloat : string -> float.
Variable draws : nat -> float.

#[local] Abbreviation fops := (float_ops toStr).

Lemma year_rainfall_length (st : AppState) (pos : nat) :
  List.length (year_rainfall host parseFloat draws st pos) = 365.
Proof.
  unfold year_rainfall, simulateRainfall. rewrite rainfall_loop_spec.
  cbn [fst app]. rewrite length_map, length_seq. reflexivity.
Qed.

Lemma year_harvest_length (st : AppState) (pos : nat) :
  List.length (year_harvest host toStr parseFloat draws st pos) = 365.
Proof.
  unfold year_harvest, calculateHarvestedWater.
  rewrite length_map. apply year_rainfall_length.
Qed.

Lemma calculateResults_run (st : AppState) (pos : nat) :
  calculateResults host toStr parseFloat draws st pos
  = (inr
       (setStep
          (setResults st
             (Some
                {| Results.weeklyData :=
                     map (weekly_entry fops (year_rainfall host parseFloat draws st pos)
                            (year_harvest host toStr parseFloat draws st pos)) (seq 0 7);
                   Results.monthlyData :=
                     map (monthly_entry fops (year_rainfall host parseFloat draws st pos)
                            (year_harvest host toStr parseFloat draws st pos)) (seq 0 12);
                   Results.totalRainfall :=
                     toFixed1 fops (reduce_sum fops (year_rainfall host parseFloat draws st pos));
                   Results.totalHarvested :=
                     toFixed1 fops (reduce_sum fops (year_harvest host toStr parseFloat draws st pos));
                   Results.maxStorageNeeded :=
                     toFixed1 fops
                       (maxStorageNeeded
                          (optimizeStorageCapacity fops (year_harvest host toStr parseFloat draws st pos)
                             (parseFloat (inputs st F_dailyConsumption))));
                   Results.overflow := "0.0";
                   Results.efficiency :=
                     if is_finite (reduce_sum fops (year_harvest host toStr parseFloat draws st pos))
                        && negb (is_zero (reduce_sum fops (year_harvest host toStr parseFloat draws st pos)))
                     then "100.0" else "NaN" |}))
          6),
     pos + 730).
Proof.
  unfold calculateResults, bind.
  pose proof (year_rainfall_length st pos) as Hr.
  pose proof (year_harvest_length st pos) as Hh.
  unfold year_harvest, year_rainfall in *.
  destruct (simulateRainfall host draws 365
              (parseFloat (inputs st F_meanRainfall))
              (parseFloat (inputs st F_stdDev)) pos) as [rain pos'] eqn:Hsim.
  assert (Hpos : pos' = pos + 730).
  { unfold simulateRainfall in Hsim. rewrite rainfall_loop_spec in Hsim.
    injection Hsim as _ Hp. rewrite <- Hp. reflexivity. }
  cbn [fst] in Hr, Hh |- *. cbv zeta.
  set (hw := calculateHarvestedWater fops _ rain) in *.
  unfold getWeeklyData.
  rewrite (weekly_loop_ok fops rain hw 7 0 []) by (cbn [Nat.add]; lia).
  cbn [app]. unfold ret. rewrite Hpos.
  rewrite getMonthlyData_spec, Hr. change (365 / 30) with 12.
  assert (Hov : overflow (optimizeStorageCapacity fops hw
                            (parseFloat (inputs st F_dailyConsumption)))
                = 0%float)
    by apply (float_optimize_spec toStr hw
                (parseFloat (inputs st F_dailyConsumption))).
  rewrite !Hov, efficiency_text.
  change (toFixed1 fops 0%float) with "0.0".
  reflexivity.
Qed.

End Calculator.

(** [calculateResults] never throws, whatever the inputs hold.  It makes
    730 calls of [Math.random], moves to step 6, stores results with
    exactly 7 weekly and 12 monthly entries, and leaves the inputs, the
    view mode and the error message as they were. *)
Theorem calculateResults_succeeds (host : Host)
    (toStr : N -> positive -> string) (parseFloat : string -> float)
    (draws : nat -> float) (st : AppState) (pos : nat) :
  exists (st' : AppState) (res : Results.t),
    calculateResults host toStr parseFloat draws st pos = (inr st', pos + 730)
    /\ step st' = 6%Z
    /\ results st' = Some res
    /\ List.length (Results.weeklyData res) = 7
    /\ List.length (Results.monthlyData res) = 12
    /\ inputs st' = inputs st
    /\ viewMode st' = viewMode st
    /\ error st' = error st.
Proof.
  rewrite calculateResults_run. eexists. eexists.
  split; [reflexivity|]. cbn [step results inputs viewMode error setStep setResults].
  split; [reflexivity|]. split; [reflexivity|].
  cbn [Results.weeklyData Results.monthlyData].
  rewrite !length_map, !length_seq. repeat split.
Qed.

(** What the results show for overflow and efficiency does not depend on
    the daily consumption: the overflow is always ["0.0"], and the
    efficiency is ["100.0"] when the year's total harvested water is a
    finite number other than zero and ["NaN"] otherwise. *)
Theorem displayed_efficiency (host : Host) (toStr : N -> positive -> string)
    (parseFloat : string -> float) (draws : nat -> float)
    (st : AppState) (pos : nat) :
  let totalHarvested :=
    reduce_sum (float_ops toStr)
      (year_harvest host toStr parseFloat draws st pos) in
  exists (st' : AppState) (res : Results.t),
    fst (calculateResults host toStr parseFloat draws st pos) = inr st'
    /\ results st' = Some res
    /\ Results.overflow res = "0.0"
    /\ Results.efficiency res
       = if is_finite totalHarvested && negb (is_zero totalHarvested)
         then "100.0" else "NaN".
Proof.
  cbv zeta. rewrite calculateResults_run. eexists. eexists.
  cbn [fst]. split; [reflexivity|].
  cbn [results setStep setResults]. split; [reflexivity|].
  split; reflexivity.
Qed.

(** *** The wizard *)

Section Wizard.

Variable host : Host.
Variable toStr : N -> positive -> string.
Variable parseFloat : string -> float.
Variable draws : nat -> float.

Lemma step_input_defined (s : Z) :
  (1 <= s <= 5)%Z -> exists name label, step_input s = Some (name, label).
Proof.
  intro Hs.
  assert (H : (s = 1 \/ s = 2 \/ s = 3 \/ s = 4 \/ s = 5)%Z) by lia.
  repeat (destruct H as [-> | H]; [eexists; eexists; reflexivity|]).
  subst s. eexists. eexists. reflexivity.
Qed.

(** On an input step, validation returns: with the state untouched when
    it accepts, with only the error message changed when it rejects. *)
Lemma validateStep_shape (st : AppState) :
  (1 <= step st <= 5)%Z ->
  validateStep parseFloat st = inr (true, st)
  \/ exists msg : string,
       validateStep parseFloat st = inr (false, setError st msg).
Proof.
  intro Hs. destruct (step_input_defined (step st) Hs) as (name & label & Hin).
  unfold validateStep. rewrite Hin. cbv zeta.
  destruct (falsy _ || is_nan _); [right; eexists; reflexivity|].
  destruct (_ <=? 0)%float; [right; eexists; reflexivity|].
  destruct (Field_eqb name F_runoffCoeff && _);
    [right; eexists; reflexivity|left; reflexivity].
Qed.

(** What pressing "Next" on an input step leads to. *)
Lemma handleNext_cases (st : AppState) (pos : nat) :
  (1 <= step st <= 5)%Z ->
  exists (st' : AppState) (pos' : nat),
    handleNext host toStr parseFloat draws st pos = (inr st', pos')
    /\ viewMode st' = viewMode st
    /\ ((step st' = step st /\ results st' = results st)
        \/ (step st < 5 /\ step st' = step st + 1 /\ results st' = results st)%Z
        \/ (step st' = 6%Z /\ results st' <> None)).
Proof.
  intro Hs. unfold handleNext.
  destruct (validateStep_shape st Hs) as [Hok | (msg & Hbad)].
  - rewrite Hok. destruct (step st <? 5)%Z eqn:Hlt.
    + apply Z.ltb_lt in Hlt. eexists. eexists.
      split; [reflexivity|]. split; [reflexivity|].
      right. left. cbn [step results setStep]. repeat split. exact Hlt.
    + rewrite calculateResults_run. eexists. eexists.
      split; [reflexivity|]. split; [reflexivity|].
      right. right. cbn [step results setStep setResults].
      split; [reflexivity|discriminate].
  - rewrite Hbad. eexists. eexists. split; [reflexivity|].
    split; [reflexivity|]. left. split; reflexivity.
Qed.

End Wizard.

(** Through any sequence of the events the markup offers, the step stays
    between 1 and 6, the view mode is one of the two the chart knows, and
    there are results whenever step 6 shows them: the results view never
    reads a property of [null].  On every input step "Next" returns
    without throwing. *)
Theorem session_invariant (host : Host) (toStr : N -> positive -> string)
    (parseFloat : string -> float) (draws : nat -> float)
    (s : AppState * nat) :
  reachable host toStr parseFloat draws s ->
  (1 <= step (fst s) <= 6)%Z
  /\ (step (fst s) = 6%Z -> results (fst s) <> None)
  /\ (viewMode (fst s) = "weekly" \/ viewMode (fst s) = "monthly")
  /\ ((step (fst s) < 6)%Z ->
      exists (st' : AppState) (pos' : nat),
        handleNext host toStr parseFloat draws (fst s) (snd s) = (inr st', pos')).
Proof.
  intro Hreach.
  assert (Hinv : (1 <= step (fst s) <= 6)%Z
                 /\ (step (fst s) = 6%Z -> results (fst s) <> None)
                 /\ (viewMode (fst s) = "weekly" \/ viewMode (fst s) = "monthly")).
  { induction Hreach as [pos | s s' Hreach IH Hev].
    - cbn. split; [lia|]. split; [discriminate|]. left. reflexivity.
    - destruct IH as (Hstep & Hres & Hview).
      destruct Hev as [st pos name value Hlt
                      | st st' pos pos' Hlt Hnext
                      | st pos Hback
                      | st pos mode Hge Hmode
                      | st pos Hge]; cbn [fst snd] in *.
      + cbn [handleInputChange step results viewMode setError setInputs].
        split; [exact Hstep|]. split; [lia|exact Hview].
      + destruct (handleNext_cases host toStr parseFloat draws st pos
                    ltac:(lia)) as (st2 & pos2 & Hrun & Hv & Hcases).
        rewrite Hrun in Hnext. injection Hnext as <- <-.
        rewrite Hv. split; [|split; [|exact Hview]].
        * destruct Hcases as [[-> _] | [(_ & -> & _) | [-> _]]]; lia.
        * destruct Hcases as [[Hs _] | [(Hs1 & Hs & _) | [_ Hr]]];
            [intro; lia | intro; lia | intros _; exact Hr].
      + cbn [handleBack step results viewMode setError setStep].
        split; [lia|]. split; [intro; lia|exact Hview].
      + cbn [step results viewMode setViewMode].
        split; [exact Hstep|]. split; [exact Hres|exact Hmode].
      + cbn [calculateAgain step results viewMode setResults setInputs setStep].
        split; [lia|]. split; [intro; lia|exact Hview]. }
  destruct Hinv as (Hstep & Hres & Hview).
  split; [exact Hstep|]. split; [exact Hres|]. split; [exact Hview|].
  intro Hlt.
  destruct (handleNext_cases host toStr parseFloat draws (fst s) (snd s)
              ltac:(lia)) as (st' & pos' & Hrun & _).
  exists st', pos'. exact Hrun.
Qed.

(** The session after a first "Next" on an empty form. *)
Lemma session_invariant_witness :
  let s := (setError initial_state "Please enter a valid number for Roof Area", 0) in
  (1 <= step (fst s) <= 6)%Z
  /\ (step (fst s) = 6%Z -> results (fst s) <> None)
  /\ (viewMode (fst s) = "weekly" \/ viewMode (fst s) = "monthly")
  /\ ((step (fst s) < 6)%Z ->
      exists (st' : AppState) (pos' : nat),
        handleNext edge_host (fun _ _ => "") (fun _ => nan) (fun _ => 0%float)
          (fst s) (snd s) = (inr st', pos')).
Proof.
  intro s.
  apply (session_invariant edge_host (fun _ _ => "") (fun _ => nan)
           (fun _ => 0%float) s).
  apply (reach_step _ _ _ _ (initial_state, 0)).
  - apply reach_start.
  - apply ev_next; [cbn; lia|]. reflexivity.
Defined.

(** *** The chart *)

(** After a calculation the chart has, in the weekly view, the labels
    "Day 1" to "Day 7" and two datasets of 7 values, and in the monthly
    view the labels "Month 1" to "Month 12" and two datasets of 12 values.
    Any view mode other than ['weekly'] is charted as the monthly one. *)
Theorem chart_after_calculation (host : Host)
    (toStr : N -> positive -> string) (parseFloat : string -> float)
    (draws : nat -> float) (st : AppState) (pos : nat) :
  exists st' : AppState,
    fst (calculateResults host toStr parseFloat draws st pos) = inr st'
    /\ (exists weekly : Chart.t,
          getChartData (setViewMode st' "weekly") = Some weekly
          /\ Chart.labels weekly
             = ["Day 1"; "Day 2"; "Day 3"; "Day 4"; "Day 5"; "Day 6"; "Day 7"]
          /\ map (fun d => List.length (Dataset.data d)) (Chart.datasets weekly)
             = [7; 7])
    /\ (forall mode : string,
          mode <> "weekly" ->
          exists monthly : Chart.t,
            getChartData (setViewMode st' mode) = Some monthly
            /\ Chart.labels monthly
               = ["Month 1"; "Month 2"; "Month 3"; "Month 4"; "Month 5";
                  "Month 6"; "Month 7"; "Month 8"; "Month 9"; "Month 10";
                  "Month 11"; "Month 12"]
            /\ map (fun d => List.length (Dataset.data d)) (Chart.datasets monthly)
               = [12; 12]).
Proof.
  rewrite calculateResults_run. eexists. cbn [fst].
  split; [reflexivity|]. split.
  - eexists. split; [reflexivity|]. split; reflexivity.
  - intros mode Hmode. unfold getChartData.
    cbn [results viewMode setViewMode setStep setResults].
    destruct (String.eqb_spec mode "weekly") as [Heq|_]; [contradiction|].
    eexists. split; [reflexivity|]. split; reflexivity.
Qed.

(** *** Filling in a step *)

Lemma step_input_cases (s : Z) (name : Field) (label : string) :
  step_input s = Some (name, label) ->
  In (s, name, label)
    [ (1%Z, F_roofArea, "Roof Area");
      (2%Z, F_dailyConsumption, "Daily Consumption");
      (3%Z, F_meanRainfall, "Average Daily Rainfall");
      (4%Z, F_stdDev, "Rainfall Variation");
      (5%Z, F_runoffCoeff, "Runoff Coefficient") ].
Proof.
  unfold step_input. destruct s as [|p|p]; try discriminate.
  destruct p as [[[p|p|]|[p|p|]|]|[[p|p|]|[p|p|]|]|]; try discriminate;
    intro H; injection H as <- <-; cbn; auto 10.
Qed.

(** On the first four steps, typing a value into the step's field and
    pressing "Next" draws no random number and keeps what was typed.  If
    the value parses to a number above 0 the wizard moves to the next
    step with no error, and "Back" returns to the step with the value
    still there; otherwise it stays on the step with an error message. *)
Theorem typing_then_next (host : Host) (toStr : N -> positive -> string)
    (parseFloat : string -> float) (draws : nat -> float)
    (st : AppState) (name : Field) (label value : string) (pos : nat) :
  step_input (step st) = Some (name, label) ->
  (step st < 5)%Z ->
  exists st' : AppState,
    handleNext host toStr parseFloat draws
      (handleInputChange st name value) pos = (inr st', pos)
    /\ inputs st' name = value
    /\ (if (0 <? parseFloat value)%float then
          step st' = (step st + 1)%Z /\ error st' = ""
          /\ step (handleBack st') = step st
          /\ inputs (handleBack st') name = value
        else step st' = step st /\ error st' <> "").
Proof.
  intros Hin Hlt.
  assert (Hname : Field_eqb name name = true) by (destruct name; reflexivity).
  assert (Hnot5 : Field_eqb name F_runoffCoeff = false
                  /\ forall s : string, (label ++ s)%string <> "").
  { pose proof (step_input_cases _ _ _ Hin) as Hc. cbn [In] in Hc.
    repeat (destruct Hc as [Hc | Hc];
            [injection Hc as Hs <- <-;
             first [ split; [reflexivity|discriminate] | lia ] |]).
    contradiction. }
  destruct Hnot5 as [Hnot5 Hlabel].
  set (st1 := handleInputChange st name value).
  assert (Hi : inputs st1 name = value)
    by (unfold st1; cbn [handleInputChange inputs setError setInputs];
        rewrite Hname; reflexivity).
  assert (Hs : step st1 = step st) by reflexivity.
  unfold handleNext, validateStep. rewrite Hs, Hin, Hi, Hnot5.
  cbv zeta. cbn [andb].
  destruct (falsy (parseFloat value) || is_nan (parseFloat value)) eqn:Hbad.
  - eexists. split; [reflexivity|]. cbn [inputs step error setError].
    split; [exact Hi|].
    assert (Hpos : (0 <? parseFloat value)%float = false).
    { unfold falsy in Hbad. rewrite float_is_zero_spec in Hbad.
      unfold is_nan in Hbad. rewrite FloatAxioms.eqb_spec in Hbad.
      rewrite ltb_spec. unfold SFltb, SFeqb in *.
      change (Prim2SF 0) with (S754_zero false).
      destruct (Prim2SF (parseFloat value)) as [s|s| |s m e]; cbn in Hbad |- *;
        try reflexivity; destruct s; cbn in Hbad;
        rewrite ?Z.compare_refl, ?Pos.compare_cont_refl in Hbad;
        try discriminate; reflexivity. }
    rewrite Hpos. split; [exact Hs|]. discriminate.
  - destruct (float_sign_cases (parseFloat value) Hbad) as [Hle Hpos].
    rewrite Hle, Hpos.
    destruct (parseFloat value <? 0)%float; cbn [negb].
    + eexists. split; [reflexivity|]. cbn [inputs step error setError].
      split; [exact Hi|]. split; [exact Hs|]. apply Hlabel.
    + apply Z.ltb_lt in Hlt. rewrite Hlt.
      eexists. split; [reflexivity|].
      cbn [inputs step error setError setStep handleBack].
      split; [exact Hi|]. split; [reflexivity|]. split; [reflexivity|].
      split; [lia|exact Hi].
Qed.

Lemma typing_then_next_witness :
  exists st' : AppState,
    handleNext edge_host (fun _ _ => "")
      (fun s => if String.eqb s "120" then 120%float else nan) (fun _ => 0%float)
      (handleInputChange initial_state F_roofArea "120") 0 = (inr st', 0)
    /\ inputs st' F_roofArea = "120"
    /\ (if (0 <? (if String.eqb "120" "120" then 120 else nan))%float then
          step st' = (step initial_state + 1)%Z /\ error st' = ""
          /\ step (handleBack st') = step initial_state
          /\ inputs (handleBack st') F_roofArea = "120"
        else step st' = step initial_state /\ error st' <> "").
Proof.
  apply (typing_then_next edge_host (fun _ _ => "")
           (fun s => if String.eqb s "120" then 120%float else nan)
           (fun _ => 0%float) initial_state F_roofArea "Roof Area" "120" 0).
  - reflexivity.
  - cbn. lia.
Defined.

(** *** The order of binary64 numbers *)

Local Open Scope Z_scope.

Lemma digits2_pos_bounds (m : positive) :
  2 ^ (Z.pos (digits2_pos m) - 1) <= Z.pos m < 2 ^ Z.pos (digits2_pos m).
Proof.
  induction m as [m IH|m IH|]; cbn [digits2_pos].
  - rewrite Pos2Z.inj_succ.
    replace (Z.succ (Z.pos (digits2_pos m)) - 1) with (Z.succ (Z.pos (digits2_pos m) - 1)) by lia.
    rewrite !Z.pow_succ_r by lia. lia.
  - rewrite Pos2Z.inj_succ.
    replace (Z.succ (Z.pos (digits2_pos m)) - 1) with (Z.succ (Z.pos (digits2_pos m) - 1)) by lia.
    rewrite !Z.pow_succ_r by lia. lia.
  - cbn. lia.
Qed.

(** What validity says of a mantissa and its exponent. *)
Lemma bounded_facts (m : positive) (e : Z) :
  bounded prec emax m e = true ->
  -1074 <= e <= 971
  /\ Z.pos m < 2 ^ 53
  /\ (-1074 < e -> 2 ^ 52 <= Z.pos m).
Proof.
  unfold bounded, canonical_mantissa, fexp, emin.
  change (3 - emax - prec) with (-1074). change (emax - prec) with 971.
  change prec with 53.
  intro H. apply andb_true_iff in H. destruct H as [Hc He].
  apply Z.leb_le in He. apply Z.eqb_eq in Hc.
  pose proof (digits2_pos_bounds m) as [Hlo Hhi].
  set (d := Z.pos (digits2_pos m)) in *.
  assert (Hd : d <= 53) by lia.
  split; [lia|]. split.
  - apply Z.lt_le_trans with (2 ^ d); [exact Hhi|].
    apply Z.pow_le_mono_r; lia.
  - intro Hn. assert (d = 53) by lia. subst d.
    replace (Z.pos (digits2_pos m) - 1) with 52 in Hlo by lia. exact Hlo.
Qed.

Lemma finite_rank_bounds (m : positive) (e : Z) :
  bounded prec emax m e = true ->
  0 < Z.pos m * 2 ^ (e + 1074) < 2 ^ 2100.
Proof.
  intro H. apply bounded_facts in H. destruct H as (He & Hm & _).
  assert (Hp : 0 < 2 ^ (e + 1074)) by (apply Z.pow_pos_nonneg; lia).
  split; [lia|].
  apply Z.lt_le_trans with (2 ^ 53 * 2 ^ (e + 1074)).
  - apply Z.mul_lt_mono_pos_r; assumption.
  - rewrite <- Z.pow_add_r by lia. apply Z.pow_le_mono_r; lia.
Qed.

Lemma finite_rank_compare (m1 m2 : positive) (e1 e2 : Z) :
  bounded prec emax m1 e1 = true ->
  bounded prec emax m2 e2 = true ->
  match (e1 ?= e2) with
  | Lt => Lt
  | Gt => Gt
  | Eq => Pos.compare_cont Eq m1 m2
  end = (Z.pos m1 * 2 ^ (e1 + 1074) ?= Z.pos m2 * 2 ^ (e2 + 1074)).
Proof.
  intros H1 H2. apply bounded_facts in H1, H2.
  destruct H1 as (He1 & Hm1 & Hn1). destruct H2 as (He2 & Hm2 & Hn2).
  assert (Hstep : forall m m' e e', -1074 <= e -> e < e' ->
            Z.pos m < 2 ^ 53 -> 2 ^ 52 <= Z.pos m' ->
            Z.pos m * 2 ^ (e + 1074) < Z.pos m' * 2 ^ (e' + 1074)).
  { intros m m' e e' He Hlt Hm Hm'.
    replace (e' + 1074) with ((e + 1074) + (1 + (e' - e - 1))) by lia.
    set (a := e + 1074). set (k := e' - e - 1).
    assert (Ha : 0 <= a) by (unfold a; lia).
    assert (Hk : 0 <= k) by (unfold k; lia).
    rewrite (Z.pow_add_r 2 a (1 + k)) by lia.
    rewrite (Z.pow_add_r 2 1 k) by lia.
    assert (Hp : 0 < 2 ^ a) by (apply Z.pow_pos_nonneg; lia).
    assert (Hq : 1 <= 2 ^ k)
      by (change 1 with (2 ^ 0) at 1; apply Z.pow_le_mono_r; lia).
    change (2 ^ 1) with 2.
    apply Z.lt_le_trans with (2 ^ 53 * 2 ^ a).
    - apply Z.mul_lt_mono_pos_r; assumption.
    - change (2 ^ 53) with (2 ^ 52 * 2).
      transitivity (Z.pos m' * (2 ^ a * 2)).
      + rewrite (Z.mul_comm (2 ^ a) 2), Z.mul_assoc.
        apply Z.mul_le_mono_nonneg_r; lia.
      + apply Z.mul_le_mono_nonneg_l; [lia|].
        apply Z.mul_le_mono_nonneg_l; lia. }
  destruct (Z.compare_spec e1 e2) as [Heq|Hlt|Hgt].
  - subst e2. rewrite Pos.compare_cont_spec. cbn [Pos.switch_Eq].
    assert (Hp : 0 < 2 ^ (e1 + 1074)) by (apply Z.pow_pos_nonneg; lia).
    destruct (Pos.compare_spec m1 m2) as [Hm|Hm|Hm]; symmetry.
    + subst m2. apply Z.compare_refl.
    + apply Z.compare_lt_iff. apply Z.mul_lt_mono_pos_r; [exact Hp|lia].
    + apply Z.compare_gt_iff. apply Z.mul_lt_mono_pos_r; [exact Hp|lia].
  - symmetry. apply Z.compare_lt_iff. apply Hstep; lia.
  - symmetry. apply Z.compare_gt_iff. apply Hstep; lia.
Qed.

Lemma SFcompare_rank (x y : spec_float) :
  valid_binary x = true -> valid_binary y = true ->
  SF_number x = true -> SF_number y = true ->
  SFcompare x y = Some (SF_rank x ?= SF_rank y).
Proof.
  intros Hx Hy Hnx Hny.
  destruct x as [sx|sx| |sx mx ex]; destruct y as [sy|sy| |sy my ey];
    try discriminate; unfold valid_binary in Hx, Hy; cbn [SpecFloat.valid_binary] in Hx, Hy;
    cbn [SFcompare SF_rank].
  - reflexivity.
  - destruct sy; reflexivity.
  - pose proof (finite_rank_bounds my ey Hy).
    destruct sy; cbn [cond_Zopp]; f_equal; symmetry;
      [apply Z.compare_gt_iff | apply Z.compare_lt_iff]; lia.
  - destruct sx; reflexivity.
  - destruct sx, sy; reflexivity.
  - pose proof (finite_rank_bounds my ey Hy).
    destruct sx, sy; cbn [cond_Zopp]; f_equal; symmetry;
      first [apply Z.compare_gt_iff; lia | apply Z.compare_lt_iff; lia].
  - pose proof (finite_rank_bounds mx ex Hx).
    destruct sx; cbn [cond_Zopp]; f_equal; symmetry;
      [apply Z.compare_lt_iff | apply Z.compare_gt_iff]; lia.
  - pose proof (finite_rank_bounds mx ex Hx).
    destruct sx, sy; cbn [cond_Zopp]; f_equal; symmetry;
      first [apply Z.compare_gt_iff; lia | apply Z.compare_lt_iff; lia].
  - pose proof (finite_rank_bounds mx ex Hx).
    pose proof (finite_rank_bounds my ey Hy).
    destruct sx, sy; cbn [cond_Zopp]; f_equal.
    + rewrite Z.compare_opp. rewrite <- (finite_rank_compare my mx ey ex Hy Hx).
      rewrite (Z.compare_antisym ey ex).
      destruct (ey ?= ex); cbn [CompOpp]; try reflexivity.
      rewrite (Pos.compare_cont_antisym mx my Eq). reflexivity.
    + symmetry. apply Z.compare_lt_iff. lia.
    + symmetry. apply Z.compare_gt_iff. lia.
    + apply finite_rank_compare; assumption.
Qed.

Local Close Scope Z_scope.

Lemma float_number (x : float) :
  SF_number (Prim2SF x) = negb (is_nan x).
Proof.
  unfold is_nan. rewrite FloatAxioms.eqb_spec. unfold SFeqb.
  destruct (Prim2SF x) as [s|s| |s m e]; cbn; try reflexivity.
  - destruct s; reflexivity.
  - destruct s; rewrite Z.compare_refl, Pos.compare_cont_refl; reflexivity.
Qed.

Lemma float_leb_rank (a b : float) :
  (a <=? b)%float = true <->
  SF_number (Prim2SF a) = true /\ SF_number (Prim2SF b) = true
  /\ (SF_rank (Prim2SF a) <= SF_rank (Prim2SF b))%Z.
Proof.
  rewrite leb_spec. unfold SFleb.
  pose proof (Prim2SF_valid a) as Va. pose proof (Prim2SF_valid b) as Vb.
  destruct (SF_number (Prim2SF a)) eqn:Na.
  - destruct (SF_number (Prim2SF b)) eqn:Nb.
    + rewrite (SFcompare_rank _ _ Va Vb Na Nb).
      destruct (Z.compare_spec (SF_rank (Prim2SF a)) (SF_rank (Prim2SF b)));
        split; try (intros (_ & _ & ?)); try intro; try discriminate;
        try lia; repeat split; try lia.
    + destruct (Prim2SF b); try discriminate.
      destruct (Prim2SF a); cbn; split; try (intros (_ & ? & _));
        discriminate.
  - destruct (Prim2SF a); try discriminate. cbn.
    split; [|intros (? & _)]; discriminate.
Qed.

Lemma float_ltb_rank (a b : float) :
  (a <? b)%float = true <->
  SF_number (Prim2SF a) = true /\ SF_number (Prim2SF b) = true
  /\ (SF_rank (Prim2SF a) < SF_rank (Prim2SF b))%Z.
Proof.
  rewrite ltb_spec. unfold SFltb.
  pose proof (Prim2SF_valid a) as Va. pose proof (Prim2SF_valid b) as Vb.
  destruct (SF_number (Prim2SF a)) eqn:Na.
  - destruct (SF_number (Prim2SF b)) eqn:Nb.
    + rewrite (SFcompare_rank _ _ Va Vb Na Nb).
      destruct (Z.compare_spec (SF_rank (Prim2SF a)) (SF_rank (Prim2SF b)));
        split; try (intros (_ & _ & ?)); try intro; try discriminate;
        try lia; repeat split; try lia.
    + destruct (Prim2SF b); try discriminate.
      destruct (Prim2SF a); cbn; split; try (intros (_ & ? & _));
        discriminate.
  - destruct (Prim2SF a); try discriminate. cbn.
    split; [|intros (? & _)]; discriminate.
Qed.

Lemma float_leb_trans (a b c : float) :
  (a <=? b)%float = true -> (b <=? c)%float = true -> (a <=? c)%float = true.
Proof.
  rewrite !float_leb_rank. intros (Na & Nb & Hab) (_ & Nc & Hbc).
  repeat split; try assumption. lia.
Qed.

Lemma float_leb_refl (a : float) :
  (0 <=? a)%float = true -> (a <=? a)%float = true.
Proof.
  rewrite !float_leb_rank. intros (_ & Na & _). repeat split; try assumption.
  lia.
Qed.

(** *** The capacity over a longer series *)

Lemma float_larger_above (toStr : N -> positive -> string)
    (l : list float) (m : float) :
  (0 <=? m)%float = true ->
  (m <=? fold_left (larger (float_ops toStr)) l m)%float = true.
Proof.
  revert m. induction l as [|t l IH]; intros m Hm; cbn [fold_left].
  - exact (float_leb_refl m Hm).
  - unfold larger at 2. cbn [lt float_ops].
    destruct (m <? t)%float eqn:Hlt.
    + apply float_leb_trans with t.
      * exact (float_ltb_leb m t Hlt).
      * apply IH. exact (float_nonneg_lt m t Hm Hlt).
    + apply IH. exact Hm.
Qed.

Lemma float_not_negative_number (m : float) :
  (0 <=? m)%float = true -> (m <? 0)%float = false.
Proof.
  rewrite float_zero_leb, float_ltb_zero.
  destruct (Prim2SF m) as [s|s| |s e x]; cbn; try reflexivity;
    try discriminate; destruct s; cbn; congruence.
Qed.

Lemma optimize_loop_capacity_nonneg (toStr : N -> positive -> string)
    (hs : list float) (c : float) :
  (0 <=? maxStorageNeeded_ (optimize_loop (float_ops toStr) hs c))%float
  = true.
Proof.
  destruct (float_optimize_spec toStr hs c) as (_ & Hmax & _).
  cbv zeta in Hmax. rewrite Hmax.
  apply float_larger_nonneg. reflexivity.
Qed.

(** More days never lower the capacity: the capacity for a series is at
    most the capacity for the series with further days after it, whatever
    the values (a NaN among them stops the growth and lowers nothing). *)
Theorem capacity_grows_with_the_series (toStr : N -> positive -> string)
    (harvested more : list float) (dailyConsumption : float) :
  (maxStorageNeeded
     (optimizeStorageCapacity (float_ops toStr) harvested dailyConsumption)
   <=? maxStorageNeeded
         (optimizeStorageCapacity (float_ops toStr) (harvested ++ more)
            dailyConsumption))%float = true.
Proof.
  unfold optimizeStorageCapacity. cbn [maxStorageNeeded].
  unfold optimize_loop at 2. rewrite fold_left_app.
  fold (optimize_loop (float_ops toStr) harvested dailyConsumption).
  set (st := optimize_loop (float_ops toStr) harvested dailyConsumption).
  pose proof (optimize_loop_capacity_nonneg toStr harvested dailyConsumption)
    as Hst. fold st in Hst.
  destruct (optimize_fold_spec (float_ops toStr) float_ltb_irrefl
              dailyConsumption more st
              (float_not_negative_number _ Hst)) as (_ & Hmax & _).
  rewrite Hmax. apply float_larger_above. exact Hst.
Qed.

(** *** Days without a surplus *)

Lemma float_zero_ltb (x : float) :
  (0 <? x)%float = SF_positive (Prim2SF x).
Proof.
  rewrite ltb_spec. unfold SFltb.
  change (Prim2SF 0) with (S754_zero false).
  destruct (Prim2SF x) as [s|s| |s m e]; cbn; try reflexivity;
    destruct s; reflexivity.
Qed.

Lemma shl_align_value (m : positive) (e e' : Z) :
  (e' <= e)%Z ->
  Z.pos (fst (shl_align m e e')) = (Z.pos m * 2 ^ (e - e'))%Z.
Proof.
  intro H. unfold shl_align.
  destruct (e' - e)%Z as [|d|d] eqn:E; cbn [fst].
  - replace (e - e')%Z with 0%Z by lia. lia.
  - lia.
  - change (Pos.iter xO m d) with (shift_pos d m).
    rewrite shift_pos_correct.
    replace (e - e')%Z with (Z.pos d) by lia.
    change (2 ^ Z.pos d)%Z with (Z.pow_pos 2 d). lia.
Qed.

Lemma binary_round_aux_not_positive (m e : Z) (l : location) :
  SF_positive (binary_round_aux prec emax true m e l) = false.
Proof.
  unfold binary_round_aux.
  destruct (shr_fexp prec emax m e l) as [mrs' e'].
  destruct (shr_fexp prec emax
              (round_nearest_even (shr_m mrs') (loc_of_shr_record mrs'))
              e' loc_Exact) as [mrs'' e''].
  destruct (shr_m mrs'') as [|p|p]; cbn [SF_positive]; try reflexivity.
  destruct (e'' <=? emax - prec)%Z; reflexivity.
Qed.

Lemma binary_normalize_not_positive (m e : Z) :
  (m <= 0)%Z ->
  SF_positive (binary_normalize prec emax m e false) = false.
Proof.
  intro H. unfold binary_normalize.
  destruct m as [|p|p]; [reflexivity|lia|].
  unfold binary_round.
  destruct (shl_align p e _) as [mz ez].
  apply binary_round_aux_not_positive.
Qed.

Lemma SFsub_not_positive (x y : spec_float) :
  valid_binary x = true -> valid_binary y = true ->
  SF_number x = true -> SF_number y = true ->
  (SF_rank x <= SF_rank y)%Z ->
  SF_positive (SFsub prec emax x y) = false.
Proof.
  intros Hx Hy Nx Ny.
  destruct x as [sx|sx| |sx mx ex]; destruct y as [sy|sy| |sy my ey];
    try discriminate; unfold valid_binary in Hx, Hy;
    cbn [SpecFloat.valid_binary] in Hx, Hy;
    try (pose proof (finite_rank_bounds mx ex Hx));
    try (pose proof (finite_rank_bounds my ey Hy));
    cbn [SF_rank SFsub]; intro Hr;
    try (destruct sx; destruct sy; cbn [cond_Zopp negb SF_positive] in *;
         first [reflexivity | lia]);
    try (destruct sx; cbn [cond_Zopp negb SF_positive] in *;
         first [reflexivity | lia]);
    try (destruct sy; cbn [cond_Zopp negb SF_positive] in *;
         first [reflexivity | lia]).
  apply binary_normalize_not_positive.
  apply bounded_facts in Hx, Hy.
  destruct Hx as (Hex & _). destruct Hy as (Hey & _).
  set (ez := Z.min ex ey).
  assert (Hzx : (ez <= ex)%Z) by (unfold ez; lia).
  assert (Hzy : (ez <= ey)%Z) by (unfold ez; lia).
  assert (Hz : (-1074 <= ez)%Z) by (unfold ez; lia).
  rewrite (shl_align_value mx ex ez Hzx), (shl_align_value my ey ez Hzy).
  assert (Hp : (0 < 2 ^ (ez + 1074))%Z) by (apply Z.pow_pos_nonneg; lia).
  apply Z.le_sub_0.
  apply (Z.mul_le_mono_pos_r _ _ _ Hp).
  assert (Hs : forall (s : bool) (m : positive) (e : Z), (ez <= e)%Z ->
            (cond_Zopp s (Z.pos m * 2 ^ (e - ez)) * 2 ^ (ez + 1074)
             = cond_Zopp s (Z.pos m * 2 ^ (e + 1074)))%Z).
  { intros s m e He.
    replace (e + 1074)%Z with ((e - ez) + (ez + 1074))%Z by lia.
    rewrite (Z.pow_add_r 2 (e - ez) (ez + 1074)) by lia.
    destruct s; cbn [cond_Zopp]; lia. }
  rewrite (Hs sx mx ex Hzx), (Hs sy my ey Hzy). exact Hr.
Qed.

Lemma float_sub_not_positive (a b : float) :
  (a <=? b)%float = true -> (0 <? a - b)%float = false.
Proof.
  rewrite float_leb_rank, float_zero_ltb, sub_spec.
  intros (Na & Nb & Hr).
  exact (SFsub_not_positive _ _ (Prim2SF_valid a) (Prim2SF_valid b) Na Nb Hr).
Qed.

(** A total that is neither above nor below zero is a zero or NaN; a day
    whose harvest is at most the consumption leaves it so. *)
Lemma day_without_surplus (cs h c : float) :
  (0 <? cs)%float = false -> (cs <? 0)%float = false ->
  (h <=? c)%float = true ->
  (0 <? cs + h - c)%float = false.
Proof.
  rewrite float_zero_ltb, float_ltb_zero. intros Hp Hn Hle.
  destruct (Prim2SF cs) as [s|s| |s m e] eqn:E;
    try (destruct s; discriminate).
  - apply float_sub_not_positive.
    apply float_leb_rank in Hle. destruct Hle as (Nh & Nc & Hr).
    apply float_leb_rank. rewrite add_spec, E.
    destruct (Prim2SF h) as [sh|sh| |sh mh eh]; try discriminate;
      cbn [SFadd]; try (destruct s, sh);
      repeat split; assumption.
  - assert (Hnan : cs = nan) by (apply Prim2SF_inj; exact E).
    rewrite Hnan, float_nan_add, float_nan_sub. reflexivity.
Qed.

Section NoSurplus.

Variable toStr : N -> positive -> string.

#[local] Abbreviation nops := (float_ops toStr).

Lemma optimize_day_without_surplus (c h : float) (st : TankState) :
  (0 <? currentStorage st)%float = false ->
  (currentStorage st <? 0)%float = false ->
  maxStorageNeeded_ st = 0%float ->
  (h <=? c)%float = true ->
  let st' := optimize_day nops c st h in
  (0 <? currentStorage st')%float = false
  /\ (currentStorage st' <? 0)%float = false
  /\ maxStorageNeeded_ st' = 0%float
  /\ overflow_ st' = overflow_ st.
Proof.
  intros Hp Hn Hm Hle. destruct st as [cs mx ov].
  cbn [currentStorage maxStorageNeeded_] in Hp, Hn, Hm. subst mx.
  pose proof (day_without_surplus cs h c Hp Hn Hle) as Ht.
  unfold optimize_day, spill, exceeds_capacity, raise_capacity, take_in_out.
  cbn [currentStorage maxStorageNeeded_ overflow_ add sub lt zero float_ops].
  destruct (cs + h - c <? 0)%float eqn:Hneg;
    cbn [currentStorage maxStorageNeeded_ overflow_].
  - change (0 <? 0)%float with false.
    cbn [currentStorage maxStorageNeeded_ overflow_].
    repeat split; reflexivity.
  - rewrite Ht. cbn [currentStorage maxStorageNeeded_ overflow_].
    rewrite Ht. cbn [currentStorage maxStorageNeeded_ overflow_].
    repeat split; try reflexivity; assumption.
Qed.

Lemma optimize_fold_without_surplus (c : float) (hs : list float)
    (st : TankState) :
  (0 <? currentStorage st)%float = false ->
  (currentStorage st <? 0)%float = false ->
  maxStorageNeeded_ st = 0%float ->
  Forall (fun h => (h <=? c)%float = true) hs ->
  maxStorageNeeded_ (fold_left (optimize_day nops c) hs st) = 0%float
  /\ overflow_ (fold_left (optimize_day nops c) hs st) = overflow_ st.
Proof.
  revert st. induction hs as [|h hs IH]; intros st Hp Hn Hm Hall;
    cbn [fold_left].
  - split; [exact Hm|reflexivity].
  - inversion Hall as [|h' hs' Hh Hrest]; subst.
    destruct (optimize_day_without_surplus c h st Hp Hn Hm Hh)
      as (Hp' & Hn' & Hm' & Ho').
    cbv zeta in Hp', Hn', Hm', Ho'.
    destruct (IH _ Hp' Hn' Hm' Hrest) as [H1 H2].
    split; [exact H1|]. rewrite H2. exact Ho'.
Qed.

End NoSurplus.

(** When no day's harvest is above the daily consumption, the optimizer
    returns a capacity of exactly 0 (and an overflow of 0): nothing is ever
    left in the tank at the end of a day. *)
Theorem no_surplus_no_capacity (toStr : N -> positive -> string)
    (harvested : list float) (dailyConsumption : float) :
  Forall (fun h => (h <=? dailyConsumption)%float = true) harvested ->
  optimizeStorageCapacity (float_ops toStr) harvested dailyConsumption
  = {| maxStorageNeeded := 0%float; overflow := 0%float |}.
Proof.
  intro Hall. unfold optimizeStorageCapacity, optimize_loop.
  destruct (optimize_fold_without_surplus toStr dailyConsumption harvested
              (tank_init (float_ops toStr)) eq_refl eq_refl eq_refl Hall)
    as [Hm Ho].
  rewrite Hm, Ho. reflexivity.
Qed.

Lemma no_surplus_no_capacity_witness :
  Forall (fun h => (h <=? 5)%float = true) [3; 5; 0.5]%float
  /\ optimizeStorageCapacity (float_ops (fun _ _ => "")) [3; 5; 0.5]%float
       5%float
     = {| maxStorageNeeded := 0%float; overflow := 0%float |}.
Proof.
  assert (H : Forall (fun h => (h <=? 5)%float = true) [3; 5; 0.5]%float)
    by (repeat constructor).
  split; [exact H|].
  exact (no_surplus_no_capacity (fun _ _ => "") [3; 5; 0.5]%float 5%float H).
Defined.

(** *** Rounding a sum *)

Local Open Scope Z_scope.

Lemma shr_1_half (mrs : shr_record) :
  0 <= shr_m mrs -> shr_m (shr_1 mrs) = shr_m mrs / 2.
Proof.
  destruct mrs as [m r s]. cbn [shr_m]. intro Hm.
  destruct m as [|p|p]; [reflexivity| |lia].
  destruct p as [p|p|]; cbn [shr_1 shr_m].
  - rewrite (Pos2Z.inj_xI p), Z.mul_comm, Z.div_add_l by lia. reflexivity.
  - rewrite (Pos2Z.inj_xO p), Z.mul_comm, Z.div_mul by lia. reflexivity.
  - reflexivity.
Qed.

Lemma iter_shr_1_quotient (p : positive) :
  forall mrs : shr_record,
  0 <= shr_m mrs ->
  shr_m (SpecFloat.iter_pos shr_1 p mrs) = shr_m mrs / 2 ^ Z.pos p.
Proof.
  induction p as [p IH|p IH|]; intros mrs H; cbn [SpecFloat.iter_pos].
  - pose proof (shr_1_nonneg mrs H) as H1.
    pose proof (iter_shr_1_nonneg p _ H1) as H2.
    rewrite (IH _ H2), (IH _ H1), (shr_1_half mrs H).
    rewrite !Z.div_div by lia. f_equal.
    rewrite (Pos2Z.inj_xI p).
    replace (2 * Z.pos p + 1) with (1 + Z.pos p + Z.pos p) by lia.
    rewrite !Z.pow_add_r by lia. change (2 ^ 1) with 2. lia.
  - pose proof (iter_shr_1_nonneg p _ H) as H2.
    rewrite (IH _ H2), (IH _ H).
    rewrite !Z.div_div by lia. f_equal.
    rewrite (Pos2Z.inj_xO p).
    replace (2 * Z.pos p) with (Z.pos p + Z.pos p) by lia.
    rewrite !Z.pow_add_r by lia. reflexivity.
  - apply shr_1_half, H.
Qed.

(** The shift [shr_fexp] applies to a mantissa at an exponent that is not
    below the least one: the bits beyond the 53rd are cut off. *)
Lemma shr_fexp_quotient (m : positive) (e : Z) (l : location) :
  -1074 <= e ->
  let k := Z.max 0 (Z.pos (digits2_pos m) - 53) in
  shr_m (fst (shr_fexp prec emax (Z.pos m) e l)) = Z.pos m / 2 ^ k
  /\ snd (shr_fexp prec emax (Z.pos m) e l) = e + k
  /\ (k = 0 -> fst (shr_fexp prec emax (Z.pos m) e l)
               = shr_record_of_loc (Z.pos m) l).
Proof.
  intros He k. unfold shr_fexp, shr, fexp, emin. cbn [Zdigits2].
  change (3 - emax - prec) with (-1074). change prec with 53.
  assert (Hm0 : shr_m (shr_record_of_loc (Z.pos m) l) = Z.pos m)
    by (destruct l as [|[ | | ]]; reflexivity).
  destruct (Z.max (Z.pos (digits2_pos m) + e - 53) (-1074) - e)
    as [|p|p] eqn:E; cbn [fst snd].
  - assert (k = 0) by lia. rewrite Hm0, H. cbn. rewrite Z.div_1_r.
    repeat split; lia.
  - assert (k = Z.pos p) by lia.
    rewrite iter_shr_1_quotient by (rewrite Hm0; lia).
    rewrite Hm0, H. repeat split; lia.
  - assert (k = 0) by lia. rewrite Hm0, H. cbn. rewrite Z.div_1_r.
    repeat split; lia.
Qed.

Lemma cut_mantissa_bounds (m : positive) :
  let k := Z.max 0 (Z.pos (digits2_pos m) - 53) in
  let q := Z.pos m / 2 ^ k in
  q * 2 ^ k <= Z.pos m < q * 2 ^ k + 2 ^ k
  /\ 0 < q < 2 ^ 53
  /\ (0 < k -> 2 ^ 52 * 2 ^ k <= q * 2 ^ k)
  /\ (k = 0 -> q = Z.pos m).
Proof.
  intros k q.
  pose proof (digits2_pos_bounds m) as [Hlo Hhi].
  set (d := Z.pos (digits2_pos m)) in *.
  assert (Hk : 0 <= k) by (unfold k; lia).
  assert (HA : 0 < 2 ^ k) by (apply Z.pow_pos_nonneg; lia).
  assert (Hdiv : q * 2 ^ k <= Z.pos m < q * 2 ^ k + 2 ^ k).
  { unfold q. pose proof (Z.div_mod (Z.pos m) (2 ^ k) ltac:(lia)) as Hdm.
    pose proof (Z.mod_pos_bound (Z.pos m) (2 ^ k) HA) as Hmod.
    rewrite (Z.mul_comm (Z.pos m / 2 ^ k)). lia. }
  split; [exact Hdiv|].
  destruct (Z.eq_dec k 0) as [Hk0|Hk0].
  - assert (Hq : q = Z.pos m) by (unfold q; rewrite Hk0; apply Z.div_1_r).
    assert (Hd : d <= 53) by (unfold k in Hk0; lia).
    assert (Hm : Z.pos m < 2 ^ 53).
    { apply Z.lt_le_trans with (2 ^ d); [exact Hhi|].
      apply Z.pow_le_mono_r; lia. }
    rewrite Hq. repeat split; try lia.
  - assert (Hd : d = k + 53) by (unfold k in *; lia).
    assert (Hhi' : Z.pos m < 2 ^ 53 * 2 ^ k).
    { rewrite <- Z.pow_add_r by lia. rewrite Z.add_comm, <- Hd. exact Hhi. }
    assert (Hlo' : 2 ^ 52 * 2 ^ k <= Z.pos m).
    { rewrite <- Z.pow_add_r by lia.
      replace (52 + k) with (d - 1) by lia. exact Hlo. }
    assert (Hq1 : q < 2 ^ 53).
    { unfold q. apply Z.div_lt_upper_bound; [exact HA|]. lia. }
    assert (Hq2 : 2 ^ 52 <= q).
    { unfold q. apply Z.div_le_lower_bound; [exact HA|]. lia. }
    repeat split; try lia.
    intros _. apply Z.mul_le_mono_nonneg_r; lia.
Qed.

Lemma round_nearest_even_step (q : Z) (l : location) :
  round_nearest_even q l = q \/ round_nearest_even q l = q + 1.
Proof.
  destruct l as [|[ | | ]]; cbn [round_nearest_even]; auto.
  destruct (Z.even q); auto.
Qed.

(** Rounding the mantissa [m] at the exponent [e]: the result is the
    number [m * 2^e] to within one part in [2^52], or an infinity when
    that is [2^972] or more. *)
Lemma binary_round_aux_close (m : positive) (e : Z) :
  -1074 <= e ->
  let r := binary_round_aux prec emax false (Z.pos m) e loc_Exact in
  let x := Z.pos m * 2 ^ (e + 1074) in
  exists v : Z,
    (2 ^ 52 - 1) * x <= 2 ^ 52 * v <= (2 ^ 52 + 1) * x
    /\ ((r = S754_infinity false /\ 2 ^ 2046 <= v)
        \/ (SF_finite r = true /\ SF_positive r = true /\ SF_rank r = v)).
Proof.
  intros He r x. unfold r, binary_round_aux.
  destruct (shr_fexp_quotient m e loc_Exact He) as (Hq & He' & Hsame).
  destruct (cut_mantissa_bounds m) as (Hdiv & Hqb & Hnorm & Hq0).
  cbv zeta in Hq, He', Hsame, Hdiv, Hqb, Hnorm, Hq0.
  set (k := Z.max 0 (Z.pos (digits2_pos m) - 53)) in *.
  destruct (shr_fexp prec emax (Z.pos m) e loc_Exact) as [mrs' e'].
  cbn [fst snd] in Hq, He', Hsame.
  set (q := Z.pos m / 2 ^ k) in *.
  set (q' := round_nearest_even (shr_m mrs') (loc_of_shr_record mrs')).
  assert (Hk : 0 <= k) by (unfold k; lia).
  assert (HA : 0 < 2 ^ k) by (apply Z.pow_pos_nonneg; lia).
  assert (Hq' : (q' = q /\ q' * 2 ^ k = q * 2 ^ k)
                \/ (0 < k /\ q' = q + 1 /\ q' * 2 ^ k = q * 2 ^ k + 2 ^ k)).
  { destruct (Z.eq_dec k 0) as [Hk0|Hk0].
    - left. unfold q'. rewrite (Hsame Hk0). cbn. rewrite (Hq0 Hk0).
      split; reflexivity.
    - destruct (round_nearest_even_step (shr_m mrs') (loc_of_shr_record mrs'))
        as [H|H]; fold q' in H; rewrite Hq in H.
      + left. rewrite H. split; reflexivity.
      + right. rewrite H. repeat split; lia. }
  assert (Hq'pos : 0 < q' <= 2 ^ 53) by lia.
  destruct q' as [|q'p|q'p] eqn:Eq'; try lia.
  assert (He1 : -1074 <= e') by lia.
  destruct (shr_fexp_quotient q'p e' loc_Exact He1) as (Hq2 & He2 & _).
  destruct (cut_mantissa_bounds q'p) as (Hdiv2 & Hqb2 & Hnorm2 & Hq20).
  cbv zeta in Hq2, He2, Hdiv2, Hqb2, Hnorm2, Hq20.
  set (k2 := Z.max 0 (Z.pos (digits2_pos q'p) - 53)) in *.
  destruct (shr_fexp prec emax (Z.pos q'p) e' loc_Exact) as [mrs'' e''].
  cbn [fst snd] in Hq2, He2.
  set (q2 := Z.pos q'p / 2 ^ k2) in *.
  assert (Hk2 : 0 <= k2) by (unfold k2; lia).
  assert (Hexact : q2 * 2 ^ k2 = Z.pos q'p).
  { destruct (Z.eq_dec k2 0) as [Hk20|Hk20].
    - rewrite (Hq20 Hk20), Hk20. cbn. lia.
    - assert (Hbig : 2 ^ 53 <= Z.pos q'p).
      { pose proof (digits2_pos_bounds q'p) as [Hlo2 _].
        apply Z.le_trans with (2 ^ (Z.pos (digits2_pos q'p) - 1));
          [|exact Hlo2].
        apply Z.pow_le_mono_r; unfold k2 in *; lia. }
      assert (Hp : Z.pos q'p = 2 ^ 53) by lia.
      unfold q2, k2. injection Hp as Hp. rewrite Hp. reflexivity. }
  rewrite Hq2.
  assert (Hq2pos : 0 < q2) by lia.
  destruct q2 as [|q2p|q2p] eqn:Eq2; try lia.
  assert (Hrank : Z.pos q2p * 2 ^ (e'' + 1074)
                  = Z.pos q'p * 2 ^ k * 2 ^ (e + 1074)).
  { rewrite He2, He', <- Hexact.
    replace (e + k + k2 + 1074) with (k2 + (k + (e + 1074))) by lia.
    rewrite !Z.pow_add_r by lia. lia. }
  assert (HP : 0 < 2 ^ (e + 1074)) by (apply Z.pow_pos_nonneg; lia).
  assert (Hgoal : (2 ^ 52 - 1) * Z.pos m <= 2 ^ 52 * (Z.pos q'p * 2 ^ k)
                  <= (2 ^ 52 + 1) * Z.pos m).
  { destruct Hq' as [[_ Hv]|(Hkpos & _ & Hv)]; rewrite Hv.
    - destruct (Z.eq_dec k 0) as [Hk0|Hk0].
      + rewrite (Hq0 Hk0), Hk0. cbn. lia.
      + specialize (Hnorm ltac:(lia)). lia.
    - specialize (Hnorm Hkpos). lia. }
  exists (Z.pos q2p * 2 ^ (e'' + 1074)). split.
  - rewrite Hrank. unfold x. set (P := 2 ^ (e + 1074)) in *.
    rewrite !Z.mul_assoc. split; apply Z.mul_le_mono_nonneg_r; lia.
  - destruct (e'' <=? emax - prec) eqn:Ee.
    + right. cbn [SF_finite SF_positive SF_rank cond_Zopp negb].
      repeat split.
    + left. split; [reflexivity|].
      apply Z.leb_gt in Ee. change (emax - prec) with 971 in Ee.
      apply Z.le_trans with (1 * 2 ^ (e'' + 1074)).
      * rewrite Z.mul_1_l. apply Z.pow_le_mono_r; lia.
      * apply Z.mul_le_mono_nonneg_r; [apply Z.pow_nonneg|]; lia.
Qed.


Lemma shl_align_same_value (m : positive) (e t : Z) :
  -1074 <= e -> -1074 <= t ->
  Z.pos (fst (shl_align m e t)) * 2 ^ (snd (shl_align m e t) + 1074)
  = Z.pos m * 2 ^ (e + 1074)
  /\ -1074 <= snd (shl_align m e t).
Proof.
  intros He Ht. unfold shl_align.
  destruct (t - e) as [|d|d] eqn:E; cbn [fst snd]; try (split; [reflexivity|lia]).
  change (Pos.iter xO m d) with (shift_pos d m).
  rewrite shift_pos_correct. change (Z.pow_pos 2 d) with (2 ^ Z.pos d).
  split; [|lia].
  replace (e + 1074) with (Z.pos d + (t + 1074)) by lia.
  rewrite (Z.pow_add_r 2 (Z.pos d) (t + 1074)) by lia. lia.
Qed.

Lemma binary_round_close (m : positive) (e : Z) :
  -1074 <= e ->
  let r := binary_round prec emax false m e in
  let x := Z.pos m * 2 ^ (e + 1074) in
  exists v : Z,
    (2 ^ 52 - 1) * x <= 2 ^ 52 * v <= (2 ^ 52 + 1) * x
    /\ ((r = S754_infinity false /\ 2 ^ 2046 <= v)
        \/ (SF_finite r = true /\ SF_positive r = true /\ SF_rank r = v)).
Proof.
  intros He r x. unfold r, x, binary_round.
  set (t := fexp prec emax (Z.pos (digits2_pos m) + e)).
  assert (Ht : -1074 <= t).
  { unfold t, fexp, emin. change (3 - emax - prec) with (-1074). lia. }
  destruct (shl_align_same_value m e t He Ht) as [Hv He'].
  destruct (shl_align m e t) as [mz ez]. cbn [fst snd] in Hv, He'.
  rewrite <- Hv. apply binary_round_aux_close. exact He'.
Qed.

(** The binary64 sum of two numbers that are not below zero: when it is
    not an infinity, neither is a term, and it is the exact sum to within
    one part in [2^52]; and it is not an infinity when the terms are not
    and the exact sum is below [2^971]. *)
Lemma SFadd_close (x y : spec_float) :
  valid_binary x = true -> valid_binary y = true ->
  SF_nonneg x = true -> SF_nonneg y = true ->
  let r := SFadd prec emax x y in
  SF_nonneg r = true
  /\ (SF_finite r = true ->
      SF_finite x = true /\ SF_finite y = true
      /\ (2 ^ 52 - 1) * (SF_rank x + SF_rank y) <= 2 ^ 52 * SF_rank r
         <= (2 ^ 52 + 1) * (SF_rank x + SF_rank y))
  /\ (SF_finite x = true -> SF_finite y = true ->
      SF_rank x + SF_rank y < 2 ^ 2045 -> SF_finite r = true).
Proof.
  intros Hx Hy Px Py.
  destruct x as [sx|sx| |sx mx ex]; destruct y as [sy|sy| |sy my ey];
    try discriminate; cbn [SF_nonneg] in Px, Py;
    try (apply negb_true_iff in Px; subst sx);
    try (apply negb_true_iff in Py; subst sy);
    unfold valid_binary in Hx, Hy; cbn [SpecFloat.valid_binary] in Hx, Hy;
    try (pose proof (finite_rank_bounds mx ex Hx));
    try (pose proof (finite_rank_bounds my ey Hy));
    cbn [SFadd]; cbv zeta;
    try (destruct sx, sy; cbn [SF_nonneg SF_finite SF_rank cond_Zopp negb];
         (split; [reflexivity|split; [intros _; repeat split; lia|auto]]));
    try (cbn [SF_nonneg SF_finite SF_rank cond_Zopp negb];
         (split; [reflexivity
                 |split; [intros H'; try discriminate H'; repeat split; lia
                         |intros H1 H2 _; first [exact H1|exact H2|reflexivity]]])).
  apply bounded_facts in Hx, Hy.
  destruct Hx as (Hex & _). destruct Hy as (Hey & _).
  set (ez := Z.min ex ey).
  assert (Hzx : ez <= ex) by (unfold ez; lia).
  assert (Hzy : ez <= ey) by (unfold ez; lia).
  assert (Hz : -1074 <= ez) by (unfold ez; lia).
  cbn [cond_Zopp SF_rank SF_finite].
  set (ax := fst (shl_align mx ex ez)). set (ay := fst (shl_align my ey ez)).
  assert (Hax : Z.pos ax * 2 ^ (ez + 1074) = Z.pos mx * 2 ^ (ex + 1074)).
  { unfold ax. rewrite (shl_align_value mx ex ez Hzx).
    replace (ex + 1074) with ((ex - ez) + (ez + 1074)) by lia.
    rewrite (Z.pow_add_r 2 (ex - ez) (ez + 1074)) by lia. lia. }
  assert (Hay : Z.pos ay * 2 ^ (ez + 1074) = Z.pos my * 2 ^ (ey + 1074)).
  { unfold ay. rewrite (shl_align_value my ey ez Hzy).
    replace (ey + 1074) with ((ey - ez) + (ez + 1074)) by lia.
    rewrite (Z.pow_add_r 2 (ey - ez) (ez + 1074)) by lia. lia. }
  change (Z.pos ax + Z.pos ay) with (Z.pos (ax + ay)).
  cbn [binary_normalize].
  destruct (binary_round_close (ax + ay) ez Hz) as (v & Hb & Hr).
  cbv zeta in Hb, Hr.
  rewrite Pos2Z.inj_add, Z.mul_add_distr_r, Hax, Hay in Hb.
  change (2 ^ 2046) with (2 * 2 ^ 2045) in Hr.
  destruct Hr as [[Hinf Hbig]|(Hfin & Hpos & Hrank)].
  - rewrite Hinf. cbn [SF_nonneg SF_finite negb].
    split; [reflexivity|]. split; [discriminate|].
    intros _ _ Hsmall. lia.
  - destruct (binary_round prec emax false (ax + ay) ez) as [s|s| |s m e];
      try discriminate.
    cbn [SF_positive] in Hpos. apply negb_true_iff in Hpos. subst s.
    split; [reflexivity|]. split; [|reflexivity].
    intros _. rewrite Hrank. repeat split; apply Hb.
Qed.


Lemma float_is_finite_SF (x : float) :
  is_finite x = SF_finite (Prim2SF x).
Proof. exact (float_is_finite_spec x). Qed.

Lemma float_units_nonneg (x : float) :
  (0 <=? x)%float = true -> 0 <= float_units x.
Proof.
  rewrite float_leb_rank. change (Prim2SF 0) with (S754_zero false).
  cbn [SF_rank]. unfold float_units. intros (_ & _ & H). exact H.
Qed.

Lemma total_units_nonneg (l : list float) :
  Forall (fun x => (0 <=? x)%float = true) l -> 0 <= total_units l.
Proof.
  induction 1 as [|x l Hx Hl IH]; cbn [total_units]; [lia|].
  pose proof (float_units_nonneg x Hx). lia.
Qed.

(** One binary64 addition of numbers that are not below zero. *)
Lemma float_add_close (a b : float) :
  (0 <=? a)%float = true -> (0 <=? b)%float = true ->
  (0 <=? a + b)%float = true
  /\ (is_finite (a + b) = true ->
      is_finite a = true /\ is_finite b = true
      /\ (2 ^ 52 - 1) * (float_units a + float_units b)
         <= 2 ^ 52 * float_units (a + b)
         <= (2 ^ 52 + 1) * (float_units a + float_units b))
  /\ (is_finite a = true -> is_finite b = true ->
      float_units a + float_units b < 2 ^ 2045 ->
      is_finite (a + b) = true).
Proof.
  rewrite !float_zero_leb, !float_is_finite_SF. unfold float_units.
  rewrite add_spec. intros Ha Hb.
  exact (SFadd_close _ _ (Prim2SF_valid a) (Prim2SF_valid b) Ha Hb).
Qed.

(** The binary64 sum of a series added from left to right, as
    [reduce((sum, val) => sum + val, acc)] adds it: when the result is
    finite so is every term, and each of the additions has moved it from
    the exact total by at most one part in [2^52]; and the result is
    finite when the terms are and the exact total is small enough. *)
Lemma float_sum_close (l : list float) :
  forall acc : float,
  (0 <=? acc)%float = true ->
  Forall (fun x => (0 <=? x)%float = true) l ->
  let r := fold_left PrimFloat.add l acc in
  let k := Z.of_nat (List.length l) in
  (0 <=? r)%float = true
  /\ (is_finite r = true ->
      is_finite acc = true
      /\ Forall (fun x => is_finite x = true) l
      /\ (2 ^ 52 - 1) ^ k * (float_units acc + total_units l)
         <= (2 ^ 52) ^ k * float_units r
         <= (2 ^ 52 + 1) ^ k * (float_units acc + total_units l))
  /\ (is_finite acc = true ->
      Forall (fun x => is_finite x = true) l ->
      (2 ^ 52 + 1) ^ k * (float_units acc + total_units l)
        < (2 ^ 52) ^ k * 2 ^ 2045 ->
      is_finite r = true).
Proof.
  induction l as [|x l IH]; intros acc Hacc Hl; cbv zeta;
    cbn [fold_left List.length total_units].
  - split; [exact Hacc|]. split.
    + intro Hf. split; [exact Hf|]. split; [constructor|].
      change (Z.of_nat 0) with 0. rewrite !Z.pow_0_r. lia.
    + intros Hf _ _. exact Hf.
  - inversion Hl as [|x' l' Hx Hrest]; subst.
    destruct (float_add_close acc x Hacc Hx) as (Hsum & Hstep & Hstays).
    destruct (IH (acc + x)%float Hsum Hrest) as (Hr & Hbound & Hfinite).
    cbv zeta in Hr, Hbound, Hfinite.
    pose proof (total_units_nonneg l Hrest) as Ht.
    pose proof (float_units_nonneg acc Hacc) as Ha0.
    pose proof (float_units_nonneg x Hx) as Hx0.
    pose proof (float_units_nonneg _ Hsum) as Hs0.
    rewrite Nat2Z.inj_succ, !Z.pow_succ_r by lia.
    set (k := Z.of_nat (List.length l)) in *.
    assert (Hk : 0 <= k) by (unfold k; lia).
    assert (HL : 0 <= (2 ^ 52 - 1) ^ k) by (apply Z.pow_nonneg; lia).
    assert (HM : 0 < (2 ^ 52) ^ k) by (apply Z.pow_pos_nonneg; lia).
    assert (HMU : (2 ^ 52) ^ k <= (2 ^ 52 + 1) ^ k)
      by (apply Z.pow_le_mono_l; lia).
    set (R := float_units (fold_left PrimFloat.add l (acc + x)%float)) in *.
    set (s := float_units (acc + x)%float) in *.
    set (a := float_units acc) in *. set (b := float_units x) in *.
    set (t := total_units l) in *.
    set (L := (2 ^ 52 - 1) ^ k) in *. set (M := (2 ^ 52) ^ k) in *.
    set (U := (2 ^ 52 + 1) ^ k) in *.
    split; [exact Hr|]. split.
    + intro Hf.
      destruct (Hbound Hf) as (Hfs & Hfl & Hlo & Hhi).
      destruct (Hstep Hfs) as (Hfa & Hfx & Hslo & Hshi).
      split; [exact Hfa|]. split; [constructor; assumption|].
      split.
      * apply Z.le_trans with (L * (2 ^ 52 * (s + t))).
        -- rewrite <- Z.mul_assoc, (Z.mul_comm (2 ^ 52 - 1) (L * _)),
             <- Z.mul_assoc.
           apply Z.mul_le_mono_nonneg_l; [exact HL|]. lia.
        -- replace (2 ^ 52 * M * R) with (2 ^ 52 * (M * R)) by ring.
           replace (L * (2 ^ 52 * (s + t)))
             with (2 ^ 52 * (L * (s + t))) by ring.
           apply Z.mul_le_mono_nonneg_l; lia.
      * apply Z.le_trans with (U * (2 ^ 52 * (s + t))).
        -- replace (2 ^ 52 * M * R) with (2 ^ 52 * (M * R)) by ring.
           replace (U * (2 ^ 52 * (s + t)))
             with (2 ^ 52 * (U * (s + t))) by ring.
           apply Z.mul_le_mono_nonneg_l; lia.
        -- replace ((2 ^ 52 + 1) * U * (a + (b + t)))
             with (U * ((2 ^ 52 + 1) * (a + (b + t)))) by ring.
           apply Z.mul_le_mono_nonneg_l; [lia|]. lia.
    + intros Hfa Hfl Hsmall.
      inversion Hfl as [|x' l' Hfx Hfrest]; subst.
      assert (Hab : a + b < 2 ^ 2045).
      { apply (Z.mul_lt_mono_pos_l (2 ^ 52 * M)); [lia|].
        apply Z.le_lt_trans with ((2 ^ 52 + 1) * U * (a + (b + t)));
          [|exact Hsmall].
        apply Z.le_trans with (2 ^ 52 * M * (a + (b + t))).
        - apply Z.mul_le_mono_nonneg_l; lia.
        - apply Z.mul_le_mono_nonneg_r; [lia|].
          apply Z.mul_le_mono_nonneg; lia. }
      pose proof (Hstays Hfa Hfx Hab) as Hfs.
      destruct (Hstep Hfs) as (_ & _ & _ & Hshi).
      apply (Hfinite Hfs Hfrest).
      apply (Z.mul_lt_mono_pos_l (2 ^ 52)); [lia|].
      apply Z.le_lt_trans with ((2 ^ 52 + 1) * U * (a + (b + t))).
      * replace (2 ^ 52 * (U * (s + t))) with (U * (2 ^ 52 * (s + t))) by ring.
        replace ((2 ^ 52 + 1) * U * (a + (b + t)))
          with (U * ((2 ^ 52 + 1) * (a + (b + t)))) by ring.
        apply Z.mul_le_mono_nonneg_l; lia.
      * replace (2 ^ 52 * (M * 2 ^ 2045)) with (2 ^ 52 * M * 2 ^ 2045) by ring.
        exact Hsmall.
Qed.

Local Close Scope Z_scope.

(** *** Exact values *)

(** The shape of a finite number gives its exact value: the number of
    units over [2^1074]. *)
Lemma float_shape_units (x : float) :
  is_finite x = true ->
  exists (negative : bool) (num : N) (den : positive),
    float_shape x = ShapeFinite negative num den
    /\ (cond_Zopp negative (Z.of_N num) * 2 ^ 1074
        = float_units x * Z.pos den)%Z.
Proof.
  rewrite float_is_finite_SF. unfold float_shape, float_units.
  pose proof (Prim2SF_valid x) as Hv.
  destruct (Prim2SF x) as [s|s| |s m e]; try discriminate. 
  - intros _. exists false, 0%N, 1%positive. split; reflexivity.
  - intros _. unfold valid_binary in Hv. cbn [SpecFloat.valid_binary] in Hv.
    apply bounded_facts in Hv. destruct Hv as (He & _).
    cbn [SF_rank].
    destruct e as [|p|p].
    + exists s, (N.pos m), 1%positive. split; [reflexivity|].
      cbn [Z.of_N Z.add]. destruct s; cbn [cond_Zopp]; lia.
    + exists s, (N.pos (m * 2 ^ p)), 1%positive. split; [reflexivity|].
      cbn [Z.of_N]. rewrite Pos2Z.inj_mul, Pos2Z.inj_pow.
      rewrite (Z.pow_add_r 2 (Z.pos p) 1074) by lia.
      destruct s; cbn [cond_Zopp]; lia.
    + exists s, (N.pos m), (2 ^ p)%positive. split; [reflexivity|].
      cbn [Z.of_N]. rewrite Pos2Z.inj_pow.
      assert (H : (2 ^ 1074 = 2 ^ (Z.neg p + 1074) * 2 ^ Z.pos p)%Z).
      { rewrite <- Z.pow_add_r by lia. f_equal. lia. }
      rewrite H. destruct s; cbn [cond_Zopp]; lia.
Qed.


Lemma units_value_plus (a b : Z) :
  (units_value (a + b) == units_value a + units_value b)%Q.
Proof.
  unfold units_value, Qeq, Qplus. cbn [Qnum Qden].
  rewrite Pos2Z.inj_mul. ring.
Qed.

Lemma units_value_le (a b : Z) :
  (a <= b)%Z -> (units_value a <= units_value b)%Q.
Proof.
  intro H. unfold units_value, Qle. cbn [Qnum Qden].
  apply Z.mul_le_mono_nonneg_r; [lia|exact H].
Qed.

Lemma float_value_units (toStr : N -> positive -> string) (x : float) :
  is_finite x = true ->
  exists q : Q,
    value_of (float_ops toStr) (JSNumber x) = Some q
    /\ (q == units_value (float_units x))%Q.
Proof.
  intro Hf. destruct (float_shape_units x Hf) as (neg & num & den & Hs & Hu).
  cbn [value_of shape float_ops]. rewrite Hs. cbn [shape_value].
  eexists. split; [reflexivity|].
  unfold units_value, Qeq.
  destruct neg; cbn [Qnum Qden Qopp cond_Zopp] in *;
    rewrite Pos2Z.inj_pow; change (Z.pos 2 ^ Z.pos 1074)%Z with (2 ^ 1074)%Z;
    lia.
Qed.

Lemma float_value_finite (toStr : N -> positive -> string) (x : float)
    (q : Q) :
  value_of (float_ops toStr) (JSNumber x) = Some q -> is_finite x = true.
Proof.
  cbn [value_of shape float_ops]. rewrite float_is_finite_SF.
  unfold float_shape.
  destruct (Prim2SF x) as [s|s| |s m e]; cbn [shape_value SF_finite];
    try discriminate; reflexivity.
Qed.

(** The exact total of a series of finite numbers. *)
Lemma exact_total_units (toStr : N -> positive -> string) (l : list float) :
  Forall (fun x => is_finite x = true) l ->
  exists T : Q,
    sum_values (map (fun x => value_of (float_ops toStr) (JSNumber x)) l)
    = Some T
    /\ (T == units_value (total_units l))%Q.
Proof.
  induction 1 as [|x l Hx Hl IH]; cbn [map sum_values total_units].
  - exists 0%Q. split; reflexivity.
  - destruct IH as (T & HT & HTu).
    destruct (float_value_units toStr x Hx) as (q & Hq & Hqu).
    rewrite Hq, HT. exists (q + T)%Q. split; [reflexivity|].
    rewrite units_value_plus, Hqu, HTu. reflexivity.
Qed.

Lemma exact_total_finite (toStr : N -> positive -> string) (l : list float)
    (T : Q) :
  sum_values (map (fun x => value_of (float_ops toStr) (JSNumber x)) l)
  = Some T ->
  Forall (fun x => is_finite x = true) l.
Proof.
  revert T. induction l as [|x l IH]; intros T; cbn [map sum_values].
  - constructor.
  - destruct (value_of (float_ops toStr) (JSNumber x)) as [q|] eqn:Hq;
      [|discriminate].
    destruct (sum_values _) as [T'|] eqn:HT; [|discriminate].
    intros _. constructor.
    + exact (float_value_finite toStr x q Hq).
    + exact (IH T' eq_refl).
Qed.

Lemma total_units_app (l1 l2 : list float) :
  total_units (l1 ++ l2) = (total_units l1 + total_units l2)%Z.
Proof.
  induction l1 as [|x l1 IH]; cbn [app total_units]; [reflexivity|].
  rewrite IH. ring.
Qed.

Lemma Forall_firstn {A : Type} (P : A -> Prop) (n : nat) (l : list A) :
  Forall P l -> Forall P (firstn n l).
Proof.
  intro H. revert n. induction H as [|x l Hx Hl IH]; intros [|n];
    cbn [firstn]; constructor; auto.
Qed.

Lemma Forall_skipn {A : Type} (P : A -> Prop) (n : nat) (l : list A) :
  Forall P l -> Forall P (skipn n l).
Proof.
  intro H. revert n. induction H as [|x l Hx Hl IH]; intros [|n];
    cbn [skipn]; try constructor; auto.
Qed.

Lemma total_units_split (n : nat) (l : list float) :
  (total_units (firstn n l) + total_units (skipn n l))%Z = total_units l.
Proof.
  rewrite <- total_units_app, firstn_skipn. reflexivity.
Qed.

Lemma float_below_1e21 (x : float) :
  is_finite x = true ->
  (0 <= float_units x < 10 ^ 21 * 2 ^ 1074)%Z ->
  below_1e21 x = true.
Proof.
  intros Hf [Hlo Hhi].
  destruct (float_shape_units x Hf) as (neg & num & den & Hs & Hu).
  unfold below_1e21. rewrite Hs. apply negb_true_iff, N.leb_gt.
  assert (HP : (0 < 2 ^ 1074)%Z) by (apply Z.pow_pos_nonneg; lia).
  set (P := (2 ^ 1074)%Z) in *.
  assert (H : (Z.of_N num * P < 10 ^ 21 * Z.pos den * P)%Z).
  { destruct neg; cbn [cond_Zopp] in Hu.
    - assert (Hn : (Z.of_N num * P = 0)%Z) by nia. rewrite Hn. nia.
    - rewrite Hu.
      replace (10 ^ 21 * Z.pos den * P)%Z
        with (10 ^ 21 * P * Z.pos den)%Z by ring.
      apply Z.mul_lt_mono_pos_r; lia. }
  apply Z.mul_lt_mono_pos_r in H; [|exact HP]. lia.
Qed.

(** The most that thirty additions raise or lower a sum. *)
Lemma thirty_additions_value :
  ((1 + (1 # 2 ^ 52)) ^ 30 == Qmake ((2 ^ 52 + 1) ^ 30) ((2 ^ 52) ^ 30))%Q
  /\ ((1 - (1 # 2 ^ 52)) ^ 30 == Qmake ((2 ^ 52 - 1) ^ 30) ((2 ^ 52) ^ 30))%Q.
Proof. split; vm_compute; reflexivity. Qed.

Lemma units_within_thirty (a t : Z) :
  ((2 ^ 52 - 1) ^ 30 * t <= (2 ^ 52) ^ 30 * a
   <= (2 ^ 52 + 1) ^ 30 * t)%Z ->
  (units_value t * (1 - (1 # 2 ^ 52)) ^ 30 <= units_value a
   /\ units_value a <= units_value t * (1 + (1 # 2 ^ 52)) ^ 30)%Q.
Proof.
  intros [Hlo Hhi]. destruct thirty_additions_value as [Hu Hl].
  rewrite Hu, Hl. unfold units_value, Qle, Qmult. cbn [Qnum Qden].
  rewrite !Pos2Z.inj_mul.
  set (D := Z.pos (2 ^ 1074)). assert (HD : (0 < D)%Z) by (unfold D; lia).
  replace (Z.pos ((2 ^ 52) ^ 30)) with ((2 ^ 52) ^ 30)%Z by reflexivity.
  set (M := ((2 ^ 52) ^ 30)%Z) in *. set (U := ((2 ^ 52 + 1) ^ 30)%Z) in *.
  set (L := ((2 ^ 52 - 1) ^ 30)%Z) in *.
  split.
  - replace (t * L * D)%Z with (L * t * D)%Z by ring.
    replace (a * (D * M))%Z with (M * a * D)%Z by ring.
    apply Z.mul_le_mono_nonneg_r; lia.
  - replace (t * U * D)%Z with (U * t * D)%Z by ring.
    replace (a * (D * M))%Z with (M * a * D)%Z by ring.
    apply Z.mul_le_mono_nonneg_r; lia.
Qed.

(** *** The monthly sums of a binary64 series *)

Section MonthlySums.

Variable toStr : N -> positive -> string.

#[local] Abbreviation bops := (float_ops toStr).
#[local] Abbreviation not_below_zero :=
  (Forall (fun x : float => (0 <=? x)%float = true)).
#[local] Abbreviation all_finite :=
  (Forall (fun x : float => is_finite x = true)).

(** The entry for a block of 30 days: its value is the exact total of the
    block, moved by the 30 additions and by the rounding to tenths. *)
Lemma block_entry_close (b : list float) :
  not_below_zero b -> all_finite b -> List.length b = 30 ->
  (total_units b <= 10 ^ 20 * 2 ^ 1074)%Z ->
  exists v : Q,
    fixed_value (toFixed1 bops (reduce_sum bops b)) = Some v
    /\ (units_value (total_units b) * (1 - (1 # 2 ^ 52)) ^ 30 - (1 # 20) <= v
        /\ v <= units_value (total_units b) * (1 + (1 # 2 ^ 52)) ^ 30
                + (1 # 20))%Q.
Proof.
  intros Hnn Hfin Hlen Hsmall.
  change (reduce_sum bops b) with (fold_left PrimFloat.add b 0%float).
  destruct (float_sum_close b 0%float eq_refl Hnn) as (Hr & Hbound & Hstays).
  cbv zeta in Hr, Hbound, Hstays. rewrite Hlen in Hbound, Hstays.
  change (Z.of_nat 30) with 30%Z in Hbound, Hstays.
  change (float_units 0) with 0%Z in Hbound, Hstays.
  rewrite Z.add_0_l in Hbound, Hstays.
  set (r := fold_left PrimFloat.add b 0%float) in *.
  pose proof (total_units_nonneg b Hnn) as Ht0.
  set (t := total_units b) in *.
  assert (Hrf : is_finite r = true).
  { apply Hstays; [reflexivity|exact Hfin|].
    apply Z.le_lt_trans with ((2 ^ 52 + 1) ^ 30 * (10 ^ 20 * 2 ^ 1074))%Z;
      [apply Z.mul_le_mono_nonneg_l; [apply Z.pow_nonneg; lia|exact Hsmall]|].
    vm_compute. reflexivity. }
  destruct (Hbound Hrf) as (_ & _ & Hlo & Hhi).
  pose proof (float_units_nonneg r Hr) as Hr0.
  assert (Hbelow : below_1e21 r = true).
  { apply float_below_1e21; [exact Hrf|]. split; [exact Hr0|].
    apply (Z.mul_lt_mono_pos_l ((2 ^ 52) ^ 30)); [vm_compute; reflexivity|].
    apply Z.le_lt_trans with ((2 ^ 52 + 1) ^ 30 * t)%Z; [exact Hhi|].
    apply Z.le_lt_trans with ((2 ^ 52 + 1) ^ 30 * (10 ^ 20 * 2 ^ 1074))%Z;
      [apply Z.mul_le_mono_nonneg_l; [apply Z.pow_nonneg; lia|exact Hsmall]|].
    vm_compute. reflexivity. }
  destruct (float_rendering_close toStr r Hbelow)
    as (v & xv & Hv & Hxv & Hvlo & Hvhi).
  destruct (float_value_units toStr r Hrf) as (q & Hq & Hqu).
  rewrite Hq in Hxv. injection Hxv as Hxv. subst xv.
  destruct (units_within_thirty (float_units r) t (conj Hlo Hhi))
    as [Hulo Huhi].
  exists v. split; [exact Hv|].
  rewrite Hqu in Hvlo, Hvhi. split; lra.
Qed.

Lemma total_units_firstn_le (n : nat) (l : list float) :
  not_below_zero l -> (total_units (firstn n l) <= total_units l)%Z.
Proof.
  intro H. pose proof (total_units_split n l) as Hs.
  pose proof (total_units_nonneg _ (Forall_skipn _ n l H)). lia.
Qed.

Lemma total_units_skipn_le (n : nat) (l : list float) :
  not_below_zero l -> (total_units (skipn n l) <= total_units l)%Z.
Proof.
  intro H. pose proof (total_units_split n l) as Hs.
  pose proof (total_units_nonneg _ (Forall_firstn _ n l H)). lia.
Qed.

Lemma total_units_blocks (l : list float) (k i : nat) :
  total_units (firstn (30 * S k) (skipn (i * 30) l))
  = (total_units (firstn 30 (skipn (i * 30) l))
     + total_units (firstn (30 * k) (skipn (S i * 30) l)))%Z.
Proof.
  replace (30 * S k) with (30 + 30 * k) by lia.
  rewrite <- (firstn_skipn 30 (firstn (30 + 30 * k) (skipn (i * 30) l))).
  rewrite total_units_app, firstn_firstn, skipn_firstn_comm, skipn_skipn.
  replace (Nat.min 30 (30 + 30 * k)) with 30 by lia.
  replace (30 + 30 * k - 30) with (30 * k) by lia.
  replace (30 + i * 30) with (S i * 30) by lia.
  reflexivity.
Qed.

(** The values of the monthly rainfall entries add up to the exact total
    of their days, moved by at most the 30 additions of each block and a
    twentieth per entry. *)
Lemma monthly_values_close (l : list float) (k : nat) :
  not_below_zero l -> all_finite l ->
  (total_units l <= 10 ^ 20 * 2 ^ 1074)%Z ->
  forall i : nat,
  (i + k) * 30 <= List.length l ->
  exists S : Q,
    sum_values
      (map (fun j => fixed_value
                       (toFixed1 bops
                          (reduce_sum bops (firstn 30 (skipn (j * 30) l)))))
         (seq i k)) = Some S
    /\ (units_value (total_units (firstn (30 * k) (skipn (i * 30) l)))
          * (1 - (1 # 2 ^ 52)) ^ 30
        - inject_Z (Z.of_nat k) * (1 # 20) <= S
        /\ S <= units_value (total_units (firstn (30 * k) (skipn (i * 30) l)))
                  * (1 + (1 # 2 ^ 52)) ^ 30
                + inject_Z (Z.of_nat k) * (1 # 20))%Q.
Proof.
  intros Hnn Hfin Hsmall.
  induction k as [|k IH]; intros i Hlen; cbn [seq map sum_values].
  - exists 0%Q. split; [reflexivity|].
    rewrite Nat.mul_0_r. cbn [firstn total_units].
    change (inject_Z (Z.of_nat 0)) with 0%Q.
    change (units_value 0) with (0 # 2 ^ 1074)%Q.
    assert (H0 : ((0 # 2 ^ 1074) == 0)%Q) by reflexivity.
    rewrite H0. split; lra.
  - set (b := firstn 30 (skipn (i * 30) l)).
    assert (Hb : List.length b = 30).
    { unfold b. rewrite length_firstn, length_skipn. lia. }
    assert (Hbt : (total_units b <= 10 ^ 20 * 2 ^ 1074)%Z).
    { apply Z.le_trans with (total_units (skipn (i * 30) l)).
      - apply total_units_firstn_le, Forall_skipn, Hnn.
      - apply Z.le_trans with (total_units l); [|exact Hsmall].
        apply total_units_skipn_le, Hnn. }
    destruct (block_entry_close b
                (Forall_firstn _ 30 _ (Forall_skipn _ (i * 30) l Hnn))
                (Forall_firstn _ 30 _ (Forall_skipn _ (i * 30) l Hfin))
                Hb Hbt) as (v & Hv & Hvlo & Hvhi).
    destruct (IH (S i) ltac:(lia)) as (S' & HS' & Hlo & Hhi).
    rewrite Hv, HS'. exists (v + S')%Q. split; [reflexivity|].
    rewrite total_units_blocks. fold b. rewrite units_value_plus.
    rewrite Nat2Z.inj_succ. unfold Z.succ. rewrite inject_Z_plus.
    change (inject_Z 1) with 1%Q.
    set (u := ((1 + (1 # 2 ^ 52)) ^ 30)%Q) in *.
    set (d := ((1 - (1 # 2 ^ 52)) ^ 30)%Q) in *.
    split; lra.
Qed.

End MonthlySums.

(** The most that [n] additions lower a sum. *)
Lemma additions_lower_value (n : Z) :
  (0 <= n)%Z ->
  ((1 - (1 # 2 ^ 52)) ^ n * inject_Z ((2 ^ 52) ^ n)
   == inject_Z ((2 ^ 52 - 1) ^ n))%Q.
Proof.
  intro Hn.
  rewrite (Zpower_Qpower (2 ^ 52) n Hn), (Zpower_Qpower (2 ^ 52 - 1) n Hn).
  rewrite <- Qmult_power.
  assert (H : ((1 - (1 # 2 ^ 52)) * inject_Z (2 ^ 52)
               == inject_Z (2 ^ 52 - 1))%Q) by (vm_compute; reflexivity).
  rewrite H. reflexivity.
Qed.

Lemma units_above_lowered (a t n : Z) :
  (0 <= n)%Z ->
  ((2 ^ 52 - 1) ^ n * t <= (2 ^ 52) ^ n * a)%Z ->
  (units_value t * (1 - (1 # 2 ^ 52)) ^ n <= units_value a)%Q.
Proof.
  intros Hn H.
  assert (HM : (0 < (2 ^ 52) ^ n)%Z) by (apply Z.pow_pos_nonneg; lia).
  apply (Qmult_le_r _ _ (inject_Z ((2 ^ 52) ^ n))).
  - unfold Qlt, inject_Z. cbn [Qnum Qden]. lia.
  - rewrite <- Qmult_assoc, (additions_lower_value n Hn).
    unfold units_value, Qle, Qmult, inject_Z. cbn [Qnum Qden].
    set (D := Z.pos (2 ^ 1074 * 1)).
    assert (HD : (0 < D)%Z) by (unfold D; lia).
    replace (t * (2 ^ 52 - 1) ^ n * D)%Z
      with ((2 ^ 52 - 1) ^ n * t * D)%Z by ring.
    replace (a * (2 ^ 52) ^ n * D)%Z with ((2 ^ 52) ^ n * a * D)%Z by ring.
    apply Z.mul_le_mono_nonneg_r; lia.
Qed.

(** The binary64 total of a series, as [reduce] adds it, is not below the
    exact total lowered by the additions. *)
Lemma float_total_above (toStr : N -> positive -> string) (l : list float) :
  Forall (fun x => (0 <=? x)%float = true) l ->
  is_finite (reduce_sum (float_ops toStr) l) = true ->
  exists t : Q,
    value_of (float_ops toStr) (JSNumber (reduce_sum (float_ops toStr) l))
    = Some t
    /\ (units_value (total_units l)
        * (1 - (1 # 2 ^ 52)) ^ Z.of_nat (List.length l) <= t)%Q.
Proof.
  intros Hnn Hf.
  change (reduce_sum (float_ops toStr) l)
    with (fold_left PrimFloat.add l 0%float) in *.
  destruct (float_sum_close l 0%float eq_refl Hnn) as (_ & Hbound & _).
  cbv zeta in Hbound. destruct (Hbound Hf) as (_ & _ & Hlo & _).
  change (float_units 0) with 0%Z in Hlo. rewrite Z.add_0_l in Hlo.
  destruct (float_value_units toStr _ Hf) as (t & Ht & Htu).
  exists t. split; [exact Ht|]. rewrite Htu.
  apply units_above_lowered; [lia|exact Hlo].
Qed.

(** C8 (as amended): for every series of binary64 rainfall values that are
    not below zero and whose exact total is at most [10^20], the rainfall
    values of the monthly entries add up to the exact total of the first
    [30 * (n / 30)] days to within the effect of the 30 binary64 additions
    of each block, one part in [2^52] each, and of the rounding of each
    entry to one decimal, 0.05 up or down.  The total of the covered days
    is the total of the full series less the rainfall of the dropped
    days, which is not negative; so the sum of the entries is at most the
    exact total rainfall times [(1 + 2^-52)^30] plus 0.05 per entry.  The
    total the program itself computes, the binary64 sum of the series, is
    the exact total lowered by at most its [n] additions; where it is
    finite, the sum of the entries less 0.05 per entry, times
    [(1 - 2^-52)^n], is at most that total times [(1 + 2^-52)^30]. *)
Theorem monthly_rainfall_sum_bound (toStr : N -> positive -> string)
    (rainfallData harvestedWater : list float) (total : Q) :
  let ops := float_ops toStr in
  let n := List.length rainfallData in
  let k := n / 30 in
  let slack := (inject_Z (Z.of_nat k) * (1 # 20))%Q in
  let exact := fun l : list float =>
                 sum_values (map (fun x => value_of ops (JSNumber x)) l) in
  Forall (fun x => (0 <=? x)%float = true) rainfallData ->
  exact rainfallData = Some total ->
  (total <= inject_Z (10 ^ 20))%Q ->
  exists S kept dropped : Q,
    sum_values
      (map (fun e => value_of ops (Monthly.rainfall e))
         (getMonthlyData ops rainfallData harvestedWater)) = Some S
    /\ exact (firstn (30 * k) rainfallData) = Some kept
    /\ exact (skipn (30 * k) rainfallData) = Some dropped
    /\ (kept + dropped == total)%Q
    /\ (0 <= dropped)%Q
    /\ (kept * (1 - (1 # 2 ^ 52)) ^ 30 - slack <= S)%Q
    /\ (S <= kept * (1 + (1 # 2 ^ 52)) ^ 30 + slack)%Q
    /\ (S <= total * (1 + (1 # 2 ^ 52)) ^ 30 + slack)%Q
    /\ (is_finite (reduce_sum ops rainfallData) = true ->
        exists t : Q,
          value_of ops (JSNumber (reduce_sum ops rainfallData)) = Some t
          /\ ((S - slack) * (1 - (1 # 2 ^ 52)) ^ Z.of_nat n
              <= t * (1 + (1 # 2 ^ 52)) ^ 30)%Q).
Proof.
  cbv zeta. intros Hnn Htotal Hsmall.
  set (k := List.length rainfallData / 30).
  pose proof (exact_total_finite toStr rainfallData total Htotal) as Hfin.
  destruct (exact_total_units toStr rainfallData Hfin) as (T & HT & HTu).
  rewrite Htotal in HT. injection HT as HT. subst T.
  assert (Hunits : (total_units rainfallData <= 10 ^ 20 * 2 ^ 1074)%Z).
  { rewrite HTu in Hsmall. unfold units_value, Qle, inject_Z in Hsmall.
    cbn [Qnum Qden] in Hsmall. rewrite Pos2Z.inj_pow in Hsmall.
    change (Z.pos 2 ^ Z.pos 1074)%Z with (2 ^ 1074)%Z in Hsmall. lia. }
  assert (Hk : (0 + k) * 30 <= List.length rainfallData).
  { unfold k. pose proof (Nat.Div0.mul_div_le (List.length rainfallData) 30).
    lia. }
  destruct (monthly_values_close toStr rainfallData k Hnn Hfin Hunits 0 Hk)
    as (S & HS & Hlo & Hhi).
  change (skipn (0 * 30) rainfallData) with rainfallData in Hlo, Hhi.
  destruct (exact_total_units toStr (firstn (30 * k) rainfallData)
              (Forall_firstn _ _ _ Hfin)) as (kept & Hkept & Hku).
  destruct (exact_total_units toStr (skipn (30 * k) rainfallData)
              (Forall_skipn _ _ _ Hfin)) as (dropped & Hdropped & Hdu).
  pose proof (total_units_split (30 * k) rainfallData) as Hsplit.
  pose proof (total_units_nonneg _ (Forall_skipn _ (30 * k) _ Hnn)) as Hd0.
  assert (Hsum : (kept + dropped == total)%Q).
  { rewrite Hku, Hdu, HTu, <- units_value_plus, Hsplit. reflexivity. }
  assert (Hdrop : (0 <= dropped)%Q).
  { rewrite Hdu. unfold units_value, Qle. cbn [Qnum Qden]. lia. }
  assert (Hu : (0 <= (1 + (1 # 2 ^ 52)) ^ 30)%Q)
    by (apply Qle_bool_imp_le; vm_compute; reflexivity).
  rewrite <- Hku in Hlo, Hhi.
  assert (Hkt : (kept * (1 + (1 # 2 ^ 52)) ^ 30
                 <= total * (1 + (1 # 2 ^ 52)) ^ 30)%Q).
  { apply Qmult_le_compat_r; [lra|exact Hu]. }
  exists S, kept, dropped. split.
  { rewrite getMonthlyData_spec, map_map. fold k.
    cbn [Monthly.rainfall monthly_entry value_of]. exact HS. }
  split; [exact Hkept|]. split; [exact Hdropped|].
  split; [exact Hsum|]. split; [exact Hdrop|].
  split; [exact Hlo|]. split; [exact Hhi|].
  split; [lra|].
  intro Hf.
  destruct (float_total_above toStr rainfallData Hnn Hf) as (t & Ht & Htlo).
  exists t. split; [exact Ht|]. rewrite <- HTu in Htlo.
  assert (Hd : (0 <= (1 - (1 # 2 ^ 52))
                     ^ Z.of_nat (List.length rainfallData))%Q).
  { apply Qpower_0_le. apply Qle_bool_imp_le. vm_compute. reflexivity. }
  set (u := ((1 + (1 # 2 ^ 52)) ^ 30)%Q) in *.
  set (d := ((1 - (1 # 2 ^ 52)) ^ Z.of_nat (List.length rainfallData))%Q) in *.
  set (slack := (inject_Z (Z.of_nat k) * (1 # 20))%Q) in *.
  assert (H1 : ((S - slack) * d <= total * u * d)%Q).
  { apply Qmult_le_compat_r; [lra|exact Hd]. }
  assert (H2 : (total * d * u <= t * u)%Q).
  { apply Qmult_le_compat_r; [exact Htlo|exact Hu]. }
  lra.
Qed.

(** The bound for a series of 31 days: 0.01 and 0.24, then no rain, then
    2 on the day that is dropped. *)
Lemma monthly_rainfall_sum_bound_witness :
  let ops := float_ops (fun _ _ => "") in
  let r := ((0x1.47ae147ae147bp-7 :: 0x1.eb851eb851eb8p-3 :: repeat 0 28)
            ++ [2])%float in
  let exact := fun l : list float =>
                 sum_values (map (fun x => value_of ops (JSNumber x)) l) in
  exists total S kept dropped t : Q,
    exact r = Some total
    /\ sum_values
         (map (fun e => value_of ops (Monthly.rainfall e))
            (getMonthlyData ops r r)) = Some S
    /\ exact (firstn 30 r) = Some kept
    /\ exact (skipn 30 r) = Some dropped
    /\ (kept + dropped == total)%Q
    /\ (0 <= dropped)%Q
    /\ (kept * (1 - (1 # 2 ^ 52)) ^ 30 - inject_Z 1 * (1 # 20) <= S)%Q
    /\ (S <= kept * (1 + (1 # 2 ^ 52)) ^ 30 + inject_Z 1 * (1 # 20))%Q
    /\ (S <= total * (1 + (1 # 2 ^ 52)) ^ 30 + inject_Z 1 * (1 # 20))%Q
    /\ value_of ops (JSNumber (reduce_sum ops r)) = Some t
    /\ ((S - inject_Z 1 * (1 # 20)) * (1 - (1 # 2 ^ 52)) ^ 31
        <= t * (1 + (1 # 2 ^ 52)) ^ 30)%Q.
Proof.
  intros ops r exact.
  destruct (exact r) as [total|] eqn:Htotal; [|discriminate Htotal].
  exists total.
  destruct (monthly_rainfall_sum_bound (fun _ _ => "") r r total)
    as (S & kept & dropped & HS & Hk & Hd & Hsum & Hd0 & Hlo & Hhi & Htot
        & Hfloat).
  - repeat constructor.
  - exact Htotal.
  - vm_compute in Htotal. injection Htotal as Htotal. subst total.
    apply Qle_bool_imp_le. vm_compute. reflexivity.
  - destruct (Hfloat eq_refl) as (t & Ht & Hbound).
    exists S, kept, dropped, t. repeat split; assumption.
Defined.

(** C8, as stated, fails.  For the 30-day series of 0.0625 followed by
    zeros the one monthly entry is ["0.1"], more than the total rainfall
    of 0.0625; and for the 31-day series of 1 followed by zeros, whose
    length is not a multiple of 30, the entry ["1.0"] is not less than
    the total rainfall of 1. *)
Lemma monthly_sum_counterexample :
  (forall toStr : N -> positive -> string,
     let ops := float_ops toStr in
     let r := (0.0625 :: repeat 0 29)%float in
     map Monthly.rainfall (getMonthlyData ops r r) = [JSString "0.1"]
     /\ option_map Qred
          (sum_values (map (fun e => value_of ops (Monthly.rainfall e))
                         (getMonthlyData ops r r))) = Some (1 # 10)%Q
     /\ option_map Qred (value_of ops (JSNumber (reduce_sum ops r)))
        = Some (1 # 16)%Q)
  /\ ~ (1 # 10 <= 1 # 16)%Q
  /\ (forall toStr : N -> positive -> string,
        let ops := float_ops toStr in
        let r := (1 :: repeat 0 30)%float in
        map Monthly.rainfall (getMonthlyData ops r r) = [JSString "1.0"]
        /\ option_map Qred
             (sum_values (map (fun e => value_of ops (Monthly.rainfall e))
                            (getMonthlyData ops r r))) = Some (1 # 1)%Q
        /\ option_map Qred (value_of ops (JSNumber (reduce_sum ops r)))
           = Some (1 # 1)%Q)
  /\ ~ (1 # 1 < 1 # 1)%Q.
Proof.
  split; [|split; [|split]].
  - intro toStr. vm_compute. repeat split.
  - vm_compute. intro H. apply H. reflexivity.
  - intro toStr. vm_compute. repeat split.
  - vm_compute. discriminate.
Qed.

(** The additions count: for the 30-day series of 0.01 and 0.24 followed
    by zeros, the binary64 sum of the month is 0.25 and its entry
    ["0.3"], while the exact total of the two values is below 0.25, so the
    entry is more than 0.05 above it. *)
Example monthly_sum_of_rounded_additions :
  forall toStr : N -> positive -> string,
  let ops := float_ops toStr in
  let r := (0x1.47ae147ae147bp-7 :: 0x1.eb851eb851eb8p-3 :: repeat 0 28)%float in
  map Monthly.rainfall (getMonthlyData ops r r) = [JSString "0.3"]
  /\ reduce_sum ops r = 0.25%float
  /\ exists total : Q,
       sum_values (map (fun x => value_of ops (JSNumber x)) r) = Some total
       /\ (total + (1 # 20) < 3 # 10)%Q.
Proof.
  intro toStr. cbv zeta. split; [vm_compute; reflexivity|].
  split; [vm_compute; reflexivity|].
  eexists. split; [vm_compute; reflexivity|].
  vm_compute. reflexivity.
Qed.
